(** * Page distribution, section splitting and slide normalization

    A shallow embedding of the content-distribution core of the generator:
    - [backend/services/docx_generator.py]: [_clean_section_content],
      [split_section_into_parts], [distribute_sections_across_pages], and
      [build_docx_file] as the list of calls it makes on the document;
    - [backend/services/content_generator.py]: the normalization that
      [generate_content_with_gemini] applies to the parsed model output,
      [_fallback_generate_sections], and what
      [generate_word_sections_with_gemini] does with the sections of the
      first answer (the calls of the model are parameters);
    - [backend/services/pptx_generator.py]: the template choice of
      [build_pptx], the image location it hands to [_get_tmp_image_path],
      and [_split_into_paragraphs];
    - [backend/routers/documents.py]: [export_word_project] from the rows
      of the sections to the document;
    - [backend/routers/presentations.py]: [_sanitize_generated_content], as
      [create_presentation] applies it to the generated slides;
    - [backend/models/schemas.py]: the validators of [ConfigurationUpdate].

    Python [str] values are lists of 8-bit characters.  The character classes
    used by [str.strip], [str.lower] and by [\s] and [\w] of [re] are the
    ones Python gives to code points below 128; larger codes are neither
    blank nor word characters and are left alone by [lower]. *)

From Stdlib Require Import ZArith Ascii String Bool Lia.
From Stdlib Require Import Numbers.DecimalString.
From stdpp Require Import base option list gmap sorting.

Local Open Scope Z_scope.

(** ** Strings *)

Abbreviation str := (list ascii).

Definition lit (s : string) : str := list_ascii_of_string s.

Definition NL : ascii := ascii_of_nat 10.
Definition CR : ascii := ascii_of_nat 13.
Definition BACKSLASH : ascii := ascii_of_nat 92.

Definition in_range (lo hi : N) (c : ascii) : bool :=
  let n := N_of_ascii c in (lo <=? n)%N && (n <=? hi)%N.

(** [str.isspace] on one character: TAB..CR, FS..US and the space. *)
Definition isspace (c : ascii) : bool :=
  in_range 9 13 c || in_range 28 32 c.

Definition isdigit (c : ascii) : bool := in_range 48 57 c.
Definition isupper (c : ascii) : bool := in_range 65 90 c.
Definition islower (c : ascii) : bool := in_range 97 122 c.

(** [[a-zA-Z0-9]] *)
Definition isalnum (c : ascii) : bool := isdigit c || isupper c || islower c.

(** [\w] *)
Definition isword (c : ascii) : bool :=
  isalnum c || bool_decide (c = ascii_of_nat 95).

Definition lower_char (c : ascii) : ascii :=
  if isupper c then ascii_of_N (N_of_ascii c + 32) else c.

(** [s.lower()] *)
Definition lower (s : str) : str := map lower_char s.

Definition is_empty {A} (l : list A) : bool :=
  match l with [] => true | _ => false end.

(** Truth value of a string or list. *)
Definition nonempty {A} (l : list A) : bool := negb (is_empty l).

(** [s.lstrip()], [s.rstrip()], [s.strip()] *)
Fixpoint lstrip (s : str) : str :=
  match s with
  | c :: s' => if isspace c then lstrip s' else s
  | [] => []
  end.

Definition rstrip (s : str) : str := rev (lstrip (rev s)).

Definition strip (s : str) : str := rstrip (lstrip s).

(** [s.startswith(p)] *)
Fixpoint startswith (s p : str) {struct p} : bool :=
  match p, s with
  | [], _ => true
  | a :: p', b :: s' => bool_decide (a = b) && startswith s' p'
  | _ :: _, [] => false
  end.

(** [sub in s] *)
Fixpoint contains (sub s : str) : bool :=
  startswith s sub ||
  match s with
  | [] => false
  | _ :: s' => contains sub s'
  end.

(** [s.replace(old, new)] for a non-empty [old]: occurrences are found from
    the left and do not overlap.  [skip] counts the characters of a matched
    occurrence that are still to be passed over. *)
Fixpoint replace_go (old new : str) (skip : nat) (s : str) : str :=
  match s with
  | [] => []
  | c :: s' =>
      match skip with
      | S k => replace_go old new k s'
      | O =>
          if startswith s old
          then new ++ replace_go old new (length old - 1) s'
          else c :: replace_go old new 0 s'
      end
  end.

Definition replace (old new s : str) : str := replace_go old new 0 s.

(** [s.split(sep)] for a one-character separator. *)
Fixpoint split (sep : ascii) (s : str) : list str :=
  match s with
  | [] => [[]]
  | c :: s' =>
      if bool_decide (c = sep) then [] :: split sep s'
      else match split sep s' with
           | h :: t => (c :: h) :: t
           | [] => [[c]]
           end
  end.

(** [sep.join(l)] *)
Fixpoint join (sep : str) (l : list str) : str :=
  match l with
  | [] => []
  | x :: l' =>
      match l' with
      | [] => x
      | _ :: _ => x ++ sep ++ join sep l'
      end
  end.

(** ** The text normalizer: [_clean_section_content] *)

(** The first two statements: every line break convention, and the escaped
    [\n] the model may emit, become a newline. *)
Definition normalize_newlines (raw : str) : str :=
  let text := replace [CR] [NL] (replace [CR; NL] [NL] raw) in
  replace [BACKSLASH; "n"%char] [NL] text.

(** The five tests made on the lowered first line. *)
Definition is_meta_line (doc_title_low heading_low f_low : str) : bool :=
  let is_doc_title := bool_decide (f_low = doc_title_low) in
  let is_page_section :=
    startswith f_low (lit "page ") && contains (lit "section") f_low in
  let is_section_prefix := startswith f_low (lit "section ") in
  let is_heading_exact := bool_decide (f_low = heading_low) in
  let is_heading_with_colon :=
    nonempty heading_low && startswith f_low (heading_low ++ lit ":") in
  is_doc_title || is_page_section || is_section_prefix
  || is_heading_exact || is_heading_with_colon.

(** [any(l.strip() for l in rest)] *)
Definition any_nonblank (rest : list str) : bool :=
  existsb (fun l => nonempty (strip l)) rest.

(** The [while lines:] loop.  Each [continue] pops the first line, so the
    loop is a recursion on the list; each [break] returns what is left. *)
Fixpoint strip_meta_lines (doc_title_low heading_low : str)
    (lines : list str) : list str :=
  match lines with
  | [] => []
  | l :: rest =>
      let first := strip l in
      if is_empty first then strip_meta_lines doc_title_low heading_low rest
      else
        let f_low := lower first in
        if is_meta_line doc_title_low heading_low f_low then
          if (1 <? length lines)%nat && any_nonblank rest
          then strip_meta_lines doc_title_low heading_low rest
          else lines
        else lines
  end.

(** One round of [for line in lines:] in the blank-line collapse. *)
Definition collapse_step (cleaned : list str) (line : str) : list str :=
  if is_empty line then
    if nonempty cleaned && bool_decide (last cleaned = Some [])
    then cleaned
    else cleaned ++ [[]]
  else cleaned ++ [line].

Definition collapse_blank_lines (lines : list str) : list str :=
  fold_left collapse_step lines [].

(** [while cleaned and cleaned[0] == '': cleaned.pop(0)] *)
Fixpoint trim_leading_blank (cleaned : list str) : list str :=
  match cleaned with
  | [] :: rest => trim_leading_blank rest
  | _ => cleaned
  end.

(** [while cleaned and cleaned[-1] == '': cleaned.pop()] *)
Definition trim_trailing_blank (cleaned : list str) : list str :=
  rev (trim_leading_blank (rev cleaned)).

Definition _clean_section_content (doc_title heading raw : str) : str :=
  if is_empty raw then []
  else
    let text := normalize_newlines raw in
    let lines := map strip (split NL text) in
    let doc_title_low := lower (strip doc_title) in
    let heading_low := lower (strip heading) in
    let lines := strip_meta_lines doc_title_low heading_low lines in
    let cleaned := collapse_blank_lines lines in
    let cleaned := trim_trailing_blank (trim_leading_blank cleaned) in
    strip (join [NL] cleaned).


(** ** Sections and the section splitter: [split_section_into_parts] *)

(** A section dictionary.  A field is [None] when the key is absent or
    holds [None]; the generator reads both as the empty string. *)
Record SectionDict := mkSection {
  d_heading : option str;
  d_content : option str;
  d_order_index : option Z;
  d_page_number : option Z
}.

Global Instance SectionDict_eq_dec : EqDecision SectionDict.
Proof. solve_decision. Defined.

(** [{"heading": h, "content": c}] *)
Definition part_dict (h c : str) : SectionDict :=
  mkSection (Some h) (Some c) None None.

(** [d.get(key, '') or ''] *)
Definition get_str (field : option str) : str := default [] field.

(** [l[a:b]] and [l[a:]] for indices that are not negative. *)
Definition slice {A} (l : list A) (a b : Z) : list A :=
  take (Z.to_nat (b - a)) (drop (Z.to_nat a) l).

Definition slice_from {A} (l : list A) (a : Z) : list A :=
  drop (Z.to_nat a) l.

(** [len(l)] *)
Definition len {A} (l : list A) : Z := Z.of_nat (length l).

(** [range(a, b)] *)
Definition range (a b : Z) : list Z := seqZ a (b - a).

(** The maximal runs of the characters that satisfy [keep]; [cur] is the
    run being read. *)
Fixpoint runs_go (keep : ascii -> bool) (cur : str) (s : str) : list str :=
  match s with
  | [] => if is_empty cur then [] else [cur]
  | c :: s' =>
      if keep c then runs_go keep (cur ++ [c]) s'
      else (if is_empty cur then [] else [cur]) ++ runs_go keep [] s'
  end.

Definition runs (keep : ascii -> bool) (s : str) : list str :=
  runs_go keep [] s.

(** [re.findall(r"\w+", s)]: the maximal runs of word characters. *)
Definition findall_w (s : str) : list str := runs isword s.


(** [[.!?]] *)
Definition is_sentence_end (c : ascii) : bool :=
  bool_decide (c = "."%char) || bool_decide (c = "!"%char)
  || bool_decide (c = "?"%char).

(** Where the scan of [re.split(r'(?<=[.!?])\s+', text)] stands: inside a
    piece, right after one of [.!?], or inside a matched run of blanks. *)
Inductive split_state := Inside | AfterEnd | InGap.

Definition after_char (c : ascii) : split_state :=
  if is_sentence_end c then AfterEnd else Inside.

(** [re.split(r'(?<=[.!?])\s+', text)]: a match is a maximal run of blanks
    that directly follows one of [.!?]; the pieces between the matches are
    returned, the last one possibly empty. *)
Fixpoint split_sentences_go (st : split_state) (cur : str) (s : str)
    : list str :=
  match s with
  | [] => [cur]
  | c :: s' =>
      match st with
      | InGap =>
          if isspace c then split_sentences_go InGap [] s'
          else split_sentences_go (after_char c) [c] s'
      | AfterEnd =>
          if isspace c then cur :: split_sentences_go InGap [] s'
          else split_sentences_go (after_char c) (cur ++ [c]) s'
      | Inside => split_sentences_go (after_char c) (cur ++ [c]) s'
      end
  end.

Definition split_sentences (text : str) : list str :=
  split_sentences_go Inside [] text.

(** The heading of part [i]. *)
Definition part_heading (heading : str) (i : Z) : str :=
  if i =? 0 then heading else heading ++ lit " (cont.)".

(** The body of the sentence loop; the state is [(out, idx)]. *)
Definition sentence_step (heading : str) (sentences : list str)
    (chunk_size : Z) (st : list SectionDict * Z) (i : Z)
    : list SectionDict * Z :=
  let '(out, idx) := st in
  let chunk := slice sentences idx (idx + chunk_size) in
  (out ++ [part_dict (part_heading heading i) (strip (join (lit " ") chunk))],
   idx + chunk_size).

(** The body of the paragraph loop; the state is [(out, ptr)]. *)
Definition paragraph_step (heading : str) (paragraphs : list str)
    (base rem : Z) (st : list SectionDict * Z) (i : Z)
    : list SectionDict * Z :=
  let '(out, ptr) := st in
  let take_ := base + (if i <? rem then 1 else 0) in
  let chunk_paras := slice paragraphs ptr (ptr + take_) in
  (out ++ [part_dict (part_heading heading i) (strip (join [NL] chunk_paras))],
   ptr + take_).

(** [out[-1]["content"] = f(out[-1]["content"])]; [None] is the
    [IndexError] of an empty [out]. *)
Definition set_last_content (f : str -> str) (out : list SectionDict)
    : option (list SectionDict) :=
  match rev out with
  | [] => None
  | d :: before =>
      Some (rev before ++
            [mkSection (d_heading d) (Some (f (get_str (d_content d))))
               (d_order_index d) (d_page_number d)])
  end.

(** [None] stands for an exception ([ZeroDivisionError] when [parts] is 0
    and there are paragraphs to share out). *)
Definition split_section_into_parts (section : SectionDict) (parts : Z)
    : option (list SectionDict) :=
  let heading := get_str (d_heading section) in
  let raw := get_str (d_content section) in
  let content := _clean_section_content [] heading raw in
  let paragraphs :=
    map strip (filter (fun p => nonempty (strip p)) (split NL content)) in
  if is_empty paragraphs then
    Some (map (fun _ => part_dict heading []) (range 0 parts))
  else if len paragraphs <? parts then
    let text := join [NL] paragraphs in
    let sentences := split_sentences text in
    let sentences := if is_empty sentences then [text] else sentences in
    let chunk_size := Z.max 1 (len sentences / parts) in
    let '(out, idx) :=
      fold_left (sentence_step heading sentences chunk_size)
        (range 0 parts) ([], 0) in
    let leftover := slice_from sentences idx in
    if nonempty leftover then
      set_last_content
        (fun c => strip (c ++ lit " " ++ join (lit " ") leftover)) out
    else Some out
  else if parts =? 0 then None
  else
    let base := len paragraphs / parts in
    let rem := len paragraphs mod parts in
    let '(out, _) :=
      fold_left (paragraph_step heading paragraphs base rem)
        (range 0 parts) ([], 0) in
    Some out.

(** ** The page distributor: [distribute_sections_across_pages] *)

Abbreviation page := (list SectionDict).

(** [len(re.findall(r'\w+', s.get('content', '') or ''))] *)
Definition word_count (s : SectionDict) : Z :=
  len (findall_w (get_str (d_content s))).

(** [sum(word_count(sec) for sec in page)] *)
Definition page_wc (pg : page) : Z :=
  fold_right (fun s acc => word_count s + acc) 0 pg.

(** [sorted(sections, key=word_count, reverse=True)]: the sort is stable,
    and stays so under [reverse=True]: among sections with the same count
    the input order is kept. *)
Fixpoint insert_desc (x : SectionDict) (l : page) : page :=
  match l with
  | [] => [x]
  | y :: l' =>
      if word_count x <? word_count y then y :: insert_desc x l'
      else x :: l
  end.

Definition sorted_desc (sections : page) : page :=
  fold_right insert_desc [] sections.

(** [enumerate(l)] *)
Definition enumerate {A} (l : list A) : list (Z * A) :=
  zip (seqZ 0 (len l)) l.

(** A loop whose body may raise: [None] is the exception. *)
Fixpoint fold_opt {S X} (f : S -> X -> option S) (l : list X) (s : S)
    : option S :=
  match l with
  | [] => Some s
  | x :: l' => s' ← f s x; fold_opt f l' s'
  end.

(** [pages_list[i].append(x)] for an index that is not negative; [None] is
    the [IndexError]. *)
Definition append_at (pages_list : list page) (i : Z) (x : SectionDict)
    : option (list page) :=
  if (0 <=? i) && (i <? len pages_list)
  then Some (alter (fun pg => pg ++ [x]) (Z.to_nat i) pages_list)
  else None.

(** The seeding loop over [enumerate(sections_sorted)]. *)
Definition seed_step (num_pages : Z) (pages_list : list page)
    (isec : Z * SectionDict) : option (list page) :=
  let '(i, sec) := isec in
  if i <? num_pages then append_at pages_list i sec
  else append_at pages_list 0 sec.

(** The scan for the page with the greatest word count: the state is
    [(longest_page_idx, longest_wc)]; a later page replaces the current one
    only if its count is strictly greater. *)
Definition longest_step (st : option Z * Z) (ip : Z * page) : option Z * Z :=
  let '(longest_page_idx, longest_wc) := st in
  let '(i, pg) := ip in
  if is_empty pg then st
  else
    let wc := page_wc pg in
    if longest_wc <? wc then (Some i, wc) else st.

Definition find_longest (pages_list : list page) : option Z :=
  fst (fold_left longest_step (enumerate pages_list) (None, 0)).

(** The scan for the first empty page. *)
Definition find_next_empty (pages_list : list page) : option Z :=
  (fun r => Z.of_nat (fst r)) <$> list_find (fun pg : page => pg = []) pages_list.

(** How one round of the [while] loop ends. *)
Inductive round := Continue (pages_list : list page) | Break (pages_list : list page).

(** One round of [while empty_slots > 0:].  [None] is an exception
    ([IndexError] of a [pop] or of an index, or one raised by the split). *)
Definition fill_round (pages_list : list page) : option round :=
  match find_longest pages_list with
  | None => Some (Break pages_list)
  | Some longest_page_idx =>
      pg ← pages_list !! Z.to_nat longest_page_idx;
      match pg with
      | [] => None
      | sec_to_split :: rest =>
          let pages_list := <[Z.to_nat longest_page_idx := rest]> pages_list in
          parts ← split_section_into_parts sec_to_split 2;
          part0 ← parts !! 0%nat;
          pages_list ← append_at pages_list longest_page_idx part0;
          match find_next_empty pages_list with
          | None => Some (Break pages_list)
          | Some next_empty =>
              part1 ← parts !! 1%nat;
              pages_list ← append_at pages_list next_empty part1;
              Some (Continue pages_list)
          end
      end
  end.

(** [while empty_slots > 0:]; every completed round takes one from
    [empty_slots], so the loop is a recursion on it. *)
Fixpoint fill_loop (empty_slots : nat) (pages_list : list page)
    : option (list page) :=
  match empty_slots with
  | O => Some pages_list
  | S n =>
      r ← fill_round pages_list;
      match r with
      | Continue pages_list => fill_loop n pages_list
      | Break pages_list => Some pages_list
      end
  end.

(** The body of the balanced loop; the state is [(pages, idx)]. *)
Definition balanced_step (sections : page) (base rem : Z)
    (st : gmap Z page * Z) (p : Z) : gmap Z page * Z :=
  let '(pages, idx) := st in
  let take_ := base + (if p <=? rem then 1 else 0) in
  (<[p := slice sections idx (idx + take_)]> pages, idx + take_).

Definition distribute_sections_across_pages (sections : page) (num_pages : Z)
    : option (gmap Z page) :=
  let num_pages := if num_pages <=? 0 then 1 else num_pages in
  let pages : gmap Z page :=
    list_to_map ((fun i => (i, [])) <$> range 1 (num_pages + 1)) in
  let total_sections := len sections in
  if total_sections =? 0 then Some pages
  else if num_pages <=? total_sections then
    let base := total_sections / num_pages in
    let rem := total_sections mod num_pages in
    Some (fst (fold_left (balanced_step sections base rem)
                 (range 1 (num_pages + 1)) (pages, 0)))
  else
    let sections_sorted := sorted_desc sections in
    let pages_list : list page := (fun _ => []) <$> range 0 num_pages in
    pages_list ← fold_opt (seed_step num_pages) (enumerate sections_sorted)
                   pages_list;
    let filled_pages := len (filter (fun pg : page => nonempty pg) pages_list) in
    let empty_slots := num_pages - filled_pages in
    pages_list ← fill_loop (Z.to_nat empty_slots) pages_list;
    Some (fold_left (fun pages ip => <[fst ip + 1 := snd ip]> pages)
            (enumerate pages_list) pages).

(** ** Parsed model output and the slide normalizer *)

Local Set Warnings "-register-all".

(** What [json.loads] returns.  Of a float the normalizer only sees its
    truth value and its [str()]; a dictionary keeps its insertion order. *)
Inductive json :=
| JNull
| JBool (b : bool)
| JInt (z : Z)
| JFloat (nonzero : bool) (text : str)
| JStr (s : str)
| JList (items : list json)
| JDict (fields : list (str * json)).

Abbreviation dict := (list (str * json)).

(** [key in d], [d.get(key)], [d.get(key, dflt)], [d[key] = v] *)
Fixpoint dict_lookup (key : str) (d : dict) : option json :=
  match d with
  | [] => None
  | (k, v) :: d' => if bool_decide (k = key) then Some v else dict_lookup key d'
  end.

Definition dict_get (d : dict) (key : str) (dflt : json) : json :=
  default dflt (dict_lookup key d).

Fixpoint dict_set (d : dict) (key : str) (v : json) : dict :=
  match d with
  | [] => [(key, v)]
  | (k, v') :: d' =>
      if bool_decide (k = key) then (k, v) :: d'
      else (k, v') :: dict_set d' key v
  end.

(** Truth value, [a or b], [v == "text"], [isinstance(v, str)] *)
Definition truthy (v : json) : bool :=
  match v with
  | JNull => false
  | JBool b => b
  | JInt z => negb (z =? 0)
  | JFloat nonzero _ => nonzero
  | JStr s => nonempty s
  | JList items => nonempty items
  | JDict fields => nonempty fields
  end.

Definition py_or (a b : json) : json := if truthy a then a else b.

Definition eq_str (v : json) (text : str) : bool :=
  match v with
  | JStr s => bool_decide (s = text)
  | _ => false
  end.

Definition is_str (v : json) : bool :=
  match v with JStr _ => true | _ => false end.

(** [str(n)] for an integer. *)
Definition decimal (n : Z) : str :=
  lit (NilZero.string_of_int (Z.to_int n)).

(** [l[:n]]: a negative [n] counts from the end. *)
Definition slice_to {A} (l : list A) (n : Z) : list A :=
  if 0 <=? n then take (Z.to_nat n) l else take (Z.to_nat (len l + n)) l.

(** [v[:120]]; [None] is the [TypeError] (or [KeyError]) of a value that
    cannot be sliced. *)
Definition slice_120 (v : json) : option json :=
  match v with
  | JStr s => Some (JStr (slice_to s 120))
  | JList items => Some (JList (slice_to items 120))
  | _ => None
  end.

Definition LAYOUT_TITLE : str := lit "title".
Definition LAYOUT_BULLET : str := lit "bullet".
Definition LAYOUT_TWO_COLUMN : str := lit "two_column".
Definition LAYOUT_IMAGE : str := lit "image".

Definition title_slide (title : json) : dict :=
  [(lit "layout", JStr LAYOUT_TITLE); (lit "title", title)].

Definition bullet_slide (title bullets : json) : dict :=
  [(lit "layout", JStr LAYOUT_BULLET); (lit "title", title);
   (lit "bullets", bullets)].

Definition two_column_slide (title left right : json) : dict :=
  [(lit "layout", JStr LAYOUT_TWO_COLUMN); (lit "title", title);
   (lit "left", left); (lit "right", right)].

Definition image_slide (title caption : json) : dict :=
  [(lit "layout", JStr LAYOUT_IMAGE); (lit "title", title);
   (lit "caption", caption)].

Definition image_url_of_seed (seed : str) : str :=
  lit "https://picsum.photos/seed/" ++ seed ++ lit "/1200/800".

(** [re.sub(r'[^a-zA-Z0-9]', '', f'{topic}_{idx}') or f'slide_{idx}'] *)
Definition image_seed (topic : str) (idx : Z) : str :=
  let seed := filter (fun c => isalnum c) (topic ++ lit "_" ++ decimal idx) in
  if nonempty seed then seed else lit "slide_" ++ decimal idx.

Section SlideNormalizer.

(** [repr] of a list or dictionary, the built-in of Python. *)
Variable py_repr : json -> str.

(** [str(v)] *)
Definition py_str (v : json) : str :=
  match v with
  | JNull => lit "None"
  | JBool true => lit "True"
  | JBool false => lit "False"
  | JInt z => decimal z
  | JFloat _ text => text
  | JStr s => s
  | JList _ | JDict _ => py_repr v
  end.

(** The body of [for idx, slide in enumerate(data):]: the slides it appends,
    none when the item is skipped. *)
Definition normalize_item (slide : json) : list dict :=
  match slide with
  | JDict slide =>
      match dict_lookup (lit "layout") slide with
      | Some layout =>
          if eq_str layout LAYOUT_TITLE then
            [title_slide (dict_get slide (lit "title") (JStr []))]
          else if eq_str layout LAYOUT_BULLET then
            [bullet_slide (dict_get slide (lit "title") (JStr []))
               (py_or (dict_get slide (lit "bullets") JNull) (JList []))]
          else if eq_str layout LAYOUT_TWO_COLUMN then
            [two_column_slide (dict_get slide (lit "title") (JStr []))
               (dict_get slide (lit "left") (JStr []))
               (dict_get slide (lit "right") (JStr []))]
          else if eq_str layout LAYOUT_IMAGE then
            [image_slide (dict_get slide (lit "title") (JStr []))
               (dict_get slide (lit "caption")
                  (dict_get slide (lit "title") (JStr [])))]
          else []
      | None =>
          let title := dict_get slide (lit "title") (JStr []) in
          let content := dict_get slide (lit "content") JNull in
          let image := dict_get slide (lit "image") JNull in
          let notes := dict_get slide (lit "notes") JNull in
          match content with
          | JList items =>
              let bullets :=
                map (fun b => JStr (strip (py_str b)))
                  (filter (fun b => nonempty (strip (py_str b))) items) in
              [bullet_slide title (JList bullets)]
          | _ =>
              if truthy image
              then [image_slide title (py_or notes (JStr (py_str image)))]
              else [title_slide title]
          end
      end
  | _ => []
  end.

(** "Ensure we have exactly num_slides slides". *)
Definition exact_count (normalized_slides : list dict) (num_slides : Z)
    : list dict :=
  if len normalized_slides <? num_slides then
    normalized_slides ++
    map (fun i => title_slide (JStr (lit "Slide " ++ decimal (i + 1))))
      (range (len normalized_slides) num_slides)
  else if num_slides <? len normalized_slides then
    slice_to normalized_slides num_slides
  else normalized_slides.

(** The body of the last loop, "Ensure image slides have caption +
    image_url"; [None] is the exception of the slice. *)
Definition ensure_image (topic : str) (ix : Z * dict) : option dict :=
  let '(idx, s) := ix in
  if eq_str (dict_get s (lit "layout") JNull) LAYOUT_IMAGE then
    let caption := dict_get s (lit "caption") JNull in
    s ← (if negb (truthy caption) || negb (is_str caption) then
           c ← slice_120 (py_or (dict_get s (lit "title") (JStr [])) (JStr []));
           Some (dict_set s (lit "caption") c)
         else Some s);
    Some (dict_set s (lit "image_url")
            (JStr (image_url_of_seed (image_seed topic idx))))
  else Some s.

(** What [generate_content_with_gemini] does with [data], the parsed answer
    of the model.  [None] is the [RuntimeError] that the function raises
    for any exception of its body. *)
Definition generate_content_with_gemini (data : json) (topic : str)
    (num_slides : Z) : option (list dict) :=
  match data with
  | JList items =>
      let normalized_slides := concat (map normalize_item items) in
      let normalized_slides := exact_count normalized_slides num_slides in
      mapM (ensure_image topic) (enumerate normalized_slides)
  | _ => None
  end.

End SlideNormalizer.

(** ** Styling configuration and the template choice of [build_pptx] *)

Record ConfigurationUpdate := mkConfiguration {
  theme_id : option str;
  font_name : option str;
  font_color : option str;
  background_color : option str;
  accent_color : option str
}.

Definition ALLOWED_FONTS : list str :=
  [lit "Arial"; lit "Calibri"; lit "Times New Roman"; lit "Segoe UI";
   lit "Poppins"].

Definition ishex (c : ascii) : bool :=
  isdigit c || in_range 65 70 c || in_range 97 102 c.

Definition hex_digits (n : nat) (s : str) : bool :=
  bool_decide (length s = n) && forallb ishex s.

(** [HEX_COLOR_REGEX.match(v)]: a hash and three or six hexadecimal digits;
    the final [$] also matches before a newline that ends the string. *)
Definition hex_color_match (v : str) : bool :=
  match v with
  | c :: body =>
      let body :=
        match rev body with
        | e :: r => if bool_decide (e = NL) then rev r else body
        | [] => body
        end in
      bool_decide (c = "#"%char) && (hex_digits 3 body || hex_digits 6 body)
  | [] => false
  end.

(** [v and ...]: the truth value of an optional string. *)
Definition is_set (v : option str) : bool := nonempty (default [] v).

Definition validate_font (v : option str) : bool :=
  negb (is_set v && negb (bool_decide (default [] v ∈ ALLOWED_FONTS))).

Definition validate_color (v : option str) : bool :=
  negb (is_set v && negb (hex_color_match (default [] v))).

(** The fields rejected by the validators of the model, in field order; the
    configuration is accepted when there is none. *)
Definition validation_errors (c : ConfigurationUpdate) : list str :=
  (if validate_font (font_name c) then [] else [lit "font_name"]) ++
  (if validate_color (font_color c) then [] else [lit "font_color"]) ++
  (if validate_color (background_color c) then []
   else [lit "background_color"]) ++
  (if validate_color (accent_color c) then [] else [lit "accent_color"]).

Definition opt_json (v : option str) : json :=
  match v with Some s => JStr s | None => JNull end.

(** [config.dict()] *)
Definition configuration_dict (c : ConfigurationUpdate) : dict :=
  [(lit "theme_id", opt_json (theme_id c));
   (lit "font_name", opt_json (font_name c));
   (lit "font_color", opt_json (font_color c));
   (lit "background_color", opt_json (background_color c));
   (lit "accent_color", opt_json (accent_color c))].

(** The keys of [TEMPLATE_MAP]. *)
Definition TEMPLATE_IDS : list str :=
  [lit "ppt1"; lit "ppt2"; lit "ppt3"; lit "ppt4"; lit "ppt5"; lit "ppt6";
   lit "ppt7"; lit "ppt8"; lit "ppt9"].

(** What the deck starts from. *)
Inductive base_presentation :=
| FromTemplate (template_path : str)
| DefaultPresentation.

Section TemplateChoice.

(** The directory of the templates, and [os.path.exists]. *)
Variable TEMPLATE_DIR : str.
Variable path_exists : str -> bool.

Definition template_file (name : str) : str :=
  TEMPLATE_DIR ++ lit "/" ++ name ++ lit ".pptx".

Definition TEMPLATE_MAP : list (str * str) :=
  map (fun name => (name, template_file name)) TEMPLATE_IDS.

Fixpoint assoc_get (key : str) (m : list (str * str)) : option str :=
  match m with
  | [] => None
  | (k, v) :: m' => if bool_decide (k = key) then Some v else assoc_get key m'
  end.

(** [TEMPLATE_MAP.get(key)]; the outer [None] is the [TypeError] of a key
    that cannot be hashed. *)
Definition template_map_get (key : json) : option (option str) :=
  match key with
  | JStr s => Some (assoc_get s TEMPLATE_MAP)
  | JList _ | JDict _ => None
  | _ => Some None
  end.

(** Step 1 of [build_pptx], "Choose template". [config] is [None] when the
    caller passes [None]. *)
Definition build_pptx_choose_template (config : option dict)
    : option base_presentation :=
  let theme_id :=
    py_or (dict_get (default [] config) (lit "theme_id") JNull)
      (JStr (lit "ppt1")) in
  template_path ← template_map_get theme_id;
  match template_path with
  | Some template_path =>
      if nonempty template_path && path_exists template_path
      then Some (FromTemplate template_path)
      else Some DefaultPresentation
  | None => Some DefaultPresentation
  end.

End TemplateChoice.

(** ** Captions in paragraphs: [_split_into_paragraphs] *)

(** [[p.strip() for p in text.replace("\n", " ").split(".") if p.strip()]] *)
Definition caption_parts (text : str) : list str :=
  map strip
    (filter (fun p => nonempty (strip p))
       (split "."%char (replace [NL] (lit " ") text))).

(** The body of [for i, p in enumerate(parts):]; the state is
    [(paragraphs, buf)].  [None] is the [ZeroDivisionError] of [%]; the
    remainder of Python has the sign of the divisor, as [mod] has. *)
Definition buffer_step (max_sentences_per_para : Z)
    (st : list str * list str) (ip : Z * str)
    : option (list str * list str) :=
  let '(paragraphs, buf) := st in
  let '(i, p) := ip in
  let buf := buf ++ [p ++ lit "."] in
  if max_sentences_per_para =? 0 then None
  else if (i + 1) mod max_sentences_per_para =? 0
       then Some (paragraphs ++ [strip (join (lit " ") buf)], [])
       else Some (paragraphs, buf).

Definition _split_into_paragraphs (text : str) (max_sentences_per_para : Z)
    : option (list str) :=
  if is_empty text then Some []
  else
    let parts := caption_parts text in
    st ← fold_opt (buffer_step max_sentences_per_para) (enumerate parts)
           ([], []);
    let '(paragraphs, buf) := st in
    Some (if nonempty buf
          then paragraphs ++ [strip (join (lit " ") buf)]
          else paragraphs).

(** ** The image of an image slide in [build_pptx] *)

(** [s.lstrip(chars)] and [s.strip(chars)] *)
Fixpoint lstrip_chars (chars : str) (s : str) : str :=
  match s with
  | c :: s' => if bool_decide (c ∈ chars) then lstrip_chars chars s' else s
  | [] => []
  end.

Definition strip_chars (chars : str) (s : str) : str :=
  rev (lstrip_chars chars (rev (lstrip_chars chars s))).

(** Where the picture of the slide comes from: [_get_tmp_image_path] reads
    a location that starts with "http" as a remote one, any other as the
    path of a local file. *)
Inductive image_source :=
| NoImage
| LocalFile (path : str)
| RemoteUrl (url : str).

(** ** The document builder: [build_docx_file] *)

(** What the builder asks of the document, in order: [doc.add_heading],
    [doc.add_page_break] and [doc.add_paragraph].  [run_size] is the size,
    in points, given to the runs of the new paragraph; the title heading
    keeps the size of its style. *)
Inductive doc_call :=
| add_heading (text : str) (level : Z) (run_size : option Z)
| add_page_break
| add_paragraph (text : str) (run_size : Z).

Global Instance doc_call_eq_dec : EqDecision doc_call.
Proof. solve_decision. Defined.






(** ** The export endpoint: [export_word_project] *)




(** ** Placeholder sections: [_fallback_generate_sections] *)

Definition FALLBACK_FIRST_LINE : str :=
  lit "This is fallback auto-generated content. The AI service was unavailable or returned an unexpected response. Replace this with a proper draft or try generating again.".

Definition FALLBACK_BODY : str :=
  FALLBACK_FIRST_LINE ++ [NL; NL] ++
  lit "Key points:" ++ [NL] ++ lit "- Outline 1" ++ [NL] ++
  lit "- Outline 2" ++ [NL] ++ lit "- Practical example or implication.".

(** The text of a placeholder section: its heading, an empty line, the
    fixed body. *)
Definition fallback_content (h : str) : str := h ++ [NL; NL] ++ FALLBACK_BODY.

(** A section as the generator of Word sections handles it: a dictionary
    with the keys [heading], [order_index] and [content]. *)
Record WordSection := mkWordSection {
  ws_heading : json;
  ws_order_index : Z;
  ws_content : str
}.

Definition _fallback_generate_sections (topic : str)
    (section_headings : list str) (target_sections : Z) : list WordSection :=
  let headings :=
    if nonempty section_headings
    then slice_to section_headings (Z.max 1 (len section_headings))
    else map (fun i => lit "Section " ++ decimal (i + 1))
           (range 0 target_sections) in
  map (fun ih : Z * str =>
         mkWordSection (JStr (snd ih)) (fst ih + 1) (fallback_content (snd ih)))
    (enumerate (slice_to headings target_sections)).

(** ** Sections of a Word document: [generate_word_sections_with_gemini] *)

(** The number of sections aimed at. *)
Definition target_sections_of (section_headings : list str) (num_pages : Z)
    (sections_per_page : option Z) : Z :=
  if is_empty section_headings then
    match sections_per_page with
    | Some per_page =>
        if negb (per_page =? 0) && (0 <? per_page)
        then Z.max 1 (num_pages * per_page)
        else Z.max 1 (if 0 <? num_pages then num_pages else 1)
    | None => Z.max 1 (if 0 <? num_pages then num_pages else 1)
    end
  else Z.max 1 (len section_headings).

(** Pieces of the two anchored patterns: a literal, one of two literals,
    [\d+]; each returns what follows the match.  [\s*] is [lstrip]. *)
Definition literal (p s : str) : option str :=
  if startswith s p then Some (drop (length p) s) else None.

Definition either (p q s : str) : option str :=
  match literal p s with
  | Some r => Some r
  | None => literal q s
  end.

Fixpoint skip_digits (s : str) : str :=
  match s with
  | c :: s' => if isdigit c then skip_digits s' else s
  | [] => []
  end.

Definition digits (s : str) : option str :=
  match s with
  | c :: s' => if isdigit c then Some (skip_digits s') else None
  | [] => None
  end.

(** [re.sub(r"^(Page|page)\s*\d+\s*[-D]\s*(Section|section)\s*\d+\s*\n*", '',
    content)], where D is the en dash: of the two dashes of the class only
    the hyphen is an 8-bit character. *)
Definition drop_page_section (content : str) : str :=
  default content
    (s ← either (lit "Page") (lit "page") content;
     s ← digits (lstrip s);
     s ← literal (lit "-") (lstrip s);
     s ← either (lit "Section") (lit "section") (lstrip s);
     s ← digits (lstrip s);
     Some (lstrip s)).

(** [re.sub(r"^(Section|section)\s*\d+\s*[:\-]\s*", '', content)] *)
Definition drop_section_number (content : str) : str :=
  default content
    (s ← either (lit "Section") (lit "section") content;
     s ← digits (lstrip s);
     s ← either (lit ":") (lit "-") (lstrip s);
     Some (lstrip s)).

(** [first_line, *rest = content.split("\n", 1)] *)
Fixpoint split_first_line (content : str) : str * option str :=
  match content with
  | [] => ([], None)
  | c :: s =>
      if bool_decide (c = NL) then ([], Some s)
      else let '(first_line, rest) := split_first_line s in
           (c :: first_line, rest)
  end.

(** [re.sub(r"```json|```", '', raw)]; [skip] counts the characters of a
    matched fence that are still to be passed over. *)
Fixpoint strip_fences_go (skip : nat) (raw : str) : str :=
  match raw with
  | [] => []
  | c :: s =>
      match skip with
      | S k => strip_fences_go k s
      | O =>
          if startswith raw (lit "```json") then strip_fences_go 6 s
          else if startswith raw (lit "```") then strip_fences_go 2 s
          else c :: strip_fences_go 0 s
      end
  end.

Definition strip_fences (raw : str) : str := strip_fences_go 0 raw.

(** [sorted] on [order_index]: stable, ascending. *)
Fixpoint insert_asc (x : WordSection) (l : list WordSection)
    : list WordSection :=
  match l with
  | [] => [x]
  | y :: l' =>
      if ws_order_index y <? ws_order_index x then y :: insert_asc x l'
      else x :: l
  end.

Definition sort_by_order_index (l : list WordSection) : list WordSection :=
  fold_right insert_asc [] l.

Section WordSections.

(** [int(v)] of a string and of a float (given by its text); [None] when
    it raises.  [expand_answer idx] is the text of the model's answer to
    the request to expand the section at position [idx], [None] when the
    request raises. *)
Variable int_of_text : str -> option Z.
Variable int_of_float : str -> option Z.
Variable expand_answer : Z -> option str.

(** [int(v)] for a value that is true; [None] is the exception. *)
Definition py_int (v : json) : option Z :=
  match v with
  | JInt z => Some z
  | JBool b => Some (if b then 1 else 0)
  | JFloat _ text => int_of_float text
  | JStr s => int_of_text s
  | JNull | JList _ | JDict _ => None
  end.

(** The body of [for s in sections:] in the normalization: what it appends
    to [cleaned_sections]; [None] is an exception, which sends the whole
    function to the placeholders. *)
Definition clean_word_section (topic : str) (s : json)
    : option (list WordSection) :=
  match s with
  | JDict s =>
      let heading := py_or (dict_get s (lit "heading") (JStr [])) (JStr []) in
      order_index ←
        py_int (py_or (dict_get s (lit "order_index") JNull) (JInt 0));
      match py_or (dict_get s (lit "content") (JStr [])) (JStr []) with
      | JStr content =>
          let content :=
            strip (replace [CR] [NL]
                     (replace [CR; NL] [NL]
                        (replace [BACKSLASH; "n"%char] [NL] content))) in
          let content := drop_page_section content in
          let content := drop_section_number content in
          let '(first_line, rest) := split_first_line content in
          repeats ←
            (if bool_decide (strip first_line = strip topic) then Some true
             else match heading with
                  | JStr h => Some (bool_decide (strip first_line = strip h))
                  | _ => None
                  end);
          let content := if repeats : bool then default [] rest else content in
          Some [mkWordSection heading order_index (strip content)]
      | _ => None
      end
  | _ => Some []
  end.

(** [if not s.get("order_index"): s["order_index"] = idx + 1] *)
Definition fix_order_index (ix : Z * WordSection) : WordSection :=
  let '(idx, s) := ix in
  if ws_order_index s =? 0
  then mkWordSection (ws_heading s) (idx + 1) (ws_content s)
  else s.

(** The body of the loop that expands short sections; [idx] is the
    position of [s] in [cleaned_sections]. *)
Definition expand_short (ix : Z * WordSection) : WordSection :=
  let '(idx, s) := ix in
  let content := ws_content s in
  let word_count := len (findall_w content) in
  if word_count <? 40 then
    match expand_answer idx with
    | Some expanded_raw =>
        let expanded := strip (strip_fences expanded_raw) in
        let expanded := strip (replace [BACKSLASH; "n"%char] [NL] expanded) in
        if word_count <? len (findall_w expanded)
        then mkWordSection (ws_heading s) (ws_order_index s) expanded
        else s
    | None => s
    end
  else s.

(** What the function returns, given [first], the outcome of its first
    [try] block: [Some sections] when the block leaves a list of sections
    (the parsed answer of the model, or what the plain-text extraction
    makes of it), [None] when it raises. *)
Definition generate_word_sections_with_gemini (topic : str)
    (section_headings : list str) (num_pages : Z)
    (sections_per_page : option Z) (first : option (list json))
    : list WordSection :=
  let target_sections :=
    target_sections_of section_headings num_pages sections_per_page in
  match first with
  | None => _fallback_generate_sections topic section_headings target_sections
  | Some sections =>
      match mapM (clean_word_section topic) sections with
      | None =>
          _fallback_generate_sections topic section_headings target_sections
      | Some cleaned =>
          let cleaned_sections := concat cleaned in
          let cleaned_sections :=
            map fix_order_index (enumerate cleaned_sections) in
          let cleaned_sections := sort_by_order_index cleaned_sections in
          let final_sections := map expand_short (enumerate cleaned_sections) in
          let final_sections :=
            if len final_sections <? target_sections then
              let missing := target_sections - len final_sections in
              let extra := _fallback_generate_sections topic [] missing in
              let current_len := len final_sections in
              final_sections ++
              map (fun ie : Z * WordSection =>
                     mkWordSection (ws_heading (snd ie))
                       (current_len + fst ie + 1) (ws_content (snd ie)))
                (enumerate extra)
            else final_sections in
          if target_sections <? len final_sections
          then slice_to final_sections target_sections
          else final_sections
      end
  end.

End WordSections.

(** ** What the presentation endpoints do with the slides *)

(** [re.sub(r"\n{3,}", "\n\n", val)]: a maximal run of three or more
    newlines becomes two.  [run] counts the newlines of the run being
    read. *)
Fixpoint squeeze_newlines_go (run : nat) (s : str) : str :=
  match s with
  | [] => replicate (Nat.min run 2) NL
  | c :: s' =>
      if bool_decide (c = NL) then squeeze_newlines_go (S run) s'
      else replicate (Nat.min run 2) NL ++ c :: squeeze_newlines_go 0 s'
  end.

Definition squeeze_newlines (val : str) : str := squeeze_newlines_go 0 val.

(** [d.pop(key, None)], for its effect on [d]. *)
Definition dict_pop (d : dict) (key : str) : dict :=
  filter (fun kv : str * json => kv.1 <> key) d.

(** [prompt_check and text.lower().startswith(prompt_check)] *)
Definition echoes (prompt_check text : str) : bool :=
  nonempty prompt_check && startswith (lower text) prompt_check.

Definition TEXT_KEYS : list str :=
  [lit "title"; lit "description"; lit "content"; lit "text"; lit "caption";
   lit "summary"].

Definition HAS_TEXT_KEYS : list str :=
  [lit "title"; lit "description"; lit "content"; lit "text"; lit "bullets";
   lit "caption"].

(** The body of [for k in text_keys:]. *)
Definition clean_text_key (prompt_check : str) (slide_copy : dict) (k : str)
    : dict :=
  match dict_lookup k slide_copy with
  | Some (JStr v) =>
      let val := strip v in
      if is_empty val then dict_pop slide_copy k
      else if echoes prompt_check val then dict_pop slide_copy k
      else dict_set slide_copy k (JStr (squeeze_newlines val))
  | _ => slide_copy
  end.

(** The body of [for b in slide_copy["bullets"]:]: what it appends to
    [filtered]. *)
Definition clean_bullet (prompt_check : str) (b : json) : list json :=
  match b with
  | JStr b =>
      let b_text := strip b in
      if is_empty b_text then []
      else if echoes prompt_check b_text then []
      else [JStr b_text]
  | _ => [b]
  end.

Definition clean_bullets (prompt_check : str) (slide_copy : dict) : dict :=
  match dict_lookup (lit "bullets") slide_copy with
  | Some (JList bullets) =>
      dict_set slide_copy (lit "bullets")
        (JList (concat (map (clean_bullet prompt_check) bullets)))
  | _ => slide_copy
  end.

(** The slide made from a text that is not a dictionary. *)
Definition text_bullet_slide (s_text : str) : dict :=
  [(lit "layout", JStr (lit "bullet")); (lit "title", JStr []);
   (lit "bullets", JList [JStr s_text])].

Section SlideConsumers.

Variable py_repr : json -> str.

(** The two tests of the [has_text] loop on one value. *)
Definition value_has_text (val : json) : bool :=
  match val with
  | JStr v => nonempty (strip v)
  | JList items => existsb (fun x => nonempty (strip (py_str py_repr x))) items
  | _ => false
  end.

Definition has_text (slide_copy : dict) : bool :=
  existsb (fun k => value_has_text (dict_get slide_copy k JNull))
    HAS_TEXT_KEYS.

(** The body of [for slide in content:]: what it appends to [cleaned]. *)
Definition sanitize_slide (prompt_check : str) (slide : json) : list json :=
  match slide with
  | JStr slide =>
      let s_text := strip slide in
      if is_empty s_text then []
      else if echoes prompt_check s_text then []
      else [JDict (text_bullet_slide s_text)]
  | JDict slide =>
      let slide_copy := fold_left (clean_text_key prompt_check) TEXT_KEYS slide in
      let slide_copy := clean_bullets prompt_check slide_copy in
      if has_text slide_copy then [JDict slide_copy] else []
  | _ =>
      let s := py_str py_repr slide in
      if nonempty (strip s) then
        if echoes prompt_check (strip s) then []
        else [JDict (text_bullet_slide (strip s))]
      else []
  end.

(** [(prompt_norm[:120]).strip() if prompt_norm else ''] *)
Definition prompt_check_of (original_prompt : option str) : str :=
  let prompt_norm := lower (strip (default [] original_prompt)) in
  if nonempty prompt_norm then strip (slice_to prompt_norm 120) else [].

(** [content] is [None] or a list, as the annotation of the function says. *)
Definition _sanitize_generated_content (content : option (list json))
    (original_prompt : option str) : list json :=
  if nonempty (default [] content) then
    let prompt_check := prompt_check_of original_prompt in
    concat (map (sanitize_slide prompt_check) (default [] content))
  else [].

(** The image branch of [build_pptx]: the location in [image_url], with
    blanks removed and the brackets and punctuation around it stripped,
    and the way [_get_tmp_image_path] reads it. *)
Definition build_pptx_image (slide_data : dict) : image_source :=
  let img_url := dict_get slide_data (lit "image_url") JNull in
  if truthy img_url then
    let img_url := filter (fun c => negb (isspace c)) (py_str py_repr img_url) in
    let img_url := strip_chars (lit "()[]{}.,;") img_url in
    if nonempty img_url then
      if startswith img_url (lit "http") then RemoteUrl img_url
      else LocalFile img_url
    else NoImage
  else NoImage.

End SlideConsumers.

(** ** Definitions used to state and prove the properties *)

(** The parts a loop of the splitter appends: [g i idx] is the part made in
    round [i] from position [idx], [w i] the number of items it takes. *)
Fixpoint emit {X} (g : Z -> Z -> X) (w : Z -> Z) (l : list Z) (idx : Z)
    : list X :=
  match l with
  | [] => []
  | i :: l' => g i idx :: emit g w l' (idx + w i)
  end.

Fixpoint advance (w : Z -> Z) (l : list Z) (idx : Z) : Z :=
  match l with
  | [] => idx
  | i :: l' => advance w l' (idx + w i)
  end.

(** The paragraphs [split_section_into_parts] finds in a section. *)
Definition section_paragraphs (section : SectionDict) : list str :=
  let heading := get_str (d_heading section) in
  let raw := get_str (d_content section) in
  map strip (filter (fun p => nonempty (strip p))
               (split NL (_clean_section_content [] heading raw))).

(** [enumerate] from a given first index, by recursion on the list. *)
Fixpoint enum_from {A} (start : Z) (l : list A) : list (Z * A) :=
  match l with
  | [] => []
  | x :: l' => (start, x) :: enum_from (start + 1) l'
  end.

(** The number of pages that hold no section. *)
Definition count_empty (pages_list : list page) : nat :=
  length (filter (fun pg : page => pg = []) pages_list).

(** The last loop of the distributor: [pages[idx + 1] = page]. *)
Definition pages_of_list (pages_list : list page) (pages : gmap Z page)
    : gmap Z page :=
  fold_left (fun pages ip => <[fst ip + 1 := snd ip]> pages)
    (enumerate pages_list) pages.

(** [{i: [] for i in range(1, num_pages + 1)}] *)
Definition empty_pages (num_pages : Z) : gmap Z page :=
  list_to_map ((fun i => (i, [])) <$> range 1 (num_pages + 1)).

(** Where page [p] of the balanced distribution ends in the input. *)
Definition page_end (base rem p : Z) : Z := p * base + Z.min p rem.

(** The three list passes of the normalizer, on lines already stripped. *)
Definition clean_lines (doc_title_low heading_low : str) (lines : list str)
    : list str :=
  trim_trailing_blank
    (trim_leading_blank
       (collapse_blank_lines
          (strip_meta_lines doc_title_low heading_low lines))).

(** The blank-line collapse as a recursion on the lines; [prev_blank] tells
    whether the line appended last is empty. *)
Fixpoint collapse_rec (prev_blank : bool) (lines : list str) : list str :=
  match lines with
  | [] => []
  | l :: lines' =>
      if is_empty l then
        if prev_blank then collapse_rec true lines'
        else [] :: collapse_rec true lines'
      else l :: collapse_rec false lines'
  end.

(** No two empty lines in a row ([prev_blank]: an empty line comes before). *)
Fixpoint no_double_blank (prev_blank : bool) (lines : list str) : Prop :=
  match lines with
  | [] => True
  | l :: lines' =>
      if is_empty l then prev_blank = false /\ no_double_blank true lines'
      else no_double_blank false lines'
  end.

(** A string that does not start with a blank character. *)
Definition starts_clean (s : str) : bool :=
  match s with
  | c :: _ => negb (isspace c)
  | [] => false
  end.

(** A string with no blank character at either end: what [strip] returns. *)
Definition tidy (s : str) : Prop :=
  s = [] \/ (starts_clean s = true /\ starts_clean (rev s) = true).

(** The escaped line break, a backslash and the letter n. *)
Definition ESCAPED_NL : str := [BACKSLASH; "n"%char].

(** A line as the normalizer leaves it: no line break of any convention
    inside, no blank at the ends. *)
Definition line_ok (l : str) : Prop :=
  (NL ∉ l) /\ (CR ∉ l) /\ contains ESCAPED_NL l = false /\ tidy l.

(** The loop of the normalizer has come to rest on these lines: there is
    none, or the first one is not blank and, if it is a meta line, nothing
    but blank lines follows. *)
Definition settled (doc_title_low heading_low : str) (lines : list str)
    : Prop :=
  match lines with
  | [] => True
  | l :: rest =>
      l <> [] /\
      (is_meta_line doc_title_low heading_low (lower l) = true ->
       any_nonblank rest = false)
  end.

(** Lines on which the three list passes change nothing. *)
Definition fixed_lines (doc_title_low heading_low : str) (c : list str)
    : Prop :=
  Forall line_ok c /\ settled doc_title_low heading_low c /\
  no_double_blank false c /\ last c <> Some [].




(** The contents of the parts. *)
Definition contents (out : list SectionDict) : list str :=
  map (fun d => get_str (d_content d)) out.

(** An item of the answer whose title, if it has one, is a string. *)
Definition title_is_text (item : json) : Prop :=
  match item with
  | JDict d => is_str (dict_get d (lit "title") (JStr [])) = true
  | _ => True
  end.

(** A normalized slide whose title is a string. *)
Definition slide_title_is_text (s : dict) : Prop :=
  is_str (dict_get s (lit "title") (JStr [])) = true.

(** [w] occurs in [s], as a run of consecutive characters. *)
Definition occurs_in (w s : str) : Prop := exists a b, s = a ++ w ++ b.


(** A sentence of a caption: the piece and its period. *)
Definition with_period (p : str) : str := p ++ lit ".".





(** The lines of the body of a placeholder section. *)
Definition FALLBACK_LINES : list str :=
  [FALLBACK_FIRST_LINE; []; lit "Key points:"; lit "- Outline 1";
   lit "- Outline 2"; lit "- Practical example or implication."].

(** [key in d] *)
Definition has_key (key : str) (d : dict) : bool :=
  match dict_lookup key d with Some _ => true | None => false end.

(** A slide with a known layout and the entries that go with it;
    [with_url] asks an image slide for its [image_url] too. *)
Definition slide_shape (with_url : bool) (s : dict) : bool :=
  match dict_lookup (lit "layout") s with
  | Some (JStr layout) =>
      has_key (lit "title") s &&
      (if bool_decide (layout = LAYOUT_IMAGE) then
         has_key (lit "caption") s
         && (negb with_url || has_key (lit "image_url") s)
       else if bool_decide (layout = LAYOUT_TITLE) then true
       else if bool_decide (layout = LAYOUT_BULLET)
            then has_key (lit "bullets") s
       else bool_decide (layout = LAYOUT_TWO_COLUMN)
            && has_key (lit "left") s && has_key (lit "right") s)
  | _ => false
  end.

(** Three newlines in a row. *)
Definition NL3 : str := [NL; NL; NL].

(** A text field as the prompt-echo filter leaves it. *)
Definition clean_field (prompt_check v : str) : Prop :=
  v <> [] /\ strip v = v /\ contains NL3 v = false /\
  ((NL ∉ prompt_check) -> echoes prompt_check v = false).



(** * Properties *)

(** ** Loops that append one part per round *)

Lemma fold_left_emit {X} (f : list X * Z -> Z -> list X * Z) g w :
  (forall out idx i, f (out, idx) i = (out ++ [g i idx], idx + w i)) ->
  forall l out idx,
    fold_left f l (out, idx) = (out ++ emit g w l idx, advance w l idx).
Proof.
  intros Hf l. induction l as [|i l IH]; intros out idx; simpl.
  - by rewrite app_nil_r.
  - rewrite Hf, IH. by rewrite <- app_assoc.
Qed.

Lemma length_emit {X} (g : Z -> Z -> X) w l idx :
  length (emit g w l idx) = length l.
Proof. revert idx. induction l; intros; simpl; auto. Qed.

Lemma lookup_emit_heading g w heading l idx :
  (forall i j, d_heading (g i j) = Some (part_heading heading i)) ->
  map d_heading (emit g w l idx) = map (fun i => Some (part_heading heading i)) l.
Proof.
  intros Hg. revert idx. induction l as [|i l IH]; intros idx; simpl; [done|].
  by rewrite Hg, IH.
Qed.

Lemma length_range a b : length (range a b) = Z.to_nat (b - a).
Proof. unfold range. by rewrite length_seqZ. Qed.

Lemma set_last_content_Some f out :
  out <> [] ->
  exists out', set_last_content f out = Some out' /\
    map d_heading out' = map d_heading out /\ length out' = length out.
Proof.
  intros Hne. unfold set_last_content.
  destruct (rev out) as [|d before] eqn:Hrev.
  - apply (f_equal (@rev _)) in Hrev. rewrite rev_involutive in Hrev. done.
  - eexists. split; [done|].
    apply (f_equal (@rev _)) in Hrev. rewrite rev_involutive in Hrev.
    subst out. simpl. rewrite !map_app, !length_app. simpl. done.
Qed.

(** ** The shape of what the splitter returns *)

Lemma split_section_into_parts_shape section parts :
  1 <= parts ->
  exists out, split_section_into_parts section parts = Some out /\
    length out = Z.to_nat parts /\
    map d_heading out =
      if is_empty (section_paragraphs section)
      then map (fun _ => Some (get_str (d_heading section))) (range 0 parts)
      else map (fun i => Some (part_heading (get_str (d_heading section)) i))
             (range 0 parts).
Proof.
  intros Hparts. unfold split_section_into_parts.
  change (map strip (filter _ (split NL _))) with (section_paragraphs section).
  set (heading := get_str (d_heading section)).
  set (paragraphs := section_paragraphs section).
  destruct (is_empty paragraphs) eqn:Hempty.
  { eexists. split; [done|]. rewrite length_map, length_range, map_map.
    split; [f_equal; lia | done]. }
  destruct (len paragraphs <? parts) eqn:Hlt.
  - set (sentences := if is_empty (split_sentences _) then _ else _).
    set (chunk_size := Z.max 1 _).
    rewrite (fold_left_emit _
      (fun i idx => part_dict (part_heading heading i)
         (strip (join (lit " ") (slice sentences idx (idx + chunk_size)))))
      (fun _ => chunk_size)) by done.
    simpl.
    set (parts_out := emit _ _ _ _).
    assert (Hlen : length parts_out = Z.to_nat parts).
    { unfold parts_out. rewrite length_emit, length_range. f_equal; lia. }
    assert (Hhead : map d_heading parts_out =
              map (fun i => Some (part_heading heading i)) (range 0 parts)).
    { unfold parts_out. by apply lookup_emit_heading. }
    destruct (nonempty (slice_from sentences _)).
    + match goal with
      | |- context [set_last_content ?f ?o] =>
          destruct (set_last_content_Some f o) as (out' & -> & Hh & Hl)
      end.
      { intros E. rewrite E in Hlen. simpl in Hlen. lia. }
      eexists. split; [done|]. rewrite Hl, Hh. done.
    + eexists. split; [done|]. done.
  - assert ((parts =? 0) = false) as -> by lia.
    set (base := len paragraphs / parts). set (rem := len paragraphs mod parts).
    rewrite (fold_left_emit _
      (fun i ptr => part_dict (part_heading heading i)
         (strip (join [NL] (slice paragraphs ptr
            (ptr + (base + (if i <? rem then 1 else 0)))))))
      (fun i => base + (if i <? rem then 1 else 0))) by done.
    simpl. eexists. split; [done|].
    rewrite length_emit, length_range. split; [f_equal; lia|].
    by apply lookup_emit_heading.
Qed.

(** ** Enumerations *)

Lemma enumerate_enum_from {A} (l : list A) : enumerate l = enum_from 0 l.
Proof.
  unfold enumerate. generalize 0. induction l as [|x l IH]; intros start.
  - by destruct (seqZ _ _).
  - unfold len. rewrite seqZ_cons by (simpl; lia). simpl.
    f_equal. replace (Z.pred _) with (len l) by (unfold len; lia).
    by rewrite IH.
Qed.

Lemma elem_of_enum_from {A} (l : list A) start i x :
  (i, x) ∈ enum_from start l ->
  start <= i /\ l !! Z.to_nat (i - start) = Some x.
Proof.
  revert start. induction l as [|y l IH]; intros start; simpl.
  - by intros ?%elem_of_nil.
  - intros [E|Hin]%elem_of_cons.
    + injection E as -> ->. split; [lia|].
      by replace (Z.to_nat (start - start)) with 0%nat by lia.
    + apply IH in Hin as [? Hl]. split; [lia|].
      replace (Z.to_nat (i - start)) with (S (Z.to_nat (i - (start + 1))))
        by lia. done.
Qed.

Lemma lookup_enum_from {A} (l : list A) start k x :
  l !! k = Some x -> (start + Z.of_nat k, x) ∈ enum_from start l.
Proof.
  revert start k. induction l as [|y l IH]; intros start [|k] Hk;
    simplify_eq/=.
  - replace (start + Z.of_nat 0) with start by lia. left.
  - right. replace (start + Z.of_nat (S k))
      with ((start + 1) + Z.of_nat k) by lia. by apply IH.
Qed.

Lemma elem_of_enumerate {A} (l : list A) i x :
  (i, x) ∈ enumerate l -> 0 <= i /\ l !! Z.to_nat i = Some x.
Proof.
  rewrite enumerate_enum_from. intros [? Hl]%elem_of_enum_from.
  by rewrite Z.sub_0_r in Hl.
Qed.

(** ** Loops that may raise *)

Lemma fold_opt_inv {S X} (Inv : S -> Prop) (f : S -> X -> option S) l s :
  Inv s ->
  (forall s x, Inv s -> x ∈ l -> exists s', f s x = Some s' /\ Inv s') ->
  exists s', fold_opt f l s = Some s' /\ Inv s'.
Proof.
  revert s. induction l as [|x l IH]; intros s Hs Hf; simpl.
  - eauto.
  - destruct (Hf s x Hs) as (s' & -> & Hs'); [by left|]. simpl.
    apply IH; [done|]. intros s0 x0 ? ?. apply Hf; [done|by right].
Qed.

Lemma append_at_Some pages_list i x :
  0 <= i < len pages_list ->
  append_at pages_list i x
  = Some (alter (fun pg => pg ++ [x]) (Z.to_nat i) pages_list).
Proof.
  intros [? ?]. unfold append_at.
  assert ((0 <=? i) = true) as -> by lia.
  assert ((i <? len pages_list) = true) as -> by lia. done.
Qed.

Lemma alter_as_insert {A} (f : A -> A) (l : list A) i x :
  l !! i = Some x -> alter f i l = <[i := f x]> l.
Proof.
  revert i. induction l as [|y l IH]; intros [|i] Hl; simplify_eq/=; [done|].
  f_equal. by apply IH.
Qed.

(** ** Counting the empty pages *)

Lemma count_empty_app l1 l2 :
  count_empty (l1 ++ l2) = (count_empty l1 + count_empty l2)%nat.
Proof. unfold count_empty. by rewrite filter_app, length_app. Qed.

Lemma count_empty_insert_same (pages_list : list page) i pg pg' :
  pages_list !! i = Some pg -> pg <> [] -> pg' <> [] ->
  count_empty (<[i := pg']> pages_list) = count_empty pages_list.
Proof.
  intros Hl Hpg Hpg'.
  rewrite insert_take_drop by (by eapply lookup_lt_Some).
  rewrite <- (take_drop_middle _ _ _ Hl) at 3.
  rewrite !count_empty_app. f_equal.
  unfold count_empty. by rewrite !filter_cons_False.
Qed.

Lemma count_empty_insert_fill (pages_list : list page) i pg' :
  pages_list !! i = Some [] -> pg' <> [] ->
  S (count_empty (<[i := pg']> pages_list)) = count_empty pages_list.
Proof.
  intros Hl Hpg'.
  rewrite insert_take_drop by (by eapply lookup_lt_Some).
  rewrite <- (take_drop_middle _ _ _ Hl) at 3.
  rewrite !count_empty_app.
  unfold count_empty at 2 4.
  rewrite filter_cons_False, filter_cons_True by done. simpl. lia.
Qed.

Lemma count_empty_filter (pages_list : list page) :
  (count_empty pages_list
   + length (filter (fun pg : page => nonempty pg) pages_list))%nat
  = length pages_list.
Proof.
  unfold count_empty. induction pages_list as [|pg l IH]; [done|].
  destruct pg.
  - rewrite filter_cons_True by done. rewrite filter_cons_False by (simpl; tauto).
    simpl. lia.
  - rewrite filter_cons_False by done. rewrite filter_cons_True by done.
    simpl. lia.
Qed.

Lemma count_empty_0 (pages_list : list page) :
  count_empty pages_list = 0%nat <-> forall pg, pg ∈ pages_list -> pg <> [].
Proof.
  unfold count_empty. split.
  - intros H pg Hin ->.
    assert (Hf : [] ∈ filter (fun pg : page => pg = []) pages_list)
      by (by apply list_elem_of_filter).
    destruct (filter _ pages_list); [by apply elem_of_nil in Hf|done].
  - intros H. destruct (filter _ pages_list) as [|pg l] eqn:E; [done|].
    assert (Hin : pg ∈ filter (fun pg : page => pg = []) pages_list)
      by (rewrite E; left).
    apply list_elem_of_filter in Hin as [-> Hin]. by apply H in Hin.
Qed.

(** ** The two scans of a round *)

Lemma word_count_nonneg s : 0 <= word_count s.
Proof. unfold word_count, len. lia. Qed.

Lemma page_wc_nonneg pg : 0 <= page_wc pg.
Proof.
  induction pg as [|s pg IH]; simpl; [lia|].
  pose proof (word_count_nonneg s). lia.
Qed.

Lemma longest_from_Some l i m :
  exists j, fst (fold_left longest_step l (Some i, m)) = Some j.
Proof.
  revert i m. induction l as [|[k pg] l IH]; intros i m; simpl; [eauto|].
  destruct (is_empty pg); [apply IH|].
  destruct (m <? page_wc pg); apply IH.
Qed.

Lemma longest_Some l o m i :
  fst (fold_left longest_step l (o, m)) = Some i ->
  o = Some i \/ exists pg, (i, pg) ∈ l /\ pg <> [].
Proof.
  revert o m. induction l as [|[k pg] l IH]; intros o m; simpl; [auto|].
  destruct (is_empty pg) eqn:Hpg.
  { intros [?|(pg' & ? & ?)]%IH; [auto|]. right. exists pg'. split; [by right|done]. }
  destruct (m <? page_wc pg).
  - intros [E|(pg' & ? & ?)]%IH.
    + injection E as ->. right. exists pg. split; [left|]. by destruct pg.
    + right. exists pg'. split; [by right|done].
  - intros [?|(pg' & ? & ?)]%IH; [auto|]. right. exists pg'. split; [by right|done].
Qed.

Lemma longest_None l o m :
  fst (fold_left longest_step l (o, m)) = None ->
  forall i pg, (i, pg) ∈ l -> pg = [] \/ page_wc pg <= m.
Proof.
  revert o m. induction l as [|[k pg] l IH]; intros o m; simpl.
  { intros _ i pg' ?%elem_of_nil. done. }
  destruct (is_empty pg) eqn:Hpg.
  { intros H i pg' [E|Hin]%elem_of_cons.
    - injection E as -> ->. left. by destruct pg.
    - by eapply IH. }
  destruct (m <? page_wc pg) eqn:Hlt.
  - intros H. destruct (longest_from_Some l k (page_wc pg)) as [j Hj]. congruence.
  - intros H i pg' [E|Hin]%elem_of_cons.
    + injection E as -> ->. right. lia.
    + by eapply IH.
Qed.

Lemma find_longest_Some pages_list i :
  find_longest pages_list = Some i ->
  0 <= i /\ exists s rest, pages_list !! Z.to_nat i = Some (s :: rest).
Proof.
  unfold find_longest. intros [?|(pg & Hin & Hne)]%longest_Some; [done|].
  apply elem_of_enumerate in Hin as [? Hl]. split; [done|].
  destruct pg as [|s rest]; [done|]. eauto.
Qed.

Lemma find_longest_None pages_list :
  find_longest pages_list = None ->
  forall pg, pg ∈ pages_list -> page_wc pg = 0.
Proof.
  unfold find_longest. intros H pg Hin.
  apply list_elem_of_lookup in Hin as [k Hk].
  assert (Hin : (Z.of_nat k, pg) ∈ enumerate pages_list).
  { rewrite enumerate_enum_from.
    by apply (lookup_enum_from pages_list 0). }
  destruct (longest_None _ _ _ H _ _ Hin) as [->|?]; [done|].
  pose proof (page_wc_nonneg pg). lia.
Qed.

Lemma find_next_empty_Some pages_list j :
  find_next_empty pages_list = Some j ->
  0 <= j /\ pages_list !! Z.to_nat j = Some [].
Proof.
  unfold find_next_empty.
  destruct (list_find _ pages_list) as [[k pg]|] eqn:Hfind; [|done].
  apply list_find_Some in Hfind as (Hk & -> & _).
  intros [= <-]. simpl. rewrite Nat2Z.id. split; [lia|done].
Qed.

Lemma find_next_empty_None pages_list :
  find_next_empty pages_list = None -> count_empty pages_list = 0%nat.
Proof.
  unfold find_next_empty.
  destruct (list_find _ pages_list) as [[k pg]|] eqn:Hfind; [done|].
  intros _. apply list_find_None in Hfind. apply count_empty_0.
  intros pg Hin. by eapply Forall_forall in Hfind.
Qed.

(** ** One round, and the whole loop, of the fill *)

Lemma fill_round_ok pages_list :
  exists r, fill_round pages_list = Some r /\
    match r with
    | Continue pages_list' =>
        length pages_list' = length pages_list /\
        S (count_empty pages_list') = count_empty pages_list
    | Break pages_list' =>
        length pages_list' = length pages_list /\
        (count_empty pages_list' = 0%nat \/
         forall pg, pg ∈ pages_list' -> page_wc pg = 0)
    end.
Proof.
  unfold fill_round. destruct (find_longest pages_list) as [i|] eqn:Hlong.
  2:{ eexists. split; [done|]. split; [done|]. right.
      by apply find_longest_None. }
  apply find_longest_Some in Hlong as (Hi & s & rest & Hl). rewrite Hl. simpl.
  destruct (split_section_into_parts_shape s 2) as (parts & -> & Hlen & _);
    [lia|]. simpl.
  destruct parts as [|part0 [|part1 [|? ?]]]; simplify_eq/=.
  pose proof (lookup_lt_Some _ _ _ Hl) as Hlt.
  rewrite append_at_Some by (unfold len; rewrite length_insert; lia). simpl.
  rewrite (alter_as_insert _ _ _ rest) by (by apply list_lookup_insert_eq).
  rewrite list_insert_insert_eq.
  set (pl2 := <[Z.to_nat i := rest ++ [part0]]> pages_list).
  assert (Hlen2 : length pl2 = length pages_list) by apply length_insert.
  assert (Hcount2 : count_empty pl2 = count_empty pages_list).
  { eapply count_empty_insert_same; [done|done|]. by destruct rest. }
  destruct (find_next_empty pl2) as [j|] eqn:Hnext.
  2:{ eexists. split; [done|]. split; [done|]. left.
      by apply find_next_empty_None. }
  apply find_next_empty_Some in Hnext as (Hj & Hlj). simpl.
  pose proof (lookup_lt_Some _ _ _ Hlj) as Hltj.
  rewrite append_at_Some by (unfold len; lia). simpl.
  eexists. split; [done|]. cbv beta iota. rewrite length_alter. split; [done|].
  rewrite (alter_as_insert _ _ _ []) by done. rewrite <- Hcount2.
  by apply count_empty_insert_fill.
Qed.

Lemma fill_loop_ok empty_slots pages_list :
  (count_empty pages_list <= empty_slots)%nat ->
  exists pages_list', fill_loop empty_slots pages_list = Some pages_list' /\
    length pages_list' = length pages_list /\
    (count_empty pages_list' = 0%nat \/
     forall pg, pg ∈ pages_list' -> page_wc pg = 0).
Proof.
  revert pages_list.
  induction empty_slots as [|n IH]; intros pages_list Hcount; simpl.
  { eexists. split; [done|]. split; [done|]. left. lia. }
  destruct (fill_round_ok pages_list) as ([pl'|pl'] & -> & Hlen & Hc); simpl.
  - destruct (IH pl') as (pl'' & -> & Hlen' & Hc'); [lia|].
    eexists. split; [done|]. split; [congruence|done].
  - eexists. split; [done|]. done.
Qed.

(** ** The page dictionary *)

Lemma lookup_list_to_map_empty (l : list Z) k :
  (list_to_map ((fun i => (i, [])) <$> l) : gmap Z page) !! k
  = if decide (k ∈ l) then Some [] else None.
Proof.
  induction l as [|i l IH].
  - done.
  - change (list_to_map ((fun i => (i, [])) <$> i :: l) : gmap Z page)
      with (<[i := []]> (list_to_map ((fun i => (i, [])) <$> l) : gmap Z page)).
    rewrite lookup_insert. destruct (decide (i = k)) as [->|Hne].
    + rewrite decide_True; [done|left].
    + rewrite IH. destruct (decide (k ∈ l)).
      * rewrite decide_True; [done|by right].
      * rewrite decide_False; [done|]. intros [?|?]%elem_of_cons; congruence.
Qed.

Lemma elem_of_range a b k : k ∈ range a b <-> a <= k < b.
Proof. unfold range. rewrite elem_of_seqZ. lia. Qed.

Lemma lookup_empty_pages num_pages k :
  empty_pages num_pages !! k
  = if decide (1 <= k <= num_pages) then Some [] else None.
Proof.
  unfold empty_pages. rewrite lookup_list_to_map_empty.
  destruct (decide (k ∈ _)) as [Hin|Hin]; rewrite elem_of_range in Hin.
  - rewrite decide_True; [done|lia].
  - rewrite decide_False; [done|lia].
Qed.

Lemma lookup_fold_enum_from (l : list page) start (pages : gmap Z page) k :
  fold_left (fun pages ip => <[fst ip + 1 := snd ip]> pages)
    (enum_from start l) pages !! k
  = if decide (start < k <= start + len l)
    then l !! Z.to_nat (k - start - 1) else pages !! k.
Proof.
  revert start pages. induction l as [|pg l IH]; intros start pages; simpl.
  - rewrite decide_False; [done|]. unfold len. simpl. lia.
  - rewrite IH. unfold len. simpl length.
    destruct (decide (start + 1 < k <= start + 1 + Z.of_nat (length l))).
    + rewrite decide_True by lia.
      replace (Z.to_nat (k - start - 1))
        with (S (Z.to_nat (k - (start + 1) - 1))) by lia. done.
    + rewrite lookup_insert. destruct (decide (start + 1 = k)) as [<-|].
      * rewrite decide_True by lia.
        by replace (Z.to_nat (start + 1 - start - 1)) with 0%nat by lia.
      * rewrite decide_False by lia. done.
Qed.

Lemma lookup_pages_of_list (pages_list : list page) pages k :
  pages_of_list pages_list pages !! k
  = if decide (1 <= k <= len pages_list)
    then pages_list !! Z.to_nat (k - 1) else pages !! k.
Proof.
  unfold pages_of_list. rewrite enumerate_enum_from, lookup_fold_enum_from.
  destruct (decide (0 < k <= 0 + len pages_list)).
  - rewrite decide_True by lia. f_equal. lia.
  - rewrite decide_False by lia. done.
Qed.

(** ** Fewer sections than pages *)

Lemma distribute_sparse sections num_pages :
  0 < len sections < num_pages ->
  exists pages_list,
    distribute_sections_across_pages sections num_pages
    = Some (pages_of_list pages_list (empty_pages num_pages)) /\
    len pages_list = num_pages /\
    (count_empty pages_list = 0%nat \/
     forall pg, pg ∈ pages_list -> page_wc pg = 0).
Proof.
  intros [Hpos Hlt]. unfold distribute_sections_across_pages.
  assert ((num_pages <=? 0) = false) as -> by lia.
  assert ((len sections =? 0) = false) as -> by lia.
  assert ((num_pages <=? len sections) = false) as -> by lia.
  destruct (fold_opt_inv (fun pl : list page => length pl = Z.to_nat num_pages)
              (seed_step num_pages) (enumerate (sorted_desc sections))
              ((fun _ => []) <$> range 0 num_pages))
    as (pl & -> & Hlen).
  { rewrite length_fmap, length_range. f_equal. lia. }
  { intros pl [i s] Hpl [Hi _]%elem_of_enumerate. unfold seed_step.
    destruct (i <? num_pages) eqn:Hin.
    - rewrite append_at_Some by (unfold len; lia).
      eexists. split; [done|]. by rewrite length_alter.
    - rewrite append_at_Some by (unfold len; lia).
      eexists. split; [done|]. by rewrite length_alter. }
  simpl.
  destruct (fill_loop_ok
    (Z.to_nat (num_pages - len (filter (fun pg : page => nonempty pg) pl))) pl)
    as (pl' & -> & Hlen' & Hc).
  { pose proof (count_empty_filter pl). unfold len. lia. }
  simpl. exists pl'. split; [done|]. split; [unfold len; lia|done].
Qed.

(** ** At least as many sections as pages *)

Lemma page_end_step base rem p :
  0 <= rem -> 0 <= p ->
  page_end base rem p + (base + (if p + 1 <=? rem then 1 else 0))
  = page_end base rem (p + 1).
Proof.
  intros. unfold page_end. rewrite Z.mul_add_distr_r.
  destruct (p + 1 <=? rem) eqn:E; lia.
Qed.

Lemma balanced_fold sections base rem (pages : gmap Z page) (k : nat) :
  0 <= rem ->
  exists pages',
    fold_left (balanced_step sections base rem) (seqZ 1 (Z.of_nat k)) (pages, 0)
    = (pages', page_end base rem (Z.of_nat k)) /\
    forall p, pages' !! p =
      if decide (1 <= p <= Z.of_nat k)
      then Some (slice sections (page_end base rem (p - 1)) (page_end base rem p))
      else pages !! p.
Proof.
  intros Hrem. induction k as [|k (pages' & IH & Hlook)].
  - exists pages. split.
    { simpl. unfold page_end. f_equal. lia. }
    intros p. rewrite decide_False by lia. done.
  - rewrite seqZ_S, fold_left_app, IH. simpl.
    replace (1 + Z.of_nat k) with (Z.of_nat k + 1) by lia.
    rewrite page_end_step by lia.
    replace (Z.of_nat k + 1) with (Z.of_nat (S k)) by lia.
    eexists. split; [done|]. intros p. rewrite lookup_insert.
    destruct (decide (Z.of_nat (S k) = p)) as [<-|Hne].
    + rewrite decide_True by lia.
      by replace (Z.of_nat (S k) - 1) with (Z.of_nat k) by lia.
    + rewrite Hlook. destruct (decide (1 <= p <= Z.of_nat k)).
      * rewrite decide_True by lia. done.
      * rewrite decide_False by lia. done.
Qed.

Lemma page_end_mono base rem p :
  0 <= base -> 0 <= rem -> 0 <= p ->
  0 <= page_end base rem p <= page_end base rem (p + 1).
Proof. intros. unfold page_end. nia. Qed.

Lemma concat_balanced {A} (sections : list A) base rem (k : nat) :
  0 <= base -> 0 <= rem ->
  concat (map (fun p => slice sections (page_end base rem (p - 1))
                          (page_end base rem p))
            (seqZ 1 (Z.of_nat k)))
  = take (Z.to_nat (page_end base rem (Z.of_nat k))) sections.
Proof.
  intros Hbase Hrem. induction k as [|k IH].
  - replace (page_end base rem (Z.of_nat 0)) with 0 by (unfold page_end; lia).
    done.
  - rewrite seqZ_S, map_app, concat_app, IH. simpl. rewrite app_nil_r.
    replace (1 + Z.of_nat k - 1) with (Z.of_nat k) by lia.
    replace (1 + Z.of_nat k) with (Z.of_nat k + 1) by lia.
    replace (Z.of_nat (S k)) with (Z.of_nat k + 1) by lia.
    pose proof (page_end_mono base rem (Z.of_nat k) Hbase Hrem ltac:(lia)).
    unfold slice. rewrite take_take_drop. f_equal. lia.
Qed.

Lemma page_end_total total num_pages :
  1 <= num_pages -> 0 <= total ->
  page_end (total / num_pages) (total mod num_pages) num_pages = total.
Proof.
  intros. unfold page_end.
  pose proof (Z.mod_pos_bound total num_pages ltac:(lia)).
  rewrite Z.min_r by lia.
  pose proof (Z.div_mod total num_pages ltac:(lia)). lia.
Qed.

Lemma distribute_balanced sections num_pages :
  1 <= num_pages <= len sections ->
  exists pages,
    distribute_sections_across_pages sections num_pages = Some pages /\
    forall p, pages !! p =
      if decide (1 <= p <= num_pages)
      then Some (slice sections
                   (page_end (len sections / num_pages)
                      (len sections mod num_pages) (p - 1))
                   (page_end (len sections / num_pages)
                      (len sections mod num_pages) p))
      else None.
Proof.
  intros [Hpos Hle]. unfold distribute_sections_across_pages.
  assert ((num_pages <=? 0) = false) as -> by lia.
  assert ((len sections =? 0) = false) as -> by lia.
  assert ((num_pages <=? len sections) = true) as -> by lia.
  pose proof (Z.mod_pos_bound (len sections) num_pages ltac:(lia)) as Hrem.
  unfold range. replace (num_pages + 1 - 1) with (Z.of_nat (Z.to_nat num_pages))
    by lia.
  destruct (balanced_fold sections (len sections / num_pages)
              (len sections mod num_pages)
              (list_to_map ((fun i => (i, [])) <$> seqZ 1 (Z.of_nat (Z.to_nat num_pages))))
              (Z.to_nat num_pages)) as (pages' & -> & Hlook); [lia|].
  simpl. exists pages'. split; [done|]. intros p. rewrite Hlook.
  destruct (decide (1 <= p <= Z.of_nat (Z.to_nat num_pages))).
  - rewrite decide_True by lia. done.
  - rewrite decide_False by lia. rewrite lookup_list_to_map_empty.
    rewrite decide_False; [done|]. rewrite elem_of_seqZ. lia.
Qed.

(** ** The distributor on its three paths *)

Lemma distribute_clamp sections num_pages :
  distribute_sections_across_pages sections num_pages
  = distribute_sections_across_pages sections (Z.max num_pages 1).
Proof.
  unfold distribute_sections_across_pages.
  destruct (num_pages <=? 0) eqn:E.
  - by replace (Z.max num_pages 1) with 1 by lia.
  - replace (Z.max num_pages 1) with num_pages by lia. by rewrite E.
Qed.

Lemma distribute_empty num_pages :
  1 <= num_pages ->
  distribute_sections_across_pages [] num_pages = Some (empty_pages num_pages).
Proof.
  intros. unfold distribute_sections_across_pages.
  by assert ((num_pages <=? 0) = false) as -> by lia.
Qed.

Lemma length_slice {A} (l : list A) a b :
  0 <= a <= b -> b <= len l -> len (slice l a b) = b - a.
Proof.
  intros. unfold slice, len in *. rewrite length_take, length_drop. lia.
Qed.

Lemma page_end_le base rem p q :
  0 <= base -> 0 <= p <= q -> page_end base rem p <= page_end base rem q.
Proof. intros. unfold page_end. nia. Qed.

(** What the distributor returns, page by page, on each of its paths. *)
Lemma distribute_pages sections num_pages :
  1 <= num_pages ->
  exists pages,
    distribute_sections_across_pages sections num_pages = Some pages /\
    (forall k, is_Some (pages !! k) <-> 1 <= k <= num_pages) /\
    ((forall k pg, pages !! k = Some pg -> pg <> []) \/
     (forall k pg, pages !! k = Some pg -> page_wc pg = 0)) /\
    (num_pages <= len sections ->
     forall k pg, pages !! k = Some pg -> pg <> []).
Proof.
  intros Hpos. destruct (decide (len sections = 0)) as [Hzero|Hnz].
  { destruct sections; [|done]. rewrite distribute_empty by done.
    eexists. split; [done|]. split; [|split].
    - intros k. rewrite lookup_empty_pages.
      case_decide; (split; [by intros [? ?]|by eauto]).
    - right. intros k pg. rewrite lookup_empty_pages. by case_decide; intros [= <-].
    - unfold len. simpl. lia. }
  assert (0 < len sections) by (unfold len in *; lia).
  destruct (decide (num_pages <= len sections)) as [Hle|Hgt].
  - destruct (distribute_balanced sections num_pages) as (pages & -> & Hlook);
      [lia|].
    assert (Hne : forall k pg, pages !! k = Some pg -> pg <> []).
    { intros k pg. rewrite Hlook. case_decide as Hk; [|done]. intros [= <-] E.
      pose proof (page_end_total (len sections) num_pages ltac:(lia) ltac:(lia))
        as Htotal.
      revert E Htotal.
      generalize (len sections / num_pages) (len sections mod num_pages)
        (Z.div_le_lower_bound (len sections) num_pages 1 ltac:(lia) ltac:(lia))
        (Z.mod_pos_bound (len sections) num_pages ltac:(lia)).
      intros base rem Hbase Hrem E Htotal.
      pose proof (page_end_le base rem k num_pages ltac:(lia) ltac:(lia)).
      pose proof (page_end_le base rem 0 (k - 1) ltac:(lia) ltac:(lia)).
      assert (page_end base rem (k - 1) + 1 <= page_end base rem k)
        by (unfold page_end; nia).
      assert (0 <= page_end base rem 0) by (unfold page_end; lia).
      pose proof (length_slice sections (page_end base rem (k - 1))
                    (page_end base rem k) ltac:(lia) ltac:(lia)) as Hl.
      rewrite E in Hl. unfold len in Hl. simpl in Hl. lia. }
    eexists. split; [done|]. split; [|split; [by left|done]].
    intros k. rewrite Hlook.
    case_decide; (split; [by intros [? ?]|by eauto]).
  - destruct (distribute_sparse sections num_pages) as (pl & -> & Hlen & Hc);
      [lia|].
    eexists. split; [done|]. split; [|split; [|lia]].
    + intros k. rewrite lookup_pages_of_list, lookup_empty_pages, Hlen.
      case_decide; (split; [by intros [? ?]|]); [|done].
      intros _. apply lookup_lt_is_Some. unfold len in *. lia.
    + destruct Hc as [Hc|Hc]; [left|right]; intros k pg;
        rewrite lookup_pages_of_list, lookup_empty_pages, Hlen.
      * case_decide; [|done]. intros Hin%list_elem_of_lookup_2.
        by eapply count_empty_0.
      * case_decide; [|done]. intros Hin%list_elem_of_lookup_2. by apply Hc.
Qed.

(** ** Claims about the page distributor *)

(** C1. For every list of sections and every integer [num_pages], the
    distributor returns a mapping, and the key set of the mapping is exactly
    {1, ..., max(num_pages, 1)}: a [num_pages] of 0 or less counts as 1.
    Every key is mapped to a list of sections. *)
Theorem C1_distribute_key_set (sections : page) (num_pages : Z) :
  exists pages : gmap Z page,
    distribute_sections_across_pages sections num_pages = Some pages /\
    dom pages = (list_to_set (range 1 (Z.max num_pages 1 + 1)) : gset Z).
Proof.
  rewrite distribute_clamp.
  destruct (distribute_pages sections (Z.max num_pages 1))
    as (pages & -> & Hkeys & _); [lia|].
  exists pages. split; [done|]. apply set_eq. intros k.
  rewrite elem_of_dom, Hkeys, elem_of_list_to_set, elem_of_range. lia.
Qed.

(** C2. When there are at least as many sections as pages ([num_pages] at
    least 1), the distributor returns a mapping whose pages, concatenated in
    page order 1..num_pages, are the input sequence, unchanged and unsplit.
    With [base = len(sections) // num_pages] and
    [rem = len(sections) mod num_pages], page [p] holds the consecutive
    sections from position [(p-1)*base + min(p-1, rem)] up to
    [p*base + min(p, rem)]: [base + 1] sections for the first [rem] pages and
    [base] for the others.  In particular five sections on two pages give
    page 1 = [A, B, C] and page 2 = [D, E]. *)
Theorem C2_balanced_conservation :
  (forall (sections : page) (num_pages : Z),
     1 <= num_pages -> num_pages <= len sections ->
     let base := len sections / num_pages in
     let rem := len sections mod num_pages in
     exists pages : gmap Z page,
       distribute_sections_across_pages sections num_pages = Some pages /\
       concat (map (fun p => default [] (pages !! p))
                 (range 1 (num_pages + 1))) = sections /\
       forall p, 1 <= p <= num_pages ->
         pages !! p = Some (slice sections (page_end base rem (p - 1))
                              (page_end base rem p)) /\
         len (slice sections (page_end base rem (p - 1)) (page_end base rem p))
         = base + (if p <=? rem then 1 else 0)) /\
  (forall A B C D E : SectionDict,
     exists pages : gmap Z page,
       distribute_sections_across_pages [A; B; C; D; E] 2 = Some pages /\
       pages !! 1 = Some [A; B; C] /\ pages !! 2 = Some [D; E]).
Proof.
  split.
  - intros sections num_pages Hpos Hle base rem.
    destruct (distribute_balanced sections num_pages) as (pages & -> & Hlook);
      [lia|].
    fold base rem in Hlook.
    assert (Hbase : 0 <= base) by (apply Z.div_pos; unfold len; lia).
    pose proof (Z.mod_pos_bound (len sections) num_pages ltac:(lia)) as Hrem.
    fold rem in Hrem.
    assert (Htotal : page_end base rem num_pages = len sections)
      by (apply page_end_total; unfold len; lia).
    exists pages. split; [done|]. split.
    + rewrite (map_ext_in _ (fun p => slice sections (page_end base rem (p - 1))
                                        (page_end base rem p))).
      * unfold range. replace (num_pages + 1 - 1)
          with (Z.of_nat (Z.to_nat num_pages)) by lia.
        rewrite concat_balanced by lia.
        rewrite Z2Nat.id, Htotal by lia. apply take_ge. unfold len. lia.
      * intros p Hin%list_elem_of_In%elem_of_range. rewrite Hlook.
        by rewrite decide_True by lia.
    + intros p Hp. split; [rewrite Hlook; by rewrite decide_True by lia|].
      pose proof (page_end_le base rem p num_pages ltac:(lia) ltac:(lia)).
      pose proof (page_end_le base rem 0 (p - 1) ltac:(lia) ltac:(lia)).
      pose proof (page_end_step base rem (p - 1) ltac:(lia) ltac:(lia)) as Hs.
      replace (p - 1 + 1) with p in Hs by lia.
      assert (0 <= page_end base rem 0) by (unfold page_end; lia).
      rewrite length_slice by (destruct (p <=? rem); lia). lia.
  - intros A B C D E.
    destruct (distribute_balanced [A; B; C; D; E] 2) as (pages & -> & Hlook);
      [unfold len; simpl; lia|].
    exists pages. split; [done|]. by rewrite !Hlook.
Qed.

Lemma C2_balanced_conservation_witness :
  let sections :=
    [part_dict (lit "A") (lit "a"); part_dict (lit "B") (lit "b");
     part_dict (lit "C") (lit "c")] in
  1 <= 2 /\ 2 <= len sections /\
  exists pages : gmap Z page,
    distribute_sections_across_pages sections 2 = Some pages /\
    concat (map (fun p => default [] (pages !! p)) (range 1 (2 + 1)))
    = sections.
Proof.
  intros sections. split; [lia|]. split; [unfold len; simpl; lia|].
  destruct (proj1 C2_balanced_conservation sections 2)
    as (pages & H1 & H2 & _); [lia|unfold len; simpl; lia|].
  exists pages. split; [exact H1|exact H2].
Defined.




(** ** Claims about the section splitter *)

Lemma map_fmap {A B} (f : A -> B) (l : list A) : map f l = f <$> l.
Proof. done. Qed.

Lemma section_paragraphs_empty_content section :
  get_str (d_content section) = [] -> section_paragraphs section = [].
Proof. unfold section_paragraphs. by intros ->. Qed.

(** C7, amended.  For every section and every [parts] of at least 1 the
    splitter returns, without raising, exactly [parts] sections.  When the
    normalized content has a paragraph, part 0 carries the original heading
    and every part [i] with [1 <= i <= parts - 1] the heading followed by
    " (cont.)".  When it has none (so when the content is empty) each of the
    [parts] sections carries the original heading, without the suffix, and
    an empty content. *)
Theorem C7_split_parts_and_headings (section : SectionDict) (parts : Z) :
  1 <= parts ->
  let heading := get_str (d_heading section) in
  exists out,
    split_section_into_parts section parts = Some out /\
    len out = parts /\
    (section_paragraphs section <> [] ->
     d_heading <$> out !! 0%nat = Some (Some heading) /\
     forall i, 1 <= i <= parts - 1 ->
       d_heading <$> out !! Z.to_nat i
       = Some (Some (heading ++ lit " (cont.)"))) /\
    (section_paragraphs section = [] ->
     forall i, 0 <= i <= parts - 1 ->
       out !! Z.to_nat i = Some (part_dict heading [])) /\
    (get_str (d_content section) = [] -> section_paragraphs section = []).
Proof.
  intros Hparts heading.
  destruct (split_section_into_parts_shape section parts Hparts)
    as (out & Hsplit & Hlen & Hhead).
  exists out. split; [done|]. split; [unfold len; lia|].
  assert (Hrange : forall i, 0 <= i <= parts - 1 ->
            range 0 parts !! Z.to_nat i = Some i).
  { intros i Hi. unfold range. rewrite lookup_seqZ_lt by lia. f_equal. lia. }
  split; [|split; [|apply section_paragraphs_empty_content]].
  - intros Hne.
    destruct (section_paragraphs section) eqn:E; [done|]. simpl in Hhead.
    assert (Hlook : forall i, 0 <= i <= parts - 1 ->
              d_heading <$> out !! Z.to_nat i
              = Some (Some (part_heading heading i))).
    { intros i Hi. rewrite <- list_lookup_fmap, <- map_fmap, Hhead.
      by rewrite map_fmap, list_lookup_fmap, Hrange. }
    split.
    + apply (Hlook 0). lia.
    + intros i Hi. rewrite Hlook by lia. unfold part_heading.
      by assert ((i =? 0) = false) as -> by lia.
  - intros E i Hi. unfold split_section_into_parts in Hsplit.
    change (map strip (filter _ (split NL _)))
      with (section_paragraphs section) in Hsplit.
    rewrite E in Hsplit. simpl in Hsplit. injection Hsplit as <-.
    by rewrite map_fmap, list_lookup_fmap, Hrange.
Qed.

Lemma C7_split_parts_and_headings_witness :
  let section := part_dict (lit "H") (lit "One. Two.") in
  1 <= 2 /\
  exists out,
    split_section_into_parts section 2 = Some out /\ len out = 2.
Proof.
  intros section. split; [lia|].
  destruct (C7_split_parts_and_headings section 2) as (out & H1 & H2 & _);
    [lia|].
  exists out. split; [exact H1|exact H2].
Defined.

(** C7 as stated fails on an empty content: the second part carries the
    original heading, not the heading followed by " (cont.)". *)
Lemma C7_counterexample :
  let section := part_dict (lit "H") [] in
  1 <= 2 /\
  exists out,
    split_section_into_parts section 2 = Some out /\
    d_heading <$> out !! 1%nat = Some (Some (lit "H")) /\
    lit "H" <> lit "H" ++ lit " (cont.)".
Proof.
  intros section. split; [lia|]. eexists. split; [vm_compute; reflexivity|].
  split; [reflexivity|discriminate].
Qed.

(** ** Characters and stripping *)

Lemma lstrip_starts_clean s : lstrip s = [] \/ starts_clean (lstrip s) = true.
Proof.
  induction s as [|c s IH]; simpl; [by left|].
  destruct (isspace c) eqn:E; [done|]. right. simpl. by rewrite E.
Qed.

Lemma lstrip_clean s : starts_clean s = true -> lstrip s = s.
Proof. destruct s as [|c s]; simpl; [done|]. by destruct (isspace c). Qed.

Lemma lstrip_snoc_clean s c :
  isspace c = false -> exists z, lstrip (s ++ [c]) = z ++ [c].
Proof.
  intros Hc. induction s as [|d s IH]; simpl.
  - rewrite Hc. by exists [].
  - destruct (isspace d); [done|]. by exists (d :: s).
Qed.

Lemma lstrip_suffix s : exists ws, s = ws ++ lstrip s.
Proof.
  induction s as [|c s [ws IH]]; simpl; [by exists []|].
  destruct (isspace c).
  - exists (c :: ws). simpl. by f_equal.
  - by exists [].
Qed.

Lemma rstrip_prefix s : exists ws, s = rstrip s ++ ws.
Proof.
  unfold rstrip. destruct (lstrip_suffix (rev s)) as [ws Hws].
  exists (rev ws). rewrite <- rev_app_distr, <- Hws. by rewrite rev_involutive.
Qed.

Lemma strip_infix s : exists a b, s = a ++ strip s ++ b.
Proof.
  unfold strip. destruct (lstrip_suffix s) as [a Ha].
  destruct (rstrip_prefix (lstrip s)) as [b Hb].
  exists a, b. by rewrite <- Hb.
Qed.

Lemma strip_tidy s : tidy (strip s).
Proof.
  unfold tidy, strip, rstrip. rewrite rev_involutive.
  destruct (lstrip_starts_clean s) as [->|Hs]; [by left|].
  destruct (lstrip s) as [|c t] eqn:E; [by left|]. simpl in Hs.
  apply negb_true_iff in Hs.
  destruct (lstrip_snoc_clean (rev t) c Hs) as [z Hz]. simpl.
  rewrite Hz. right. rewrite rev_app_distr. simpl. rewrite Hs. split; [done|].
  destruct (lstrip_starts_clean (rev t ++ [c])) as [E'|E'];
    rewrite Hz in E'; [by destruct z|done].
Qed.

Lemma tidy_strip s : tidy s -> strip s = s.
Proof.
  intros [->|[H1 H2]]; [done|]. unfold strip, rstrip.
  rewrite (lstrip_clean s H1), (lstrip_clean _ H2). apply rev_involutive.
Qed.

Lemma strip_strip s : strip (strip s) = strip s.
Proof. apply tidy_strip, strip_tidy. Qed.

(** ** Occurrences of a pattern *)

Lemma startswith_app s t p : startswith s p = true -> startswith (s ++ t) p = true.
Proof.
  revert s. induction p as [|a p IH]; intros s; [done|].
  destruct s as [|c s]; simpl; [done|].
  intros [-> ?]%andb_true_iff. by rewrite IH.
Qed.

Lemma contains_app p a b :
  contains p (a ++ b) = false -> contains p a = false /\ contains p b = false.
Proof.
  induction a as [|c a IH]; simpl.
  - intros H. split; [|done]. destruct p; [|done]. by destruct b.
  - intros [H1 H2]%orb_false_iff. apply IH in H2 as [? ?].
    split; [|done]. apply orb_false_iff. split; [|done].
    destruct (startswith (c :: a) p) eqn:E; [|done].
    pose proof (startswith_app _ b _ E) as E'. simpl in E'. congruence.
Qed.

Lemma contains_infix p a s b :
  contains p (a ++ s ++ b) = false -> contains p s = false.
Proof. intros [_ [? _]%contains_app]%contains_app. done. Qed.

Lemma startswith_sep x y p (sep : ascii) :
  sep ∉ p -> startswith (x ++ sep :: y) p = true -> startswith x p = true.
Proof.
  revert x. induction p as [|a p IH]; intros x Hsep; [by destruct x|].
  destruct x as [|c x]; simpl.
  - intros [?%bool_decide_eq_true _]%andb_true_iff. subst.
    exfalso. apply Hsep. left.
  - intros [-> Hs]%andb_true_iff. simpl. apply IH; [|done].
    intros ?. apply Hsep. by right.
Qed.

Lemma contains_sep p x y (sep : ascii) :
  sep ∉ p -> p <> [] ->
  contains p x = false -> contains p y = false ->
  contains p (x ++ sep :: y) = false.
Proof.
  intros Hsep Hp Hx Hy. induction x as [|c x IH]; simpl in *.
  - apply orb_false_iff. split; [|done].
    destruct p as [|a p]; [done|]. simpl.
    destruct (bool_decide (a = sep)) eqn:E; [|done].
    apply bool_decide_eq_true in E. subst. exfalso. apply Hsep. left.
  - apply orb_false_iff in Hx as [H1 H2]. apply orb_false_iff. split; [|auto].
    destruct (startswith (c :: x ++ sep :: y) p) eqn:E; [|done].
    apply (startswith_sep (c :: x) y p sep Hsep) in E. congruence.
Qed.

Lemma contains_head_absent (a : ascii) p s : a ∉ s -> contains (a :: p) s = false.
Proof.
  induction s as [|c s IH]; [done|]. intros Hs. simpl.
  rewrite bool_decide_eq_false_2.
  - simpl. apply IH. intros ?. apply Hs. by right.
  - intros ->. apply Hs. left.
Qed.

(** ** [str.replace] *)

Lemma replace_absent old new s :
  contains old s = false -> replace old new s = s.
Proof.
  unfold replace. induction s as [|c s IH]; [done|].
  simpl. intros [-> H2]%orb_false_iff. f_equal. by apply IH.
Qed.

Lemma elem_of_replace_go old new k s (c : ascii) :
  c ∈ replace_go old new k s -> c ∈ s \/ c ∈ new.
Proof.
  revert k. induction s as [|d s IH]; intros k; simpl.
  { by intros ?%elem_of_nil. }
  destruct k as [|k].
  - destruct (startswith (d :: s) old).
    + intros [?|[?|?]%IH]%elem_of_app; [by right|left; by right|by right].
    + intros [->|[?|?]%IH]%elem_of_cons; [left; left|left; by right|by right].
  - intros [?|?]%IH; [left; by right|by right].
Qed.

Lemma replace_single_cons (a : ascii) new c s :
  replace [a] new (c :: s)
  = if bool_decide (a = c) then new ++ replace [a] new s
    else c :: replace [a] new s.
Proof. unfold replace. simpl. by destruct (bool_decide (a = c)). Qed.

Lemma replace_single_absent (a : ascii) new s :
  a ∉ new -> a ∉ replace [a] new s.
Proof.
  intros Hnew. induction s as [|c s IH]; [by intros ?%elem_of_nil|].
  rewrite replace_single_cons. destruct (bool_decide (a = c)) eqn:E.
  - intros [?|?]%elem_of_app; auto.
  - apply bool_decide_eq_false in E.
    intros [?|?]%elem_of_cons; auto.
Qed.

Lemma replace_pair_cons (a b : ascii) new c1 c2 s :
  replace [a; b] new (c1 :: c2 :: s)
  = if bool_decide (a = c1) && bool_decide (b = c2)
    then new ++ replace [a; b] new s
    else c1 :: replace [a; b] new (c2 :: s).
Proof.
  unfold replace. simpl.
  destruct (bool_decide (a = c1)), (bool_decide (b = c2)); done.
Qed.

Lemma replace_pair_single (a b : ascii) new c : replace [a; b] new [c] = [c].
Proof. unfold replace. simpl. by rewrite andb_false_r. Qed.

(** The first character after the escaped line breaks are replaced: a
    newline or the first character of the input. *)
Lemma replace_escaped_head s :
  head (replace ESCAPED_NL [NL] s) = Some NL \/
  head (replace ESCAPED_NL [NL] s) = head s.
Proof.
  destruct s as [|c1 [|c2 s]];
    [by right|right; unfold ESCAPED_NL; by rewrite replace_pair_single|].
  unfold ESCAPED_NL. rewrite replace_pair_cons.
  destruct (_ && _); [by left|by right].
Qed.

Lemma replace_escaped_free_bounded (n : nat) s :
  (length s <= n)%nat ->
  contains ESCAPED_NL (replace ESCAPED_NL [NL] s) = false.
Proof.
  revert s. induction n as [|n IH]; intros s Hn.
  { destruct s; [done|simpl in Hn; lia]. }
  destruct s as [|c1 [|c2 s]];
    [done|
     unfold ESCAPED_NL; rewrite replace_pair_single; simpl;
     by rewrite andb_false_r|].
  simpl in Hn. unfold ESCAPED_NL. rewrite replace_pair_cons.
  destruct (bool_decide (BACKSLASH = c1) && bool_decide ("n"%char = c2)) eqn:E.
  - simpl. apply IH. lia.
  - pose proof (IH (c2 :: s) ltac:(simpl; lia)) as Hrest.
    unfold ESCAPED_NL in Hrest.
    change (contains [BACKSLASH; "n"%char] (c1 :: ?t))
      with (startswith (c1 :: t) [BACKSLASH; "n"%char]
            || contains [BACKSLASH; "n"%char] t).
    rewrite Hrest, orb_false_r. simpl.
    destruct (bool_decide (BACKSLASH = c1)) eqn:E1; [|done]. simpl in E |- *.
    destruct (replace_escaped_head (c2 :: s)) as [H|H];
      unfold ESCAPED_NL in H;
      destruct (replace [BACKSLASH; "n"%char] [NL] (c2 :: s)) as [|d t];
      simplify_eq/=; [done|]. by rewrite E.
Qed.

Lemma replace_escaped_free s :
  contains ESCAPED_NL (replace ESCAPED_NL [NL] s) = false.
Proof. by apply (replace_escaped_free_bounded (length s)). Qed.

(** ** Texts without a carriage return or an escaped line break *)

Lemma normalize_newlines_clean raw :
  (CR ∉ normalize_newlines raw) /\
  contains ESCAPED_NL (normalize_newlines raw) = false.
Proof.
  unfold normalize_newlines. split; [|apply replace_escaped_free].
  intros [Hin|Hin]%elem_of_replace_go.
  - by apply replace_single_absent in Hin; [|by intros ?%list_elem_of_singleton].
  - by apply list_elem_of_singleton in Hin.
Qed.

Lemma normalize_newlines_id t :
  CR ∉ t -> contains ESCAPED_NL t = false -> normalize_newlines t = t.
Proof.
  intros Hcr Hesc. unfold normalize_newlines.
  rewrite (replace_absent [CR; NL]) by (by apply contains_head_absent).
  rewrite (replace_absent [CR]) by (by apply contains_head_absent).
  by apply replace_absent.
Qed.

(** ** [str.split] and [str.join] *)

Lemma split_cons_form sep s : exists h t, split sep s = h :: t.
Proof.
  induction s as [|c s (h & t & IH)]; simpl; [eauto|].
  destruct (bool_decide (c = sep)); [eauto|]. rewrite IH. eauto.
Qed.

Lemma join_cons sep x y l :
  join sep (x :: y :: l) = x ++ sep ++ join sep (y :: l).
Proof. done. Qed.

Lemma join_split sep s : join [sep] (split sep s) = s.
Proof.
  induction s as [|c s IH]; [done|].
  destruct (split_cons_form sep s) as (h & t & Hs).
  cbn [split]. rewrite Hs in *.
  destruct (bool_decide (c = sep)) eqn:E.
  - apply bool_decide_eq_true in E as ->. rewrite join_cons.
    rewrite IH. done.
  - destruct t; simpl in *; by rewrite <- IH.
Qed.

Lemma split_no_sep sep s : Forall (fun l => sep ∉ l) (split sep s).
Proof.
  induction s as [|c s IH]; simpl.
  { constructor; [by intros ?%elem_of_nil|constructor]. }
  destruct (bool_decide (c = sep)) eqn:E.
  - constructor; [by intros ?%elem_of_nil|done].
  - apply bool_decide_eq_false in E.
    destruct (split sep s) as [|h t].
    { repeat constructor. intros ?%list_elem_of_singleton. congruence. }
    inversion IH; subst. constructor; [|done].
    intros [?|?]%elem_of_cons; auto.
Qed.

Lemma split_single sep x : sep ∉ x -> split sep x = [x].
Proof.
  induction x as [|c x IH]; [done|]. intros Hx. simpl.
  rewrite bool_decide_eq_false_2 by (intros ->; apply Hx; left).
  rewrite IH; [done|]. intros ?. apply Hx. by right.
Qed.

Lemma split_app_sep sep x y :
  sep ∉ x -> split sep (x ++ sep :: y) = x :: split sep y.
Proof.
  induction x as [|c x IH]; intros Hx; simpl.
  - by rewrite bool_decide_eq_true_2.
  - rewrite bool_decide_eq_false_2 by (intros ->; apply Hx; left).
    rewrite IH; [done|]. intros ?. apply Hx. by right.
Qed.

Lemma split_join sep ls :
  ls <> [] -> Forall (fun l => sep ∉ l) ls -> split sep (join [sep] ls) = ls.
Proof.
  induction ls as [|x [|y ls] IH]; intros Hne Hall; [done| |].
  - simpl. apply split_single. by inversion Hall.
  - rewrite join_cons. inversion Hall; subst. simpl app.
    rewrite split_app_sep by done. f_equal. by apply IH.
Qed.

Lemma join_elem_infix sep ls l :
  l ∈ ls -> exists a b, join sep ls = a ++ l ++ b.
Proof.
  induction ls as [|x [|y ls] IH].
  - by intros ?%elem_of_nil.
  - intros ->%list_elem_of_singleton. exists [], []. simpl. by rewrite app_nil_r.
  - rewrite join_cons. intros [->|Hin]%elem_of_cons.
    + exists [], (sep ++ join sep (y :: ls)). done.
    + destruct (IH Hin) as (a & b & ->). exists (x ++ sep ++ a), b.
      by rewrite <- !app_assoc.
Qed.

(** ** The lines of a normalized text *)

Lemma line_ok_nil : line_ok [].
Proof.
  split; [by intros ?%elem_of_nil|]. split; [by intros ?%elem_of_nil|].
  split; [done|by left].
Qed.

Lemma lines_of_text_ok t :
  CR ∉ t -> contains ESCAPED_NL t = false ->
  Forall line_ok (map strip (split NL t)).
Proof.
  intros Hcr Hesc. apply Forall_forall. intros l' Hin.
  rewrite map_fmap in Hin. apply list_elem_of_fmap in Hin as (l & -> & Hin).
  pose proof (split_no_sep NL t) as Hnl.
  eapply Forall_forall in Hnl; [|done].
  destruct (join_elem_infix [NL] _ _ Hin) as (a & b & Ht).
  rewrite join_split in Ht.
  destruct (strip_infix l) as (a' & b' & Hl).
  split; [|split; [|split]].
  - intros Hs. apply Hnl. rewrite Hl. set_solver.
  - intros Hs. apply Hcr. rewrite Ht, Hl. set_solver.
  - rewrite Ht, Hl in Hesc.
    apply contains_infix in Hesc. by apply contains_infix in Hesc.
  - apply strip_tidy.
Qed.

Lemma join_lines_clean ls :
  Forall line_ok ls ->
  (CR ∉ join [NL] ls) /\ contains ESCAPED_NL (join [NL] ls) = false.
Proof.
  induction ls as [|x [|y ls] IH]; intros Hall.
  - split; [by intros ?%elem_of_nil|done].
  - inversion Hall as [|?? (_ & ? & ? & _)]; subst. done.
  - inversion Hall as [|?? (_ & Hcr & Hesc & _) Hrest]; subst.
    destruct (IH Hrest) as [IH1 IH2]. rewrite join_cons. split.
    + intros [?|[?%list_elem_of_singleton|?]%elem_of_app]%elem_of_app; done.
    + apply (contains_sep ESCAPED_NL x _ NL); try done.
      intros [?|[?|?%elem_of_nil]%elem_of_cons]%elem_of_cons; done.
Qed.

Lemma map_strip_tidy ls : Forall tidy ls -> map strip ls = ls.
Proof.
  induction 1 as [|l ls Hl _ IH]; [done|]. simpl.
  by rewrite (tidy_strip l Hl), IH.
Qed.

Lemma lines_of_join ls :
  ls <> [] -> Forall line_ok ls ->
  map strip (split NL (normalize_newlines (join [NL] ls))) = ls.
Proof.
  intros Hne Hall. destruct (join_lines_clean ls Hall) as [Hcr Hesc].
  rewrite normalize_newlines_id by done.
  rewrite split_join; [|done|].
  - apply map_strip_tidy. eapply Forall_impl; [done|]. by intros l (_ & _ & _ & ?).
  - eapply Forall_impl; [done|]. by intros l (? & _).
Qed.

(** ** The meta-line loop *)

Lemma strip_meta_lines_Forall (P : str -> Prop) dt hl lines :
  Forall P lines -> Forall P (strip_meta_lines dt hl lines).
Proof.
  induction 1 as [|l rest Hl Hrest IH]; simpl; [done|].
  destruct (is_empty (strip l)); [done|].
  destruct (is_meta_line _ _ _); [|by constructor].
  destruct (_ && _); [done|by constructor].
Qed.

Lemma any_nonblank_tidy rest :
  Forall tidy rest ->
  any_nonblank rest = existsb (fun l => nonempty l) rest.
Proof.
  induction 1 as [|l rest Hl _ IH]; [done|]. unfold any_nonblank in *. simpl.
  by rewrite IH, (tidy_strip l Hl).
Qed.

Lemma strip_meta_lines_settled dt hl lines :
  Forall tidy lines -> settled dt hl (strip_meta_lines dt hl lines).
Proof.
  induction 1 as [|l rest Hl Hrest IH]; simpl; [done|].
  rewrite (tidy_strip l Hl).
  destruct (is_empty l) eqn:El; [done|].
  destruct (is_meta_line dt hl (lower l)) eqn:Em.
  - destruct (any_nonblank rest) eqn:Ea.
    + destruct rest; [done|]. done.
    + rewrite andb_false_r. simpl. split; [by destruct l|done].
  - simpl. split; [by destruct l|]. by rewrite Em.
Qed.

Lemma settled_fixed dt hl lines :
  Forall tidy lines -> settled dt hl lines ->
  strip_meta_lines dt hl lines = lines.
Proof.
  intros Hall Hs. destruct lines as [|l rest]; [done|].
  destruct Hs as [Hl Hmeta]. inversion Hall; subst. simpl.
  rewrite (tidy_strip l) by done.
  destruct l; [done|]. simpl is_empty. cbv iota.
  destruct (is_meta_line _ _ _); [|done].
  by rewrite Hmeta, andb_false_r.
Qed.

(** ** The blank-line collapse and the two trims *)

Lemma rev_reverse {A} (l : list A) : rev l = reverse l.
Proof. unfold reverse. apply rev_alt. Qed.

Lemma collapse_fold lines cleaned :
  fold_left collapse_step lines cleaned
  = cleaned ++ collapse_rec (bool_decide (last cleaned = Some [])) lines.
Proof.
  revert cleaned. induction lines as [|l lines IH]; intros cleaned; simpl.
  { by rewrite app_nil_r. }
  rewrite IH. unfold collapse_step. destruct (is_empty l) eqn:El.
  - destruct l; [|done].
    destruct (bool_decide (last cleaned = Some [])) eqn:Eb.
    + apply bool_decide_eq_true in Eb as Hlast.
      assert (nonempty cleaned = true) as -> by (by destruct cleaned).
      simpl. by rewrite Eb.
    + rewrite andb_false_r, last_snoc, bool_decide_eq_true_2 by done.
      by rewrite <- app_assoc.
  - rewrite last_snoc, bool_decide_eq_false_2.
    + by rewrite <- app_assoc.
    + intros [= ->]. done.
Qed.

Lemma collapse_blank_lines_rec lines :
  collapse_blank_lines lines = collapse_rec false lines.
Proof. unfold collapse_blank_lines. by rewrite collapse_fold. Qed.

Lemma collapse_rec_Forall (P : str -> Prop) b lines :
  Forall P lines -> Forall P (collapse_rec b lines).
Proof.
  intros Hall. revert b. induction Hall as [|l lines Hl _ IH]; intros b; simpl.
  { done. }
  destruct l; simpl; [|by constructor].
  destruct b; [done|by constructor].
Qed.

Lemma collapse_rec_no_double b lines :
  no_double_blank b (collapse_rec b lines).
Proof.
  revert b. induction lines as [|l lines IH]; intros b; simpl; [done|].
  destruct l; simpl; [|done]. destruct b; simpl; done.
Qed.

Lemma collapse_rec_fixed b lines :
  no_double_blank b lines -> collapse_rec b lines = lines.
Proof.
  revert b. induction lines as [|l lines IH]; intros b; simpl; [done|].
  destruct l; simpl.
  - intros [-> H]. f_equal. by apply IH.
  - intros H. f_equal. by apply IH.
Qed.

Lemma collapse_rec_nonempty b lines :
  existsb (fun l : str => nonempty l) (collapse_rec b lines)
  = existsb (fun l : str => nonempty l) lines.
Proof.
  revert b. induction lines as [|l lines IH]; intros b; simpl; [done|].
  destruct l; simpl; [|done]. destruct b; simpl; apply IH.
Qed.

Lemma no_double_blank_weaken b lines :
  no_double_blank b lines -> no_double_blank false lines.
Proof. destruct lines as [|l lines]; simpl; [done|]. destruct l; simpl; tauto. Qed.

Lemma no_double_blank_app b l1 l2 :
  no_double_blank b (l1 ++ l2) -> no_double_blank b l1.
Proof.
  revert b. induction l1 as [|l l1 IH]; intros b; simpl; [done|].
  destruct l; simpl; [intros [? ?]; split; eauto|eauto].
Qed.

Lemma trim_leading_decomp (lines : list str) :
  exists k, lines = replicate k [] ++ trim_leading_blank lines /\
            head (trim_leading_blank lines) <> Some [].
Proof.
  induction lines as [|l lines (k & IH & Hhead)]; simpl.
  - by exists 0%nat.
  - destruct l.
    + exists (S k). simpl. split; [by f_equal|done].
    + by exists 0%nat.
Qed.

Lemma trim_leading_fixed (lines : list str) :
  head lines <> Some [] -> trim_leading_blank lines = lines.
Proof. destruct lines as [|[|c l] lines]; done. Qed.

Lemma trim_trailing_decomp (lines : list str) :
  exists k, lines = trim_trailing_blank lines ++ replicate k [] /\
            last (trim_trailing_blank lines) <> Some [].
Proof.
  unfold trim_trailing_blank.
  destruct (trim_leading_decomp (rev lines)) as (k & Hk & Hhead).
  exists k. split.
  - rewrite <- (rev_involutive lines) at 1. rewrite Hk at 1.
    rewrite rev_app_distr. f_equal.
    by rewrite rev_reverse, reverse_replicate.
  - by rewrite rev_reverse, last_reverse.
Qed.

Lemma trim_trailing_fixed (lines : list str) :
  last lines <> Some [] -> trim_trailing_blank lines = lines.
Proof.
  intros Hlast. unfold trim_trailing_blank.
  rewrite trim_leading_fixed; [apply rev_involutive|].
  by rewrite rev_reverse, head_reverse.
Qed.

Lemma trim_trailing_cons (l : str) (lines : list str) :
  l <> [] ->
  exists lines' k, trim_trailing_blank (l :: lines) = l :: lines' /\
                   lines = lines' ++ replicate k [].
Proof.
  intros Hl. destruct (trim_trailing_decomp (l :: lines)) as (k & Hk & _).
  destruct (trim_trailing_blank (l :: lines)) as [|l' lines'].
  - destruct k; simplify_eq/=.
  - simplify_eq/=. eauto.
Qed.

Lemma existsb_nonempty_replicate k :
  existsb (fun l : str => nonempty l) (replicate k []) = false.
Proof. induction k; simpl; auto. Qed.

(** ** The three list passes reach a fixed point at once *)

Lemma clean_lines_fixed_lines dt hl lines :
  Forall line_ok lines -> fixed_lines dt hl (clean_lines dt hl lines).
Proof.
  intros Hall.
  assert (Htidy : Forall tidy lines).
  { eapply Forall_impl; [done|]. by intros l (_ & _ & _ & ?). }
  pose proof (strip_meta_lines_Forall line_ok dt hl lines Hall) as HallR.
  pose proof (strip_meta_lines_Forall tidy dt hl lines Htidy) as HtidyR.
  pose proof (strip_meta_lines_settled dt hl lines Htidy) as Hset.
  unfold clean_lines. rewrite collapse_blank_lines_rec.
  destruct (strip_meta_lines dt hl lines) as [|l rest].
  { split; [done|]. split; [done|]. split; done. }
  destruct Hset as [Hl Hmeta].
  assert (collapse_rec false (l :: rest) = l :: collapse_rec false rest) as ->
    by (by destruct l).
  rewrite trim_leading_fixed by (simpl; congruence).
  destruct (trim_trailing_cons l (collapse_rec false rest) Hl)
    as (lines' & k & Htrim & Hrest).
  pose proof (trim_trailing_decomp (l :: collapse_rec false rest))
    as (_ & _ & Hlast).
  rewrite Htrim in *.
  inversion HallR as [|?? Hlok HallRest]; subst.
  inversion HtidyR as [|?? _ HtidyRest]; subst.
  pose proof (collapse_rec_Forall line_ok false rest HallRest) as HallC.
  rewrite Hrest in HallC. apply Forall_app in HallC as [HallC _].
  split; [by constructor|]. split; [|split; [|done]].
  - split; [done|]. intros Hm. specialize (Hmeta Hm).
    rewrite any_nonblank_tidy in Hmeta by done.
    rewrite <- (collapse_rec_nonempty false), Hrest, existsb_app in Hmeta.
    apply orb_false_iff in Hmeta as [Hmeta _].
    rewrite any_nonblank_tidy; [done|].
    eapply Forall_impl; [done|]. by intros ? (_ & _ & _ & ?).
  - pose proof (collapse_rec_no_double false rest) as Hnd.
    rewrite Hrest in Hnd. apply no_double_blank_app in Hnd.
    simpl. by destruct l.
Qed.

Lemma fixed_lines_clean dt hl c :
  fixed_lines dt hl c -> clean_lines dt hl c = c.
Proof.
  intros (Hall & Hset & Hnd & Hlast). unfold clean_lines.
  rewrite settled_fixed; [|by eapply Forall_impl; [done|]; intros ? (_ & _ & _ & ?)|done].
  rewrite collapse_blank_lines_rec, collapse_rec_fixed by done.
  rewrite trim_leading_fixed; [by apply trim_trailing_fixed|].
  destruct c as [|l c]; [done|]. destruct Hset as [Hl _]. simpl. congruence.
Qed.

Lemma join_head sep (l : str) ls : exists b, join sep (l :: ls) = l ++ b.
Proof.
  destruct ls; [exists []; simpl; by rewrite app_nil_r|].
  rewrite join_cons. eauto.
Qed.

Lemma join_last sep ls (z : str) :
  last ls = Some z -> exists a, join sep ls = a ++ z.
Proof.
  induction ls as [|x [|y ls] IH]; [done| |].
  - intros [= ->]. by exists [].
  - rewrite last_cons_cons. intros [a Ha]%IH. rewrite join_cons, Ha.
    exists (x ++ sep ++ a). by rewrite <- !app_assoc.
Qed.

Lemma starts_clean_app s t :
  starts_clean s = true -> starts_clean (s ++ t) = true.
Proof. by destruct s. Qed.

Lemma tidy_nonempty s : tidy s -> s <> [] ->
  starts_clean s = true /\ starts_clean (rev s) = true.
Proof. by intros [->|?]. Qed.

Lemma fixed_lines_strip_join dt hl c :
  fixed_lines dt hl c -> strip (join [NL] c) = join [NL] c.
Proof.
  intros (Hall & Hset & Hnd & Hlast). apply tidy_strip.
  destruct c as [|l c]; [by left|]. right.
  destruct Hset as [Hl _].
  destruct (last (l :: c)) as [z|] eqn:Hz; [|by apply last_None in Hz].
  assert (Hzin : z ∈ l :: c) by (by eapply last_Some_elem_of).
  pose proof (proj1 (Forall_forall _ _) Hall z Hzin) as (_ & _ & _ & Hzt).
  inversion Hall as [|?? (_ & _ & _ & Hlt) _]; subst.
  destruct (tidy_nonempty l Hlt Hl) as [Hl1 _].
  destruct (tidy_nonempty z Hzt ltac:(congruence)) as [_ Hz2].
  destruct (join_head [NL] l c) as [b Hb].
  destruct (join_last [NL] (l :: c) z Hz) as [a Ha].
  split.
  - rewrite Hb. by apply starts_clean_app.
  - rewrite Ha, rev_app_distr. by apply starts_clean_app.
Qed.

(** ** Claims about the text normalizer *)

Lemma clean_section_content_lines doc_title heading raw :
  _clean_section_content doc_title heading raw
  = if is_empty raw then []
    else strip (join [NL]
           (clean_lines (lower (strip doc_title)) (lower (strip heading))
              (map strip (split NL (normalize_newlines raw))))).
Proof. done. Qed.

(** What the normalizer returns is the join of lines at rest. *)
Lemma clean_section_content_fixed doc_title heading raw :
  exists c,
    fixed_lines (lower (strip doc_title)) (lower (strip heading)) c /\
    _clean_section_content doc_title heading raw = join [NL] c.
Proof.
  rewrite clean_section_content_lines. destruct (is_empty raw).
  { exists []. split; [|done]. split; [done|]. split; [done|]. split; done. }
  destruct (normalize_newlines_clean raw) as [Hcr Hesc].
  pose proof (lines_of_text_ok _ Hcr Hesc) as Hall.
  eapply clean_lines_fixed_lines in Hall.
  eexists. split; [done|]. by eapply fixed_lines_strip_join.
Qed.

(** C5. For every document title, heading and text, the normalization is
    idempotent: [_clean_section_content title heading] applied to its own
    output returns that output. *)
Theorem C5_clean_idempotent (doc_title heading raw : str) :
  _clean_section_content doc_title heading
    (_clean_section_content doc_title heading raw)
  = _clean_section_content doc_title heading raw.
Proof.
  destruct (clean_section_content_fixed doc_title heading raw)
    as (c & Hfixed & ->).
  rewrite clean_section_content_lines.
  destruct (is_empty (join [NL] c)) eqn:E; [by destruct (join [NL] c)|].
  assert (c <> []) by (by intros ->).
  rewrite lines_of_join by (done || apply Hfixed).
  rewrite (fixed_lines_clean _ _ c Hfixed).
  by eapply fixed_lines_strip_join.
Qed.





(** ** Runs of characters: the words of a text *)



Section Runs.

Variable keep : ascii -> bool.
Hypothesis keep_blank : forall c, isspace c = true -> keep c = false.














End Runs.

(** ** The words kept by the normalizer and by the splitter *)




Lemma slice_all {A} (l : list A) : slice l 0 (len l) = l.
Proof. unfold slice, len. simpl. rewrite drop_0. apply take_ge. lia. Qed.


Lemma advance_app w l1 l2 idx :
  advance w (l1 ++ l2) idx = advance w l2 (advance w l1 idx).
Proof. revert idx. induction l1; intros; simpl; auto. Qed.

Lemma advance_const cs (k : nat) idx :
  advance (fun _ => cs) (seqZ 0 (Z.of_nat k)) idx = idx + Z.of_nat k * cs.
Proof.
  induction k as [|k IH]; [simpl; lia|].
  rewrite seqZ_S, advance_app, IH. cbn [advance]. lia.
Qed.

Lemma advance_shares base rem (k : nat) :
  0 <= rem ->
  advance (fun i => base + (if i <? rem then 1 else 0)) (seqZ 0 (Z.of_nat k)) 0
  = page_end base rem (Z.of_nat k).
Proof.
  intros Hrem. induction k as [|k IH]; [unfold page_end; simpl; lia|].
  rewrite seqZ_S, advance_app, IH. cbn [advance].
  replace (Z.of_nat (S k)) with (Z.of_nat k + 1) by lia.
  rewrite <- (page_end_step base rem (Z.of_nat k)) by lia.
  replace (0 + Z.of_nat k) with (Z.of_nat k) by lia.
  destruct (Z.of_nat k <? rem) eqn:E1, (Z.of_nat k + 1 <=? rem) eqn:E2; lia.
Qed.

Section SplitterRuns.

Variable keep : ascii -> bool.
Hypothesis keep_blank : forall c, isspace c = true -> keep c = false.











End SplitterRuns.

(** ** Where the words of a normalized text come from *)

















(** Where word boundaries move: the normalizer reads the escaped line break
    (a backslash and the letter n) as a line break, so the content "foo",
    backslash, "n", "bar", whose [\w+] runs are "foo" and "nbar", comes out
    with the words "foo" and "bar"; both occur in the content. *)
Example split_escaped_line_break :
  let section := part_dict (lit "H") (lit "foo" ++ ESCAPED_NL ++ lit "bar") in
  findall_w (get_str (d_content section)) = [lit "foo"; lit "nbar"] /\
  exists out,
    split_section_into_parts section 1 = Some out /\
    findall_w (join (lit " ") (contents out)) = [lit "foo"; lit "bar"] /\
    occurs_in (lit "bar") (get_str (d_content section)).
Proof.
  intros section. split; [by vm_compute|].
  eexists. split; [by vm_compute|]. split; [by vm_compute|].
  by exists (lit "foo" ++ ESCAPED_NL), [].
Qed.

(** ** The slide normalizer *)

Lemma dict_lookup_set_eq d key v : dict_lookup key (dict_set d key v) = Some v.
Proof.
  induction d as [|[k v'] d IH]; simpl.
  - by rewrite bool_decide_eq_true_2.
  - destruct (bool_decide (k = key)) eqn:E; simpl; by rewrite E.
Qed.

Lemma dict_lookup_set_ne d key key' v :
  key <> key' -> dict_lookup key' (dict_set d key v) = dict_lookup key' d.
Proof.
  intros Hne. induction d as [|[k v'] d IH]; simpl.
  - by rewrite bool_decide_eq_false_2.
  - destruct (bool_decide (k = key)) eqn:E; simpl.
    + apply bool_decide_eq_true in E as ->.
      by rewrite !bool_decide_eq_false_2.
    + by rewrite IH.
Qed.

Lemma dict_get_set_ne d key key' v dflt :
  key <> key' -> dict_get (dict_set d key v) key' dflt = dict_get d key' dflt.
Proof. intros. unfold dict_get. by rewrite dict_lookup_set_ne. Qed.

Lemma lookup_enum_from_nat {A} (l : list A) start (idx : nat) :
  enum_from start l !! idx = (fun x => (start + Z.of_nat idx, x)) <$> l !! idx.
Proof.
  revert start idx. induction l as [|x l IH]; intros start [|idx]; simpl;
    try done.
  - by rewrite Z.add_0_r.
  - rewrite IH. destruct (l !! idx); simpl; [|done]. do 2 f_equal. lia.
Qed.

Lemma length_enumerate {A} (l : list A) : length (enumerate l) = length l.
Proof.
  rewrite enumerate_enum_from. generalize 0.
  induction l; intros; simpl; auto.
Qed.

Lemma length_slice_to {A} (l : list A) n :
  0 <= n <= len l -> len (slice_to l n) = n.
Proof.
  intros [H0 Hn]. unfold slice_to, len in *.
  assert ((0 <=? n) = true) as -> by lia. rewrite length_take. lia.
Qed.

Section SlideNormalizerFacts.

Variable py_repr : json -> str.

(** "Ensure we have exactly num_slides slides". *)
Lemma exact_count_length normalized_slides num_slides :
  0 <= num_slides ->
  len (exact_count normalized_slides num_slides) = num_slides.
Proof.
  intros Hn. unfold exact_count.
  destruct (len normalized_slides <? num_slides) eqn:E1.
  - unfold len in *. rewrite length_app, length_map, length_range. lia.
  - destruct (num_slides <? len normalized_slides) eqn:E2.
    + apply length_slice_to. lia.
    + lia.
Qed.

(** Fewer slides than asked: the mapped slides, then title slides named
    after their 1-based position.  More: the earliest ones. *)
Lemma exact_count_shape normalized_slides num_slides :
  0 <= num_slides ->
  exact_count normalized_slides num_slides
  = take (Z.to_nat num_slides) normalized_slides
    ++ map (fun i => title_slide (JStr (lit "Slide " ++ decimal (i + 1))))
         (range (len normalized_slides) num_slides).
Proof.
  intros Hn. unfold exact_count.
  destruct (len normalized_slides <? num_slides) eqn:E1.
  - rewrite take_ge by (unfold len in *; lia). done.
  - assert (range (len normalized_slides) num_slides = []) as ->.
    { unfold range. apply length_zero_iff_nil. rewrite length_seqZ. lia. }
    rewrite app_nil_r.
    destruct (num_slides <? len normalized_slides) eqn:E2.
    + unfold slice_to. by assert ((0 <=? num_slides) = true) as -> by lia.
    + rewrite take_ge by (unfold len in *; lia). done.
Qed.

(** When the normalization returns, it returns exactly [num_slides]
    slides. *)
Lemma generate_content_length items topic num_slides slides :
  0 <= num_slides ->
  generate_content_with_gemini py_repr (JList items) topic num_slides
  = Some slides ->
  len slides = num_slides.
Proof.
  intros Hn Hgen. simpl in Hgen. apply length_mapM in Hgen.
  rewrite length_enumerate in Hgen.
  rewrite <- (exact_count_length (concat (map (normalize_item py_repr) items))
                num_slides Hn).
  unfold len. by rewrite Hgen.
Qed.

(** What the last loop does to one slide. *)
Lemma ensure_image_spec topic idx s s' :
  ensure_image topic (idx, s) = Some s' ->
  eq_str (dict_get s' (lit "layout") JNull) LAYOUT_IMAGE = true ->
  dict_lookup (lit "image_url") s'
  = Some (JStr (image_url_of_seed (image_seed topic idx))) /\
  dict_get s' (lit "title") (JStr []) = dict_get s (lit "title") (JStr []) /\
  exists caption,
    dict_lookup (lit "caption") s' = Some caption /\
    ((is_str caption = true /\ truthy caption = true /\
      dict_lookup (lit "caption") s = Some caption) \/
     slice_120 (py_or (dict_get s (lit "title") (JStr [])) (JStr []))
     = Some caption).
Proof.
  unfold ensure_image.
  destruct (eq_str (dict_get s (lit "layout") JNull) LAYOUT_IMAGE) eqn:Himg.
  2:{ intros [= <-] H. congruence. }
  set (caption := dict_get s (lit "caption") JNull).
  destruct (negb (truthy caption) || negb (is_str caption)) eqn:Hcap.
  - destruct (slice_120 _) as [c|] eqn:Hslice; [|done]. simpl.
    intros [= <-] _. split; [apply dict_lookup_set_eq|].
    split; [by rewrite !dict_get_set_ne|].
    exists c. split; [|by right].
    rewrite dict_lookup_set_ne by done. apply dict_lookup_set_eq.
  - simpl. intros [= <-] _. split; [apply dict_lookup_set_eq|].
    split; [by rewrite !dict_get_set_ne|].
    apply orb_false_iff in Hcap as [Ht Hs].
    apply negb_false_iff in Ht, Hs.
    exists caption. rewrite dict_lookup_set_ne by done.
    assert (Hl : dict_lookup (lit "caption") s = Some caption).
    { unfold caption, dict_get in *.
      by destruct (dict_lookup (lit "caption") s). }
    split; [done|]. by left.
Qed.

End SlideNormalizerFacts.

Section SlideNormalizerReturns.

Variable py_repr : json -> str.

Lemma normalize_item_titles item :
  title_is_text item ->
  Forall slide_title_is_text (normalize_item py_repr item).
Proof.
  destruct item as [| | | | | |d]; try (intros; by constructor).
  unfold title_is_text, normalize_item. intros Ht.
  destruct (dict_lookup (lit "layout") d) as [layout|].
  - repeat (destruct (eq_str layout _); [by repeat constructor|]).
    constructor.
  - destruct (dict_get d (lit "content") JNull);
      try (destruct (truthy (dict_get d (lit "image") JNull)));
      by repeat constructor.
Qed.

Lemma exact_count_titles normalized_slides num_slides :
  Forall slide_title_is_text normalized_slides ->
  Forall slide_title_is_text (exact_count normalized_slides num_slides).
Proof.
  intros Hall. unfold exact_count.
  destruct (_ <? num_slides).
  - apply Forall_app. split; [done|]. rewrite map_fmap. apply Forall_fmap.
    by apply Forall_true.
  - destruct (num_slides <? _); [|done]. unfold slice_to.
    destruct (0 <=? num_slides); by apply Forall_take.
Qed.

Lemma ensure_image_returns topic idx s :
  slide_title_is_text s -> is_Some (ensure_image topic (idx, s)).
Proof.
  unfold slide_title_is_text, ensure_image. intros Ht.
  destruct (eq_str _ LAYOUT_IMAGE); [|done].
  destruct (_ || _); [|done].
  destruct (dict_get s (lit "title") (JStr [])) as [| | | |t| |]; try done.
  unfold py_or. by destruct (truthy (JStr t)).
Qed.

(** The normalization returns, with exactly [num_slides] slides, on every
    answer in which the titles are strings. *)
Lemma generate_content_returns items topic num_slides :
  0 <= num_slides -> Forall title_is_text items ->
  exists slides,
    generate_content_with_gemini py_repr (JList items) topic num_slides
    = Some slides /\ len slides = num_slides.
Proof.
  intros Hn Hall.
  assert (Hsome : is_Some
    (generate_content_with_gemini py_repr (JList items) topic num_slides)).
  { apply mapM_is_Some_2. apply Forall_forall. intros [i s] Hin.
    apply elem_of_enumerate in Hin as [_ Hl]. apply ensure_image_returns.
    apply list_elem_of_lookup_2 in Hl. revert s Hl. apply Forall_forall.
    apply exact_count_titles, Forall_concat. rewrite map_fmap.
    apply Forall_fmap. eapply Forall_impl; [done|].
    intros item Hitem. by apply normalize_item_titles. }
  destruct Hsome as [slides Hgen]. exists slides. split; [done|].
  by eapply generate_content_length.
Qed.

End SlideNormalizerReturns.

(** The decimal text of a number that is not negative starts with a digit,
    so the seed of an image never falls back to "slide_<position>". *)
Lemma decimal_head n :
  0 <= n -> exists c rest, decimal n = c :: rest /\ isalnum c = true.
Proof.
  intros Hn. unfold decimal.
  assert (Huint : forall d, exists c rest,
            lit (NilZero.string_of_uint d) = c :: rest /\ isalnum c = true).
  { intros d. destruct d; simpl; eauto. }
  destruct n as [|p|p]; [by apply (Huint (Decimal.D0 Decimal.Nil))| |lia].
  apply Huint.
Qed.

Lemma image_seed_stripped topic idx :
  0 <= idx ->
  image_seed topic idx
  = filter (fun c => isalnum c) (topic ++ lit "_" ++ decimal idx).
Proof.
  intros Hidx. unfold image_seed.
  destruct (decimal_head idx Hidx) as (c & rest & -> & Hc).
  rewrite !filter_app, filter_cons_True by (by rewrite Hc).
  by destruct (filter _ topic), (filter _ (lit "_")).
Qed.

(** ** Claims about the slide normalizer *)

(** Scenario 4: an empty answer and five slides asked give five title
    slides, "Slide 1" to "Slide 5", whatever [repr] is. *)
Lemma generate_content_empty py_repr :
  generate_content_with_gemini py_repr (JList []) (lit "AI") 5
  = Some (map (fun t => title_slide (JStr (lit t)))
            ["Slide 1"; "Slide 2"; "Slide 3"; "Slide 4"; "Slide 5"]%string).
Proof. by vm_compute. Qed.

(** C4, the code at the failing input.  The exact count holds of every
    answer on which the function returns ([generate_content_length]), but
    the function does not return on every list: for an image slide whose
    caption is missing and whose title is the number 5 the last loop slices
    the number, and the function raises instead of returning one slide. *)
Theorem C4_numeric_title_raises (py_repr : json -> str) :
  generate_content_with_gemini py_repr
    (JList [JDict [(lit "layout", JStr (lit "image")); (lit "title", JInt 5)]])
    (lit "AI") 1
  = None.
Proof. by vm_compute. Qed.

(** C6, amended.  When the normalization returns (and it returns on every
    answer whose titles are strings), every slide of the result with the
    image layout has an [image_url] equal to
    "https://picsum.photos/seed/<seed>/1200/800", where the seed is the text
    "<topic>_<position>" (positions count from 0) without its characters
    outside [a-zA-Z0-9], whatever the generator sent; and it has a caption,
    which is a non-empty string or else the first 120 characters of the
    title (the empty string for a missing title).  So the caption is a
    non-empty string whenever the title is one. *)
Theorem C6_image_slides (py_repr : json -> str) (topic : str)
    (num_slides : Z) :
  (forall (data : json) (slides : list dict),
     generate_content_with_gemini py_repr data topic num_slides = Some slides ->
     forall (idx : nat) (s : dict),
       slides !! idx = Some s ->
       eq_str (dict_get s (lit "layout") JNull) LAYOUT_IMAGE = true ->
       dict_lookup (lit "image_url") s
       = Some (JStr (lit "https://picsum.photos/seed/"
                     ++ filter (fun c => isalnum c)
                          (topic ++ lit "_" ++ decimal (Z.of_nat idx))
                     ++ lit "/1200/800")) /\
       exists caption,
         dict_lookup (lit "caption") s = Some caption /\
         ((is_str caption = true /\ truthy caption = true) \/
          slice_120 (py_or (dict_get s (lit "title") (JStr [])) (JStr []))
          = Some caption) /\
         (is_str (dict_get s (lit "title") (JStr [])) = true ->
          truthy (dict_get s (lit "title") (JStr [])) = true ->
          is_str caption = true /\ truthy caption = true)) /\
  (forall items : list json,
     0 <= num_slides -> Forall title_is_text items ->
     exists slides,
       generate_content_with_gemini py_repr (JList items) topic num_slides
       = Some slides).
Proof.
  split.
  2:{ intros items Hn Hall.
      destruct (generate_content_returns py_repr items topic num_slides Hn Hall)
        as (slides & Hgen & _). eauto. }
  intros data slides Hgen idx s Hs Himg. destruct data; try done.
  simpl in Hgen. apply mapM_Some_1 in Hgen.
  destruct (Forall2_lookup_r _ _ _ _ _ Hgen Hs) as ([i s0] & Hl & Hens).
  rewrite enumerate_enum_from, lookup_enum_from_nat in Hl.
  destruct (exact_count _ _ !! idx) as [s0'|]; [|done].
  simpl in Hl. injection Hl as <- <-. rewrite Z.add_0_l in Hens.
  destruct (ensure_image_spec topic _ _ _ Hens Himg)
    as (Hurl & Htitle & caption & Hcap & Hkind).
  split; [by rewrite <- image_seed_stripped by lia|].
  exists caption. split; [done|]. rewrite Htitle. split.
  - destruct Hkind as [(? & ? & _)|?]; [by left|by right].
  - intros Hstr Htruthy. destruct Hkind as [(? & ? & _)|Hslice]; [done|].
    revert Hstr Htruthy Hslice. clear.
    generalize (dict_get s0' (lit "title") (JStr [])).
    intros [| | | |t| |] Hstr Htruthy Hslice; try done.
    unfold py_or in Hslice. rewrite Htruthy in Hslice.
    injection Hslice as <-. split; [done|]. by destruct t.
Qed.

Lemma C6_image_slides_witness :
  let data :=
    JList [JDict [(lit "layout", JStr (lit "image"));
                  (lit "title", JStr (lit "Chart"))]] in
  let s :=
    [(lit "layout", JStr (lit "image")); (lit "title", JStr (lit "Chart"));
     (lit "caption", JStr (lit "Chart"));
     (lit "image_url", JStr (lit "https://picsum.photos/seed/AI0/1200/800"))] in
  generate_content_with_gemini (fun _ => []) data (lit "A I") 1 = Some [s] /\
  [s] !! 0%nat = Some s /\
  eq_str (dict_get s (lit "layout") JNull) LAYOUT_IMAGE = true /\
  dict_lookup (lit "image_url") s
  = Some (JStr (lit "https://picsum.photos/seed/"
                ++ filter (fun c => isalnum c)
                     (lit "A I" ++ lit "_" ++ decimal (Z.of_nat 0))
                ++ lit "/1200/800")).
Proof.
  intros data s.
  assert (Hgen : generate_content_with_gemini (fun _ => []) data (lit "A I") 1
                 = Some [s]) by (vm_compute; reflexivity).
  split; [exact Hgen|]. split; [reflexivity|]. split; [reflexivity|].
  apply (proj1 (C6_image_slides (fun _ => []) (lit "A I") 1) data [s] Hgen
           0%nat s); reflexivity.
Defined.

(** C6 as stated fails: an image slide that comes with no caption and no
    title leaves the pass with an empty caption. *)
Lemma C6_counterexample :
  exists s,
    generate_content_with_gemini (fun _ => [])
      (JList [JDict [(lit "layout", JStr (lit "image"))]]) (lit "AI") 1
    = Some [s] /\
    eq_str (dict_get s (lit "layout") JNull) LAYOUT_IMAGE = true /\
    dict_lookup (lit "caption") s = Some (JStr []).
Proof. eexists. split; [by vm_compute|]. split; by vm_compute. Qed.

(** ** Claims about the configuration and the template choice *)

Lemma validation_errors_theme c t :
  validation_errors
    (mkConfiguration t (font_name c) (font_color c) (background_color c)
       (accent_color c))
  = validation_errors c.
Proof. done. Qed.

Section TemplateChoiceFacts.

Variable TEMPLATE_DIR : str.
Variable path_exists : str -> bool.

Lemma template_file_nonempty name : nonempty (template_file TEMPLATE_DIR name) = true.
Proof. unfold template_file. destruct TEMPLATE_DIR; reflexivity. Qed.

Lemma assoc_get_template_map t :
  assoc_get t (TEMPLATE_MAP TEMPLATE_DIR)
  = if bool_decide (t ∈ TEMPLATE_IDS)
    then Some (template_file TEMPLATE_DIR t) else None.
Proof.
  unfold TEMPLATE_MAP. induction TEMPLATE_IDS as [|name names IH]; [done|].
  cbn [map assoc_get]. destruct (bool_decide (name = t)) eqn:E.
  - apply bool_decide_eq_true in E as ->.
    by rewrite bool_decide_eq_true_2 by left.
  - apply bool_decide_eq_false in E. rewrite IH.
    destruct (bool_decide (t ∈ names)) eqn:E'.
    + apply bool_decide_eq_true in E'.
      by rewrite bool_decide_eq_true_2 by (by right).
    + apply bool_decide_eq_false in E'. rewrite bool_decide_eq_false_2; [done|].
      intros [?|?]%elem_of_cons; congruence.
Qed.

End TemplateChoiceFacts.

Lemma validation_errors_no_theme c : lit "theme_id" ∉ validation_errors c.
Proof.
  unfold validation_errors. intros Hin. apply list_elem_of_In in Hin.
  destruct (validate_font _), (validate_color (font_color c)),
    (validate_color (background_color c)), (validate_color (accent_color c));
    simpl in Hin;
    repeat match goal with
           | H : _ \/ _ |- _ => destruct H
           | H : False |- _ => destruct H
           end; discriminate.
Qed.

(** C10, amended.  No validator looks at [theme_id]: the rejected fields do
    not depend on it and never include it.  The template choice of
    [build_pptx] does not raise on any validated configuration, nor without
    a configuration.  A missing, null or empty [theme_id] selects the "ppt1"
    template, a known one its own template, in both cases replaced by the
    blank default presentation when the file does not exist.  A non-empty
    [theme_id] outside the known template IDs selects the blank default
    presentation, not "ppt1", even when the "ppt1" file exists. *)
Theorem C10_theme_fallback (TEMPLATE_DIR : str) (path_exists : str -> bool)
    (c : ConfigurationUpdate) :
  let from_file := fun name =>
    if path_exists (template_file TEMPLATE_DIR name)
    then FromTemplate (template_file TEMPLATE_DIR name)
    else DefaultPresentation in
  (forall t,
     validation_errors
       (mkConfiguration t (font_name c) (font_color c) (background_color c)
          (accent_color c))
     = validation_errors c) /\
  (lit "theme_id" ∉ validation_errors c) /\
  build_pptx_choose_template TEMPLATE_DIR path_exists None
  = Some (from_file (lit "ppt1")) /\
  exists base,
    build_pptx_choose_template TEMPLATE_DIR path_exists
      (Some (configuration_dict c)) = Some base /\
    (default [] (theme_id c) = [] -> base = from_file (lit "ppt1")) /\
    (forall t, theme_id c = Some t -> t ∈ TEMPLATE_IDS -> base = from_file t) /\
    (forall t, theme_id c = Some t -> t <> [] -> t ∉ TEMPLATE_IDS ->
               base = DefaultPresentation).
Proof.
  intros from_file.
  split; [intros t; apply validation_errors_theme|].
  split; [apply validation_errors_no_theme|].
  assert (Hppt1 : forall config,
    truthy (dict_get (default [] config) (lit "theme_id") JNull) = false ->
    build_pptx_choose_template TEMPLATE_DIR path_exists config
    = Some (from_file (lit "ppt1"))).
  { intros config Hfalse. unfold build_pptx_choose_template, py_or.
    rewrite Hfalse. cbn [template_map_get mbind option_bind].
    rewrite assoc_get_template_map.
    rewrite bool_decide_eq_true_2 by (by vm_compute; left).
    rewrite template_file_nonempty. unfold from_file.
    by destruct (path_exists _). }
  split; [by apply Hppt1|].
  assert (Hget : dict_get (default [] (Some (configuration_dict c)))
                   (lit "theme_id") JNull = opt_json (theme_id c)) by done.
  destruct (theme_id c) as [[|a t]|] eqn:Htheme.
  - exists (from_file (lit "ppt1")).
    split; [apply Hppt1; by rewrite Hget|]. split; [done|].
    split; [|by intros ? [= <-]].
    intros t [= <-] Hin. vm_compute in Hin. apply list_elem_of_In in Hin.
    simpl in Hin. repeat (destruct Hin as [Hin|Hin]; [discriminate|]). done.
  - unfold build_pptx_choose_template, py_or. rewrite Hget.
    cbn [opt_json truthy nonempty is_empty negb template_map_get mbind
         option_bind].
    rewrite assoc_get_template_map.
    destruct (bool_decide (a :: t ∈ TEMPLATE_IDS)) eqn:Hin.
    + apply bool_decide_eq_true in Hin. rewrite template_file_nonempty.
      exists (from_file (a :: t)).
      split; [unfold from_file; by destruct (path_exists _)|].
      split; [done|]. split; [by intros ? [= <-]|].
      by intros ? [= <-] _ ?.
    + apply bool_decide_eq_false in Hin. exists DefaultPresentation.
      split; [done|]. split; [done|]. split; [|done].
      by intros ? [= <-] ?.
  - exists (from_file (lit "ppt1")).
    split; [apply Hppt1; by rewrite Hget|]. done.
Qed.

Lemma C10_theme_fallback_witness :
  let c := mkConfiguration (Some (lit "neon")) None None None None in
  theme_id c = Some (lit "neon") /\ lit "neon" <> [] /\
  (lit "neon" ∉ TEMPLATE_IDS) /\
  build_pptx_choose_template (lit "/srv/ppt_templates") (fun _ => true)
    (Some (configuration_dict c)) = Some DefaultPresentation.
Proof.
  intros c. split; [reflexivity|]. split; [discriminate|].
  assert (Hout : lit "neon" ∉ TEMPLATE_IDS).
  { intros Hin. apply list_elem_of_In in Hin. vm_compute in Hin.
    repeat (destruct Hin as [Hin|Hin]; [discriminate|]). exact Hin. }
  split; [exact Hout|].
  destruct (C10_theme_fallback (lit "/srv/ppt_templates") (fun _ => true) c)
    as (_ & _ & _ & base & Hbase & _ & _ & Hunknown).
  rewrite Hbase. f_equal.
  apply (Hunknown (lit "neon")); [reflexivity|discriminate|exact Hout].
Defined.

(** C10 as stated fails: with a [theme_id] outside the known template IDs
    and the "ppt1" file in place, the deck starts from the blank default
    presentation, not from the "ppt1" template. *)
Lemma C10_counterexample :
  let c := mkConfiguration (Some (lit "neon")) None None None None in
  let TEMPLATE_DIR := lit "/srv/ppt_templates" in
  let path_exists := fun _ : str => true in
  validation_errors c = [] /\
  (lit "neon" ∉ TEMPLATE_IDS) /\
  path_exists (template_file TEMPLATE_DIR (lit "ppt1")) = true /\
  build_pptx_choose_template TEMPLATE_DIR path_exists
    (Some (configuration_dict c)) = Some DefaultPresentation /\
  DefaultPresentation <> FromTemplate (template_file TEMPLATE_DIR (lit "ppt1")).
Proof.
  intros c TEMPLATE_DIR path_exists. split; [reflexivity|]. split.
  { intros Hin. apply list_elem_of_In in Hin. vm_compute in Hin.
    repeat (destruct Hin as [Hin|Hin]; [discriminate|]). exact Hin. }
  split; [reflexivity|]. split; [by vm_compute|discriminate].
Qed.

(** * Further properties of the code *)

(** ** Captions in paragraphs *)

Lemma join_app sep (a b : list str) :
  a <> [] -> b <> [] -> join sep (a ++ b) = join sep a ++ sep ++ join sep b.
Proof.
  induction a as [|x a IH]; [done|]. intros _ Hb.
  destruct a as [|y a].
  - destruct b as [|z b]; [done|]. done.
  - change ((x :: y :: a) ++ b) with (x :: (y :: a) ++ b).
    change ((y :: a) ++ b) with (y :: (a ++ b)) at 1.
    rewrite (join_cons sep x y (a ++ b)).
    change (y :: a ++ b) with ((y :: a) ++ b).
    rewrite IH by done. rewrite join_cons. by rewrite <- !app_assoc.
Qed.

Lemma tidy_with_period p : tidy p -> p <> [] ->
  tidy (with_period p) /\ with_period p <> [].
Proof.
  intros Ht Hne. destruct (tidy_nonempty p Ht Hne) as [H1 H2].
  split; [|by destruct p].
  right. split.
  - by apply starts_clean_app.
  - unfold with_period. by rewrite rev_app_distr.
Qed.

Lemma strip_join_tidy sep (ls : list str) :
  ls <> [] -> Forall (fun l => tidy l /\ l <> []) ls ->
  strip (join sep ls) = join sep ls.
Proof.
  intros Hne Hall. apply tidy_strip. right.
  destruct ls as [|l ls]; [done|].
  split.
  - destruct (join_head sep l ls) as [b ->].
    apply starts_clean_app. apply Forall_cons in Hall as [[Ht Hn] _].
    by apply tidy_nonempty.
  - destruct (last (l :: ls)) as [z|] eqn:Hlast.
    + destruct (join_last sep (l :: ls) z Hlast) as [a ->].
      rewrite rev_app_distr. apply starts_clean_app.
      assert (z ∈ l :: ls) as Hin.
      { apply last_Some in Hlast as [l' ->]. set_solver. }
      pose proof (proj1 (Forall_forall _ _) Hall z Hin) as [Ht Hn].
      by apply tidy_nonempty.
    + by apply last_None in Hlast.
Qed.

Lemma buffer_step_flush m k (full : list (list str)) (buf : list str) :
  1 <= m -> k = m * len full + len buf -> len buf < m ->
  ((k + 1) mod m =? 0) = (len buf + 1 =? m).
Proof.
  intros Hm -> Hlt.
  replace (m * len full + len buf + 1) with (len buf + 1 + len full * m) by lia.
  rewrite Z.mod_add by lia.
  assert (0 <= len buf) by (unfold len; lia).
  destruct (Z.eq_dec (len buf + 1) m) as [E|E].
  - rewrite E, Z.mod_same by lia. by rewrite !Z.eqb_refl.
  - rewrite Z.mod_small by lia.
    destruct (Z.eqb_spec (len buf + 1) 0); [lia|].
    by destruct (Z.eqb_spec (len buf + 1) m).
Qed.

Lemma buffer_step_eq m ps buf k p :
  m <> 0 ->
  buffer_step m (ps, buf) (k, p)
  = if (k + 1) mod m =? 0
    then Some (ps ++ [strip (join (lit " ") (buf ++ [with_period p]))], [])
    else Some (ps, buf ++ [with_period p]).
Proof. intros Hm. unfold buffer_step. by destruct (Z.eqb_spec m 0). Qed.

Lemma len_app {A} (a b : list A) : len (a ++ b) = len a + len b.
Proof. unfold len. rewrite length_app. lia. Qed.

Lemma len_nil {A} : len (@nil A) = 0.
Proof. done. Qed.

Lemma len_cons {A} (x : A) l : len (x :: l) = len l + 1.
Proof. unfold len. simpl. lia. Qed.

Lemma len_nonneg {A} (l : list A) : 0 <= len l.
Proof. unfold len. lia. Qed.

Ltac len_simpl :=
  repeat first [rewrite len_app in * | rewrite len_cons in *];
  change (@len _ []) with 0 in *.

Lemma buffer_fold m l :
  1 <= m ->
  forall k (full : list (list str)) (buf : list str),
    k = m * len full + len buf -> len buf < m ->
    Forall (fun p => tidy p /\ p <> []) l ->
    Forall (fun s => tidy s /\ s <> []) buf ->
    exists full' buf',
      fold_opt (buffer_step m) (enum_from k l) (map (join (lit " ")) full, buf)
      = Some (map (join (lit " ")) (full ++ full'), buf') /\
      Forall (fun ch : list str => len ch = m) full' /\
      len buf' < m /\
      concat full' ++ buf' = buf ++ map with_period l /\
      len full' = (len buf + len l) / m /\
      len buf' = (len buf + len l) mod m.
Proof.
  intros Hm. induction l as [|p l IH]; intros k full buf Hk Hlt Hl Hbuf.
  - exists [], buf. rewrite !app_nil_r. simpl.
    assert (0 <= len buf) by (unfold len; lia).
    replace (len buf + len []) with (len buf) by (unfold len; simpl; lia).
    rewrite Z.div_small, Z.mod_small by lia.
    repeat split; try done.
  - apply Forall_cons in Hl as [[Hpt Hpn] Hl].
    destruct (tidy_with_period p Hpt Hpn) as [Hwt Hwn].
    assert (Forall (fun s => tidy s /\ s <> []) (buf ++ [with_period p])) as Hbuf2.
    { apply Forall_app. split; [done|]. by constructor. }
    pose proof (len_nonneg buf). pose proof (len_nonneg l).
    cbn [enum_from fold_opt]. rewrite buffer_step_eq by lia.
    rewrite (buffer_step_flush m k full buf Hm Hk Hlt).
    destruct (Z.eqb_spec (len buf + 1) m) as [E|E]; cbn [mbind option_bind].
    + rewrite (strip_join_tidy (lit " ") (buf ++ [with_period p]))
        by (done || by destruct buf).
      replace (map (join (lit " ")) full ++ [join (lit " ") (buf ++ [with_period p])])
        with (map (join (lit " ")) (full ++ [buf ++ [with_period p]]))
        by (by rewrite map_app).
      destruct (IH (k + 1) (full ++ [buf ++ [with_period p]]) [])
        as (full' & buf' & Hfold & Hfull & Hlt' & Hcat & Hnf & Hnb);
        [len_simpl; lia|len_simpl; lia|done|done|].
      exists ((buf ++ [with_period p]) :: full'), buf'.
      rewrite Hfold. rewrite <- app_assoc. split; [done|].
      split; [constructor; [len_simpl; lia|done]|].
      split; [done|].
      split; [simpl; rewrite <- !app_assoc; simpl in Hcat; by rewrite Hcat|].
      len_simpl.
      replace (len buf + (len l + 1)) with (len l + 1 * m) by lia.
      rewrite Z.div_add, Z.mod_add by lia.
      replace (0 + len l) with (len l) in * by lia.
      split; [lia|done].
    + destruct (IH (k + 1) full (buf ++ [with_period p]))
        as (full' & buf' & Hfold & Hfull & Hlt' & Hcat & Hnf & Hnb);
        [len_simpl; lia|len_simpl; lia|done|done|].
      exists full', buf'. rewrite Hfold. split; [done|].
      split; [done|]. split; [done|].
      split; [by rewrite Hcat, <- app_assoc|].
      len_simpl.
      replace (len buf + (len l + 1)) with (len buf + (0 + 1) + len l) by lia.
      done.
Qed.

Lemma elem_of_split_infix sep s x : x ∈ split sep s -> occurs_in x s.
Proof.
  intros Hin. destruct (join_elem_infix [sep] _ _ Hin) as (a & b & E).
  rewrite join_split in E. by exists a, b.
Qed.

Lemma not_elem_of_occurs (c : ascii) w s : occurs_in w s -> c ∉ s -> c ∉ w.
Proof. intros (a & b & ->) Hc Hin. apply Hc. set_solver. Qed.

Lemma caption_parts_good text :
  Forall (fun p => tidy p /\ p <> [] /\ ("."%char ∉ p) /\ (NL ∉ p))
    (caption_parts text).
Proof.
  unfold caption_parts. rewrite map_fmap. apply Forall_fmap, Forall_forall.
  intros x [Hne Hin]%list_elem_of_filter. simpl.
  assert (occurs_in (strip x) x) as Hocc
    by (destruct (strip_infix x) as (a & b & E); by exists a, b).
  split; [apply strip_tidy|]. split.
  - intros E. by rewrite E in Hne.
  - split.
    + apply (not_elem_of_occurs _ _ x Hocc).
      exact (proj1 (Forall_forall _ _) (split_no_sep "."%char _) x Hin).
    + apply (not_elem_of_occurs _ _ x Hocc).
      apply (not_elem_of_occurs _ _ _ (elem_of_split_infix _ _ _ Hin)).
      apply replace_single_absent.
      apply not_elem_of_cons. split; [done|apply not_elem_of_nil].
Qed.

Lemma join_concat sep (chunks : list (list str)) :
  Forall (fun ch => ch <> []) chunks ->
  join sep (map (join sep) chunks) = join sep (concat chunks).
Proof.
  induction 1 as [|ch chunks Hch Hall IH]; [done|].
  destruct chunks as [|ch' chunks].
  - simpl. by rewrite app_nil_r.
  - change (map (join sep) (ch :: ch' :: chunks))
      with (join sep ch :: join sep ch' :: map (join sep) chunks).
    rewrite join_cons.
    change (join sep ch' :: map (join sep) chunks)
      with (map (join sep) (ch' :: chunks)).
    rewrite IH. change (concat (ch :: ch' :: chunks))
      with (ch ++ concat (ch' :: chunks)).
    rewrite join_app; [done|done|].
    apply Forall_cons in Hall as [Hch' _]. simpl. by destruct ch'.
Qed.

Lemma split_into_paragraphs_shape text m :
  1 <= m ->
  exists (full : list (list str)) (rest : list str),
    _split_into_paragraphs text m
    = Some (map (join (lit " "))
              (full ++ if nonempty rest then [rest] else [])) /\
    concat full ++ rest = map with_period (caption_parts text) /\
    Forall (fun ch : list str => len ch = m) full /\
    len full = len (caption_parts text) / m /\
    len rest = len (caption_parts text) mod m.
Proof.
  intros Hm. unfold _split_into_paragraphs.
  destruct (is_empty text) eqn:Hempty.
  - destruct text; [|done]. exists [], []. by repeat split.
  - rewrite enumerate_enum_from.
    destruct (buffer_fold m (caption_parts text) Hm 0 [] [])
      as (full & rest & Hfold & Hfull & Hlt & Hcat & Hnf & Hnr);
      [len_simpl; lia|len_simpl; lia| |done|].
    { eapply Forall_impl; [apply caption_parts_good|].
      by intros p (Ht & Hn & _). }
    change (map (join (lit " ")) []) with (@nil str) in Hfold.
    rewrite Hfold. cbn [mbind option_bind].
    exists full, rest. len_simpl. simpl in Hcat. rewrite Z.add_0_l in Hnf, Hnr.
    split; [|done].
    destruct rest as [|s rest]; cbn [nonempty is_empty negb].
    + by rewrite !app_nil_r.
    + rewrite strip_join_tidy; [by rewrite !map_app|done|].
      assert (Forall (fun s => tidy s /\ s <> [])
                (map with_period (caption_parts text))) as Hgood.
      { rewrite map_fmap. apply Forall_fmap.
        eapply Forall_impl; [apply caption_parts_good|].
        intros p (Ht & Hn & _). by apply tidy_with_period. }
      rewrite <- Hcat in Hgood. by apply Forall_app in Hgood as [_ Hgood].
Qed.

Lemma ceil_div n m :
  1 <= m -> 0 <= n ->
  n / m + (if n mod m =? 0 then 0 else 1) = (n + m - 1) / m.
Proof.
  intros Hm Hn.
  pose proof (Z.div_mod n m ltac:(lia)) as E.
  pose proof (Z.mod_pos_bound n m ltac:(lia)) as B.
  destruct (Z.eqb_spec (n mod m) 0) as [Hr|Hr].
  - replace (n + m - 1) with (m - 1 + (n / m) * m) by lia.
    rewrite Z.div_add, (Z.div_small (m - 1) m) by lia. lia.
  - replace (n + m - 1) with (n mod m - 1 + (n / m + 1) * m) by lia.
    rewrite Z.div_add, (Z.div_small (n mod m - 1) m) by lia. lia.
Qed.

Lemma elem_of_join (c : ascii) sep (ls : list str) :
  c ∈ join sep ls -> c ∈ sep \/ exists l, l ∈ ls /\ c ∈ l.
Proof.
  induction ls as [|l ls IH]; [by intros ?%elem_of_nil|].
  destruct ls as [|l' ls].
  - intros Hin. right. exists l. split; [left|done].
  - rewrite join_cons. intros [Hin|[Hin|Hin]%elem_of_app]%elem_of_app.
    + right. exists l. split; [left|done].
    + by left.
    + destruct (IH Hin) as [?|(x & Hx & Hc)]; [by left|].
      right. exists x. split; [by right|done].
Qed.

Lemma join_nonempty sep (l : str) ls : l <> [] -> join sep (l :: ls) <> [].
Proof. destruct (join_head sep l ls) as [b ->]. by destruct l. Qed.

(** X1.  For a group size [m] of at least 1, [_split_into_paragraphs]
    returns the sentences of the text (its non-blank pieces between
    periods, stripped, each followed by a period) in consecutive groups,
    the sentences of a group joined by single blanks: every group but the
    last has exactly [m] sentences and the last between 1 and [m], so there
    are ceil(n / m) paragraphs for [n] sentences; joined by blanks, the
    paragraphs read the same whatever [m] is. *)
Theorem split_into_paragraphs_groups (text : str) (m : Z) :
  1 <= m ->
  let sentences := map (fun p => p ++ lit ".") (caption_parts text) in
  exists (paragraphs : list str) (groups : list (list str)),
    _split_into_paragraphs text m = Some paragraphs /\
    paragraphs = map (join (lit " ")) groups /\
    concat groups = sentences /\
    len paragraphs = (len sentences + m - 1) / m /\
    (forall (i : nat) g, groups !! i = Some g ->
       1 <= len g <= m /\ ((S i < length groups)%nat -> len g = m)) /\
    join (lit " ") paragraphs = join (lit " ") sentences.
Proof.
  intros Hm sentences.
  destruct (split_into_paragraphs_shape text m Hm)
    as (full & rest & Hsplit & Hcat & Hfull & Hnf & Hnr).
  fold with_period in sentences. fold sentences in Hcat.
  assert (len sentences = len (caption_parts text)) as Hlen
    by (unfold sentences, len; by rewrite length_map).
  pose proof (Z.mod_pos_bound (len (caption_parts text)) m ltac:(lia)) as B.
  set (groups := full ++ (if nonempty rest then [rest] else [])) in *.
  assert (concat groups = sentences) as Hgroups.
  { unfold groups. rewrite concat_app, <- Hcat. destruct rest; simpl; [done|].
    by rewrite app_nil_r. }
  assert (forall (i : nat) g, groups !! i = Some g ->
            1 <= len g <= m /\ ((S i < length groups)%nat -> len g = m))
    as Hsizes.
  { intros i g Hg. unfold groups in *. apply lookup_app_Some in Hg as [Hg|[Hi Hg]].
    - pose proof (proj1 (Forall_lookup _ _) Hfull i g Hg) as ->. lia.
    - destruct rest as [|s rest]; [done|]. simpl in Hg.
      destruct (i - length full)%nat eqn:Ei; [|done]. injection Hg as <-.
      split; [len_simpl; pose proof (len_nonneg rest); lia|].
      rewrite length_app. simpl. lia. }
  exists (map (join (lit " ")) groups), groups.
  split; [done|]. split; [done|]. split; [done|]. split; [|split; [done|]].
  - rewrite Hlen, <- ceil_div by (done || apply len_nonneg).
    rewrite <- Hnf, <- Hnr. unfold len at 1. rewrite length_map. fold (len groups).
    unfold groups. len_simpl.
    destruct rest as [|s rest]; cbn [nonempty is_empty negb]; len_simpl;
      [done|].
    pose proof (len_nonneg rest).
    destruct (Z.eqb_spec (len rest + 1) 0); lia.
  - rewrite join_concat, Hgroups; [done|].
    apply Forall_lookup. intros i g Hg ->.
    destruct (Hsizes i [] Hg) as [Hs _]. len_simpl. lia.
Qed.

Lemma split_into_paragraphs_groups_witness :
  let text := lit "One. Two.  Three" in
  1 <= 2 /\
  exists (paragraphs : list str) (groups : list (list str)),
    _split_into_paragraphs text 2 = Some paragraphs /\
    paragraphs = map (join (lit " ")) groups /\
    concat groups = map (fun p => p ++ lit ".") (caption_parts text).
Proof.
  intros text. split; [lia|].
  destruct (split_into_paragraphs_groups text 2)
    as (ps & groups & H1 & H2 & H3 & _); [lia|].
  by exists ps, groups.
Defined.

Lemma elem_of_concat {A} (x : A) (ls : list (list A)) :
  x ∈ concat ls <-> exists l, l ∈ ls /\ x ∈ l.
Proof.
  induction ls as [|l ls IH]; simpl.
  - split; [by intros ?%elem_of_nil|by intros (l & ?%elem_of_nil & _)].
  - rewrite elem_of_app, IH. split.
    + intros [Hx|(l' & Hl & Hx)]; [exists l|exists l']; (split; [|done]);
        [left|by right].
    + intros (l' & [->|Hl]%elem_of_cons & Hx); [by left|].
      right. by exists l'.
Qed.

(** X2.  For a group size of at least 1, every paragraph that
    [_split_into_paragraphs] returns is non-empty, has no blank at either
    end, holds no newline, and ends with a period (also when the text had
    none). *)
Theorem split_into_paragraphs_clean (text : str) (m : Z) :
  1 <= m ->
  exists paragraphs : list str,
    _split_into_paragraphs text m = Some paragraphs /\
    forall p, p ∈ paragraphs ->
      p <> [] /\ strip p = p /\ (NL ∉ p) /\ last p = Some "."%char.
Proof.
  intros Hm.
  destruct (split_into_paragraphs_shape text m Hm)
    as (full & rest & Hsplit & Hcat & Hfull & Hnf & Hnr).
  eexists. split; [exact Hsplit|].
  intros p Hp. rewrite map_fmap in Hp.
  apply list_elem_of_fmap in Hp as (g & -> & Hg).
  assert (g <> [] /\ forall s, s ∈ g -> s ∈ map with_period (caption_parts text))
    as [Hne Hsub].
  { rewrite <- Hcat. apply elem_of_app in Hg as [Hg|Hg].
    - split.
      + intros ->. pose proof (proj1 (Forall_forall _ _) Hfull [] Hg) as E.
        cbv beta in E. len_simpl. lia.
      + intros s Hs. apply elem_of_app. left.
        apply elem_of_concat. by exists g.
    - destruct rest as [|s0 rest]; [by apply elem_of_nil in Hg|].
      apply list_elem_of_singleton in Hg as ->. split; [done|].
      intros s Hs. apply elem_of_app. by right. }
  assert (forall s, s ∈ g ->
            tidy s /\ s <> [] /\ (NL ∉ s) /\ last s = Some "."%char) as Hgood.
  { intros s Hs. apply Hsub in Hs. rewrite map_fmap in Hs.
    apply list_elem_of_fmap in Hs as (q & -> & Hq).
    pose proof (proj1 (Forall_forall _ _) (caption_parts_good text) q Hq)
      as (Ht & Hn & _ & Hnl).
    destruct (tidy_with_period q Ht Hn) as [Hwt Hwn].
    split; [done|]. split; [done|]. split.
    - unfold with_period. intros [?|Hin]%elem_of_app; [done|].
      by apply list_elem_of_singleton in Hin.
    - unfold with_period. apply last_snoc. }
  destruct g as [|s g]; [done|].
  split; [|split; [|split]].
  - apply join_nonempty. by apply (Hgood s); left.
  - apply strip_join_tidy; [done|]. apply Forall_forall.
    intros x Hx. by destruct (Hgood x Hx) as (? & ? & _).
  - intros [Hin|(x & Hx & Hin)]%elem_of_join.
    + by apply list_elem_of_singleton in Hin.
    + by destruct (Hgood x Hx) as (_ & _ & Hnl & _).
  - destruct (last (s :: g)) as [z|] eqn:Hlast;
      [|by apply last_None in Hlast].
    destruct (join_last (lit " ") (s :: g) z Hlast) as [a ->].
    assert (z ∈ s :: g) as Hz.
    { apply last_Some in Hlast as [l' E]. rewrite E.
      apply elem_of_app. right. left. }
    destruct (Hgood z Hz) as (_ & Hzn & _ & Hzl).
    apply last_Some in Hzl as [z' ->]. rewrite app_assoc. apply last_snoc.
Qed.

Lemma split_into_paragraphs_clean_witness :
  1 <= 2 /\
  exists paragraphs : list str,
    _split_into_paragraphs (lit "a.  b") 2 = Some paragraphs /\
    forall p, p ∈ paragraphs ->
      p <> [] /\ strip p = p /\ (NL ∉ p) /\ last p = Some "."%char.
Proof.
  split; [lia|]. apply (split_into_paragraphs_clean (lit "a.  b") 2). lia.
Defined.

Lemma buffer_step_opp m st ip : buffer_step (- m) st ip = buffer_step m st ip.
Proof.
  destruct st as [ps buf], ip as [i p]. unfold buffer_step.
  destruct (Z.eqb_spec m 0) as [->|Hm]; [done|].
  destruct (Z.eqb_spec (- m) 0) as [|_]; [lia|].
  destruct (Z.eqb_spec ((i + 1) mod m) 0) as [E|E].
  - by rewrite (Z.mod_opp_r_z _ _ Hm E).
  - destruct (Z.eqb_spec ((i + 1) mod - m) 0) as [E'|E']; [|done].
    exfalso. apply E. rewrite <- (Z.opp_involutive m) at 1.
    apply Z.mod_opp_r_z; [lia|done].
Qed.

Lemma fold_opt_ext {S X} (f g : S -> X -> option S) l s :
  (forall s x, f s x = g s x) -> fold_opt f l s = fold_opt g l s.
Proof.
  intros Hfg. revert s. induction l as [|x l IH]; intros s; [done|].
  simpl. rewrite Hfg. destruct (g s x); simpl; [apply IH|done].
Qed.

(** X3.  With a group size of 0, [_split_into_paragraphs] raises (the
    [ZeroDivisionError] of [%]) exactly when the text holds a non-blank
    piece between periods, and returns no paragraph otherwise; a negative
    group size gives what its absolute value gives. *)
Theorem split_into_paragraphs_edge (text : str) :
  _split_into_paragraphs text 0
  = (if is_empty (caption_parts text) then Some [] else None) /\
  forall m, _split_into_paragraphs text (- m) = _split_into_paragraphs text m.
Proof.
  split.
  - unfold _split_into_paragraphs. destruct text as [|c text]; [done|].
    cbn [is_empty]. rewrite enumerate_enum_from.
    by destruct (caption_parts (c :: text)).
  - intros m. unfold _split_into_paragraphs.
    by rewrite (fold_opt_ext _ _ _ _ (buffer_step_opp m)).
Qed.

(** ** The document builder and the export *)







Lemma clean_section_content_clean doc_title heading raw :
  let out := _clean_section_content doc_title heading raw in
  (CR ∉ out) /\ contains ESCAPED_NL out = false /\ strip out = out.
Proof.
  intros out. subst out.
  destruct (clean_section_content_fixed doc_title heading raw)
    as (c & Hfixed & ->).
  pose proof Hfixed as (Hok & _).
  destruct (join_lines_clean c Hok) as [Hcr Hesc].
  split; [done|]. split; [done|]. by apply (fixed_lines_strip_join _ _ _ Hfixed).
Qed.





















(** ** Placeholder sections at export *)

Lemma startswith_elem (c : ascii) s p :
  startswith s p = true -> c ∈ p -> c ∈ s.
Proof.
  revert s. induction p as [|a p IH]; intros s Hs Hc; [by apply elem_of_nil in Hc|].
  destruct s as [|b s]; [done|]. simpl in Hs.
  apply andb_true_iff in Hs as [Hab Hs]. apply bool_decide_eq_true in Hab as ->.
  apply elem_of_cons in Hc as [->|Hc]; [left|right; by apply IH].
Qed.

Lemma fallback_first_line_kept dt hl :
  dt <> lower FALLBACK_FIRST_LINE -> hl <> lower FALLBACK_FIRST_LINE ->
  strip_meta_lines dt hl FALLBACK_LINES = FALLBACK_LINES.
Proof.
  intros Hdt Hhl. unfold FALLBACK_LINES. cbn [strip_meta_lines].
  assert (strip FALLBACK_FIRST_LINE = FALLBACK_FIRST_LINE) as -> by (by vm_compute).
  assert (is_empty FALLBACK_FIRST_LINE = false) as -> by (by vm_compute).
  assert (is_meta_line dt hl (lower FALLBACK_FIRST_LINE) = false) as ->; [|done].
  unfold is_meta_line.
  rewrite (bool_decide_eq_false_2 (lower FALLBACK_FIRST_LINE = dt)) by done.
  rewrite (bool_decide_eq_false_2 (lower FALLBACK_FIRST_LINE = hl)) by done.
  assert (startswith (lower FALLBACK_FIRST_LINE) (lit "page ") = false) as ->
    by (by vm_compute).
  assert (startswith (lower FALLBACK_FIRST_LINE) (lit "section ") = false) as ->
    by (by vm_compute).
  cbn [andb orb].
  destruct (startswith (lower FALLBACK_FIRST_LINE) (hl ++ lit ":")) eqn:Hs;
    [|by rewrite andb_false_r].
  exfalso.
  assert (":"%char ∈ lower FALLBACK_FIRST_LINE) as Hin.
  { apply (startswith_elem _ _ _ Hs). apply elem_of_app. right. left. }
  assert (":"%char ∉ lower FALLBACK_FIRST_LINE) as Hn
    by (apply (bool_decide_eq_false_1 (":"%char ∈ lower FALLBACK_FIRST_LINE));
        by vm_compute).
  by apply Hn.
Qed.

Lemma fallback_body_lines :
  map strip (split NL FALLBACK_BODY) = FALLBACK_LINES.
Proof. by vm_compute. Qed.

Lemma fallback_lines_clean :
  strip (join [NL]
           (trim_trailing_blank
              (trim_leading_blank (collapse_blank_lines FALLBACK_LINES))))
  = FALLBACK_BODY.
Proof. by vm_compute. Qed.

(** X8.  The content of a placeholder section starts with a copy of its
    heading, and the text normalizer of the export drops that copy: for a
    heading without line breaks, and a document title and a heading other
    than the first sentence of the placeholder, the normalized content is
    exactly the fixed body. *)
Theorem fallback_heading_line_dropped (doc_title h : str) :
  (NL ∉ h) -> (CR ∉ h) -> contains ESCAPED_NL h = false ->
  lower (strip doc_title) <> lower FALLBACK_FIRST_LINE ->
  lower (strip h) <> lower FALLBACK_FIRST_LINE ->
  _clean_section_content doc_title h (fallback_content h) = FALLBACK_BODY.
Proof.
  intros Hnl Hcr Hesc Hdt Hh.
  rewrite clean_section_content_lines.
  assert (is_empty (fallback_content h) = false) as -> by (by destruct h).
  assert (normalize_newlines (fallback_content h) = fallback_content h) as ->.
  { apply normalize_newlines_id.
    - unfold fallback_content. intros [?|Hin]%elem_of_app; [done|].
      assert (CR ∉ [NL; NL] ++ FALLBACK_BODY) as Hn
        by (apply (bool_decide_eq_false_1 (CR ∈ [NL; NL] ++ FALLBACK_BODY));
            by vm_compute).
      by apply Hn.
    - unfold fallback_content.
      change (h ++ [NL; NL] ++ FALLBACK_BODY) with (h ++ NL :: (NL :: FALLBACK_BODY)).
      apply contains_sep; [|done|done|by vm_compute].
      apply (bool_decide_eq_false_1 (NL ∈ ESCAPED_NL)). by vm_compute. }
  unfold fallback_content.
  change (h ++ [NL; NL] ++ FALLBACK_BODY) with (h ++ NL :: (NL :: FALLBACK_BODY)).
  rewrite (split_app_sep NL h _ Hnl).
  change (NL :: FALLBACK_BODY) with ([] ++ NL :: FALLBACK_BODY).
  rewrite (split_app_sep NL [] FALLBACK_BODY) by apply not_elem_of_nil.
  cbn [map]. rewrite fallback_body_lines.
  unfold clean_lines.
  assert (strip_meta_lines (lower (strip doc_title)) (lower (strip h))
            (strip h :: strip [] :: FALLBACK_LINES) = FALLBACK_LINES) as ->;
    [|apply fallback_lines_clean].
  cbn [strip_meta_lines]. rewrite strip_strip.
  change (strip (strip [])) with (@nil ascii). cbn [is_empty].
  rewrite (fallback_first_line_kept _ _ Hdt Hh).
  destruct (is_empty (strip h)) eqn:Hblank; [done|].
  assert (is_meta_line (lower (strip doc_title)) (lower (strip h))
            (lower (strip h)) = true) as ->.
  { unfold is_meta_line.
    rewrite (bool_decide_eq_true_2 (lower (strip h) = lower (strip h))) by done.
    by rewrite !orb_true_r. }
  assert (any_nonblank (strip [] :: FALLBACK_LINES) = true) as -> by (by vm_compute).
  done.
Qed.

Lemma fallback_heading_line_dropped_witness :
  let h := lit "Market Overview" in
  let doc_title := lit "India EV Market" in
  (NL ∉ h) /\ (CR ∉ h) /\ contains ESCAPED_NL h = false /\
  lower (strip doc_title) <> lower FALLBACK_FIRST_LINE /\
  lower (strip h) <> lower FALLBACK_FIRST_LINE /\
  _clean_section_content doc_title h (fallback_content h) = FALLBACK_BODY.
Proof.
  intros h doc_title.
  assert (NL ∉ h) as H1
    by (apply (bool_decide_eq_false_1 (NL ∈ h)); by vm_compute).
  assert (CR ∉ h) as H2
    by (apply (bool_decide_eq_false_1 (CR ∈ h)); by vm_compute).
  assert (contains ESCAPED_NL h = false) as H3 by (by vm_compute).
  assert (lower (strip doc_title) <> lower FALLBACK_FIRST_LINE) as H4
    by (by vm_compute).
  assert (lower (strip h) <> lower FALLBACK_FIRST_LINE) as H5
    by (by vm_compute).
  split; [exact H1|]. split; [exact H2|]. split; [exact H3|].
  split; [exact H4|]. split; [exact H5|].
  exact (fallback_heading_line_dropped doc_title h H1 H2 H3 H4 H5).
Defined.

(** ** The shape of the slides, and their images *)

Section SlideShapeFacts.
Variable py_repr : json -> str.

Lemma eq_str_true v text : eq_str v text = true -> v = JStr text.
Proof. destruct v; try done. simpl. by intros ->%bool_decide_eq_true. Qed.

Lemma normalize_item_shape item :
  Forall (fun s => slide_shape false s = true) (normalize_item py_repr item).
Proof.
  destruct item as [| | | | | |d]; try by constructor.
  unfold normalize_item.
  destruct (dict_lookup (lit "layout") d) as [layout|].
  - repeat (destruct (eq_str layout _); [by repeat constructor|]).
    constructor.
  - destruct (dict_get d (lit "content") JNull);
      try (destruct (truthy (dict_get d (lit "image") JNull)));
      by repeat constructor.
Qed.

Lemma exact_count_shape_ok normalized_slides num_slides :
  Forall (fun s => slide_shape false s = true) normalized_slides ->
  Forall (fun s => slide_shape false s = true)
    (exact_count normalized_slides num_slides).
Proof.
  intros Hall. unfold exact_count.
  destruct (_ <? num_slides).
  - apply Forall_app. split; [done|]. rewrite map_fmap. apply Forall_fmap.
    by apply Forall_true.
  - destruct (num_slides <? _); [|done]. unfold slice_to.
    destruct (0 <=? num_slides); by apply Forall_take.
Qed.

Lemma has_key_set d key v : has_key key (dict_set d key v) = true.
Proof. unfold has_key. by rewrite dict_lookup_set_eq. Qed.

Lemma has_key_set_ne d key key' v :
  key <> key' -> has_key key' (dict_set d key v) = has_key key' d.
Proof. intros. unfold has_key. by rewrite dict_lookup_set_ne. Qed.

Lemma dict_set_same d key v :
  dict_lookup key d = Some v -> dict_set d key v = d.
Proof.
  induction d as [|[k v'] d IH]; [done|]. simpl.
  destruct (bool_decide (k = key)) eqn:E.
  - by intros [= ->].
  - intros H. by rewrite IH.
Qed.

Lemma ensure_image_keys topic idx s s' :
  ensure_image topic (idx, s) = Some s' ->
  (forall k, k <> lit "caption" -> k <> lit "image_url" ->
             dict_lookup k s' = dict_lookup k s) /\
  (has_key (lit "caption") s = true -> has_key (lit "caption") s' = true) /\
  (eq_str (dict_get s (lit "layout") JNull) LAYOUT_IMAGE = true ->
   has_key (lit "caption") s' = true /\ has_key (lit "image_url") s' = true).
Proof.
  unfold ensure_image.
  destruct (eq_str (dict_get s (lit "layout") JNull) LAYOUT_IMAGE) eqn:Himg.
  2:{ by intros [= <-]. }
  destruct (negb (truthy (dict_get s (lit "caption") JNull))
            || negb (is_str (dict_get s (lit "caption") JNull))) eqn:Hcap.
  - destruct (slice_120 _) as [c|]; [|done]. simpl. intros [= <-].
    split; [intros k H1 H2; by rewrite !dict_lookup_set_ne|].
    rewrite has_key_set, has_key_set_ne, has_key_set by done. done.
  - simpl. intros [= <-].
    split; [intros k H1 H2; by rewrite !dict_lookup_set_ne|].
    rewrite has_key_set, has_key_set_ne by done.
    assert (has_key (lit "caption") s = true) as Hhas; [|done].
    apply orb_false_iff in Hcap as [Ht _]. apply negb_false_iff in Ht.
    unfold has_key, dict_get in *.
    by destruct (dict_lookup (lit "caption") s).
Qed.

Lemma ensure_image_shape topic idx s s' :
  ensure_image topic (idx, s) = Some s' ->
  slide_shape false s = true -> slide_shape true s' = true.
Proof.
  intros Hens. destruct (ensure_image_keys _ _ _ _ Hens) as (Hkeys & Hcap & Himg).
  assert (forall k, k <> lit "caption" -> k <> lit "image_url" ->
                    has_key k s' = has_key k s) as Hhas
    by (intros k H1 H2; unfold has_key; by rewrite Hkeys).
  unfold slide_shape. rewrite Hkeys by done.
  rewrite (Hhas (lit "title")), (Hhas (lit "bullets")), (Hhas (lit "left")),
    (Hhas (lit "right")) by done.
  destruct (dict_lookup (lit "layout") s) as [[| | | |layout| |]|] eqn:Hl;
    try done.
  destruct (bool_decide (layout = LAYOUT_IMAGE)) eqn:E; [|done].
  destruct Himg as [-> ->]; [unfold dict_get; by rewrite Hl|].
  intros [Ht _]%andb_true_iff. by rewrite Ht.
Qed.

Lemma generate_content_lookup items topic num_slides slides (idx : nat) s :
  generate_content_with_gemini py_repr (JList items) topic num_slides
  = Some slides ->
  slides !! idx = Some s ->
  exists s0,
    exact_count (concat (map (normalize_item py_repr) items)) num_slides !! idx
    = Some s0 /\
    ensure_image topic (Z.of_nat idx, s0) = Some s.
Proof.
  intros Hgen Hs. simpl in Hgen. apply mapM_Some_1 in Hgen.
  destruct (Forall2_lookup_r _ _ _ _ _ Hgen Hs) as ([i s0] & Hl & Hens).
  rewrite enumerate_enum_from, lookup_enum_from_nat in Hl.
  destruct (exact_count _ _ !! idx) as [s0'|]; [|done].
  simpl in Hl. injection Hl as <- <-. rewrite Z.add_0_l in Hens.
  by exists s0'.
Qed.

Lemma generate_content_shape data topic num_slides slides s :
  generate_content_with_gemini py_repr data topic num_slides = Some slides ->
  s ∈ slides -> slide_shape true s = true.
Proof.
  intros Hgen Hs. destruct data; try done.
  apply list_elem_of_lookup in Hs as [idx Hs].
  destruct (generate_content_lookup _ _ _ _ _ _ Hgen Hs) as (s0 & Hs0 & Hens).
  apply (ensure_image_shape _ _ _ _ Hens).
  apply list_elem_of_lookup_2 in Hs0. revert s0 Hs0 Hens.
  assert (Forall (fun s => slide_shape false s = true)
            (exact_count (concat (map (normalize_item py_repr) items)) num_slides))
    as Hall.
  { apply exact_count_shape_ok, Forall_concat. rewrite map_fmap.
    apply Forall_fmap, Forall_true. intros item. apply normalize_item_shape. }
  intros s0 Hs0 _. exact (proj1 (Forall_forall _ _) Hall s0 Hs0).
Qed.

End SlideShapeFacts.

Lemma has_key_Some key d : has_key key d = true <-> is_Some (dict_lookup key d).
Proof.
  unfold has_key. destruct (dict_lookup key d); split; try done;
    by intros [? ?].
Qed.

(** X9.  Every slide that the slide normalizer returns has one of the
    four known layouts and a title entry; a bullet slide has [bullets], a
    two-column slide [left] and [right], an image slide [caption] and
    [image_url]. *)
Theorem generate_content_slide_schema (py_repr : json -> str) (data : json)
    (topic : str) (num_slides : Z) (slides : list dict) (s : dict) :
  generate_content_with_gemini py_repr data topic num_slides = Some slides ->
  s ∈ slides ->
  exists layout,
    dict_lookup (lit "layout") s = Some (JStr layout) /\
    is_Some (dict_lookup (lit "title") s) /\
    (layout = LAYOUT_TITLE \/
     (layout = LAYOUT_BULLET /\ is_Some (dict_lookup (lit "bullets") s)) \/
     (layout = LAYOUT_TWO_COLUMN /\ is_Some (dict_lookup (lit "left") s) /\
      is_Some (dict_lookup (lit "right") s)) \/
     (layout = LAYOUT_IMAGE /\ is_Some (dict_lookup (lit "caption") s) /\
      is_Some (dict_lookup (lit "image_url") s))).
Proof.
  intros Hgen Hs.
  pose proof (generate_content_shape py_repr _ _ _ _ _ Hgen Hs) as Hshape.
  unfold slide_shape in Hshape.
  destruct (dict_lookup (lit "layout") s) as [[| | | |layout| |]|]; try done.
  exists layout. split; [done|].
  apply andb_true_iff in Hshape as [Ht Hshape].
  split; [by apply has_key_Some|].
  destruct (bool_decide (layout = LAYOUT_IMAGE)) eqn:E1.
  { apply bool_decide_eq_true in E1.
    apply andb_true_iff in Hshape as [Hc Hu]. simpl in Hu.
    right. right. right. by rewrite <- !has_key_Some. }
  destruct (bool_decide (layout = LAYOUT_TITLE)) eqn:E2.
  { apply bool_decide_eq_true in E2. by left. }
  destruct (bool_decide (layout = LAYOUT_BULLET)) eqn:E3.
  { apply bool_decide_eq_true in E3. right. left. by rewrite <- has_key_Some. }
  apply andb_true_iff in Hshape as [[E4 Hl]%andb_true_iff Hr].
  apply bool_decide_eq_true in E4. right. right. left.
  by rewrite <- !has_key_Some.
Qed.

Lemma generate_content_slide_schema_witness :
  let data := JList [JDict [(lit "title", JStr (lit "Intro"));
                            (lit "content", JList [JStr (lit "a")])]] in
  let s := bullet_slide (JStr (lit "Intro")) (JList [JStr (lit "a")]) in
  generate_content_with_gemini (fun _ => []) data (lit "AI") 1 = Some [s] /\
  s ∈ [s] /\
  exists layout,
    dict_lookup (lit "layout") s = Some (JStr layout) /\
    is_Some (dict_lookup (lit "title") s).
Proof.
  intros data s.
  assert (generate_content_with_gemini (fun _ => []) data (lit "AI") 1
          = Some [s]) as Hgen by (vm_compute; reflexivity).
  assert (s ∈ [s]) as Hs by left.
  split; [exact Hgen|]. split; [exact Hs|].
  destruct (generate_content_slide_schema (fun _ => []) data (lit "AI") 1 [s] s
              Hgen Hs) as (layout & H1 & H2 & _).
  by exists layout.
Defined.

Lemma isalnum_not_space c : isalnum c = true -> isspace c = false.
Proof. destruct c as [[] [] [] [] [] [] [] []]; by vm_compute. Qed.

Lemma filter_filter_weaker (P Q : ascii -> bool) (l : str) :
  (forall c, Q c = true -> P c = true) ->
  filter (fun c => P c) (filter (fun c => Q c) l) = filter (fun c => Q c) l.
Proof.
  intros HPQ. induction l as [|c l IH]; [done|].
  destruct (Q c) eqn:E.
  - rewrite (filter_cons_True (fun c => Q c)) by (rewrite E; exact I).
    rewrite filter_cons_True by (rewrite (HPQ c E); exact I). by rewrite IH.
  - rewrite (filter_cons_False (fun c => Q c)) by (rewrite E; intros []).
    exact IH.
Qed.

Lemma image_url_untouched seed :
  seed = filter (fun c => isalnum c) seed ->
  let url := image_url_of_seed seed in
  strip_chars (lit "()[]{}.,;") (filter (fun c => negb (isspace c)) url) = url /\
  startswith url (lit "http") = true /\ nonempty url = true.
Proof.
  intros Hseed url. subst url. unfold image_url_of_seed.
  split; [|done].
  rewrite !filter_app.
  assert (filter (fun c => negb (isspace c)) seed = seed) as ->.
  { rewrite Hseed. apply filter_filter_weaker.
    intros c Hc. by rewrite (isalnum_not_space c Hc). }
  assert (filter (fun c => negb (isspace c)) (lit "https://picsum.photos/seed/")
          = lit "https://picsum.photos/seed/") as -> by (by vm_compute).
  assert (filter (fun c => negb (isspace c)) (lit "/1200/800")
          = lit "/1200/800") as -> by (by vm_compute).
  unfold strip_chars.
  assert (forall t, lstrip_chars (lit "()[]{}.,;")
                      (lit "https://picsum.photos/seed/" ++ t)
                    = lit "https://picsum.photos/seed/" ++ t) as -> by done.
  rewrite !rev_app_distr, <- !app_assoc.
  assert (forall t, lstrip_chars (lit "()[]{}.,;") (rev (lit "/1200/800") ++ t)
                    = rev (lit "/1200/800") ++ t) as -> by done.
  by rewrite !rev_app_distr, !rev_involutive, <- !app_assoc.
Qed.

(** X10.  The [image_url] that the slide normalizer gives to an image
    slide goes through the clean-up of [build_pptx] unchanged and is read
    by [_get_tmp_image_path] as a remote location: the picture fetched is
    the one of the seed made from the topic and the position. *)
Theorem generated_image_is_fetched (py_repr : json -> str) (data : json)
    (topic : str) (num_slides : Z) (slides : list dict) (idx : nat)
    (s : dict) :
  generate_content_with_gemini py_repr data topic num_slides = Some slides ->
  slides !! idx = Some s ->
  eq_str (dict_get s (lit "layout") JNull) LAYOUT_IMAGE = true ->
  build_pptx_image py_repr s
  = RemoteUrl (lit "https://picsum.photos/seed/"
               ++ filter (fun c => isalnum c)
                    (topic ++ lit "_" ++ decimal (Z.of_nat idx))
               ++ lit "/1200/800").
Proof.
  intros Hgen Hs Himg. destruct data; try done.
  destruct (generate_content_lookup py_repr _ _ _ _ _ _ Hgen Hs)
    as (s0 & _ & Hens).
  destruct (ensure_image_spec topic _ _ _ Hens Himg) as (Hurl & _).
  rewrite image_seed_stripped in Hurl by lia.
  set (seed := filter (fun c => isalnum c)
                 (topic ++ lit "_" ++ decimal (Z.of_nat idx))) in *.
  fold (image_url_of_seed seed).
  assert (seed = filter (fun c => isalnum c) seed) as Hseed
    by (unfold seed; by rewrite filter_filter_weaker).
  destruct (image_url_untouched seed Hseed) as (Hclean & Hhttp & Hne).
  unfold build_pptx_image, dict_get. rewrite Hurl. cbn [default truthy py_str].
  unfold id.
  change (truthy (JStr (image_url_of_seed seed)))
    with (nonempty (image_url_of_seed seed)).
  change (py_str py_repr (JStr (image_url_of_seed seed)))
    with (image_url_of_seed seed).
  by rewrite Hne, Hclean, Hne, Hhttp.
Qed.

Lemma generated_image_is_fetched_witness :
  let data :=
    JList [JDict [(lit "layout", JStr (lit "image"));
                  (lit "title", JStr (lit "Chart"))]] in
  let s :=
    [(lit "layout", JStr (lit "image")); (lit "title", JStr (lit "Chart"));
     (lit "caption", JStr (lit "Chart"));
     (lit "image_url", JStr (lit "https://picsum.photos/seed/AI0/1200/800"))] in
  generate_content_with_gemini (fun _ => []) data (lit "A I") 1 = Some [s] /\
  [s] !! 0%nat = Some s /\
  eq_str (dict_get s (lit "layout") JNull) LAYOUT_IMAGE = true /\
  build_pptx_image (fun _ => []) s
  = RemoteUrl (lit "https://picsum.photos/seed/"
               ++ filter (fun c => isalnum c)
                    (lit "A I" ++ lit "_" ++ decimal (Z.of_nat 0))
               ++ lit "/1200/800").
Proof.
  intros data s.
  assert (Hgen : generate_content_with_gemini (fun _ => []) data (lit "A I") 1
                 = Some [s]) by (vm_compute; reflexivity).
  split; [exact Hgen|]. split; [reflexivity|]. split; [reflexivity|].
  apply (generated_image_is_fetched (fun _ => []) data (lit "A I") 1 [s] 0%nat s
           Hgen); reflexivity.
Defined.

(** ** The prompt-echo filter *)

Lemma dict_lookup_pop_eq d key : dict_lookup key (dict_pop d key) = None.
Proof.
  unfold dict_pop. induction d as [|[k v] d IH]; [done|].
  destruct (decide (k = key)) as [->|Hne].
  - by rewrite filter_cons_False by (by intros H).
  - rewrite filter_cons_True by done. simpl.
    by rewrite bool_decide_eq_false_2.
Qed.

Lemma dict_lookup_pop_ne d key key' :
  key <> key' -> dict_lookup key' (dict_pop d key) = dict_lookup key' d.
Proof.
  intros Hne. unfold dict_pop. induction d as [|[k v] d IH]; [done|].
  destruct (decide (k = key)) as [->|Hk].
  - rewrite filter_cons_False by (by intros H). simpl.
    by rewrite bool_decide_eq_false_2.
  - rewrite filter_cons_True by done. simpl. by rewrite IH.
Qed.

Lemma clean_text_key_other pc d k k' :
  k <> k' -> dict_lookup k' (clean_text_key pc d k) = dict_lookup k' d.
Proof.
  intros Hne. unfold clean_text_key.
  destruct (dict_lookup k d) as [[| | | |v| |]|]; try done.
  destruct (is_empty (strip v)); [by apply dict_lookup_pop_ne|].
  destruct (echoes pc (strip v)); [by apply dict_lookup_pop_ne|].
  by apply dict_lookup_set_ne.
Qed.

Lemma fold_clean_other pc ks d k' :
  k' ∉ ks ->
  dict_lookup k' (fold_left (clean_text_key pc) ks d) = dict_lookup k' d.
Proof.
  revert d. induction ks as [|k ks IH]; intros d Hnot; [done|].
  apply not_elem_of_cons in Hnot as [Hne Hnot]. simpl.
  rewrite IH by done. by apply clean_text_key_other.
Qed.

Lemma clean_bullets_other pc d k' :
  k' <> lit "bullets" ->
  dict_lookup k' (clean_bullets pc d) = dict_lookup k' d.
Proof.
  intros Hne. unfold clean_bullets.
  destruct (dict_lookup (lit "bullets") d) as [[| | | | |bs|]|]; try done.
  by apply dict_lookup_set_ne.
Qed.

(** [squeeze_newlines] *)
Lemma squeeze_go_cons_other run c s :
  c <> NL ->
  squeeze_newlines_go run (c :: s)
  = replicate (Nat.min run 2) NL ++ c :: squeeze_newlines_go 0 s.
Proof. intros Hc. simpl. by rewrite bool_decide_eq_false_2. Qed.

Lemma squeeze_go_cons_nl run s :
  squeeze_newlines_go run (NL :: s) = squeeze_newlines_go (S run) s.
Proof. done. Qed.

Lemma squeeze_go_S_head run s :
  exists t, squeeze_newlines_go (S run) s = NL :: t.
Proof.
  revert run. induction s as [|c s IH]; intros run.
  - simpl. destruct run as [|[|run]]; simpl; eauto.
  - destruct (decide (c = NL)) as [->|Hc].
    + rewrite squeeze_go_cons_nl. apply IH.
    + rewrite squeeze_go_cons_other by done.
      destruct run as [|[|run]]; simpl; eauto.
Qed.

Lemma contains_replicate_nl k : (k <= 2)%nat -> contains NL3 (replicate k NL) = false.
Proof. intros Hk. destruct k as [|[|[|k]]]; try done. lia. Qed.

Lemma squeeze_go_no_triple run s : contains NL3 (squeeze_newlines_go run s) = false.
Proof.
  revert run. induction s as [|c s IH]; intros run.
  - simpl. apply contains_replicate_nl. lia.
  - destruct (decide (c = NL)) as [->|Hc].
    + rewrite squeeze_go_cons_nl. apply IH.
    + rewrite squeeze_go_cons_other by done.
      apply contains_sep; [|done|apply contains_replicate_nl; lia|apply IH].
      unfold NL3. intros Hin. apply Hc.
      repeat (apply elem_of_cons in Hin as [->|Hin]; [done|]).
      by apply elem_of_nil in Hin.
Qed.

Lemma squeeze_go_last run s c :
  c <> NL -> last (squeeze_newlines_go run (s ++ [c])) = Some c.
Proof.
  intros Hc. revert run. induction s as [|a s IH]; intros run.
  - simpl. rewrite bool_decide_eq_false_2 by done.
    change (c :: replicate (0 `min` 2) NL) with [c]. by rewrite last_snoc.
  - change ((a :: s) ++ [c]) with (a :: (s ++ [c])).
    destruct (decide (a = NL)) as [->|Ha].
    + rewrite squeeze_go_cons_nl. apply IH.
    + rewrite squeeze_go_cons_other by done.
      by rewrite last_app_cons, last_cons, IH.
Qed.

Lemma starts_clean_not_nl c s : starts_clean (c :: s) = true -> c <> NL.
Proof. simpl. intros H ->. done. Qed.

Lemma squeeze_newlines_tidy val :
  tidy val -> val <> [] ->
  squeeze_newlines val <> [] /\ strip (squeeze_newlines val) = squeeze_newlines val.
Proof.
  intros Ht Hne. destruct (tidy_nonempty val Ht Hne) as [Hs He].
  destruct val as [|c s]; [done|].
  pose proof (starts_clean_not_nl c s Hs) as Hc.
  unfold squeeze_newlines. rewrite squeeze_go_cons_other by done.
  cbn [Nat.min replicate app]. split; [done|].
  apply tidy_strip. right. split; [done|].
  destruct (rev (c :: s)) as [|z r] eqn:Hrev.
  { apply (f_equal (@length ascii)) in Hrev. by rewrite length_rev in Hrev. }
  assert (c :: s = rev r ++ [z]) as Hval.
  { rewrite <- (rev_involutive (c :: s)), Hrev. done. }
  pose proof (starts_clean_not_nl z r He) as Hz.
  pose proof (squeeze_go_last 0 (rev r) z Hz) as Hlast.
  rewrite <- Hval, squeeze_go_cons_other in Hlast by done.
  cbn [Nat.min replicate app] in Hlast.
  apply last_Some in Hlast as [pre ->].
  rewrite rev_app_distr. simpl in He |- *. done.
Qed.

Lemma squeeze_startswith p :
  NL ∉ p ->
  forall s,
    startswith (lower (squeeze_newlines_go 0 s)) p = startswith (lower s) p.
Proof.
  induction p as [|a p IH]; intros Hnl s; [done|].
  apply not_elem_of_cons in Hnl as [Ha Hnl].
  destruct s as [|c s]; [done|].
  destruct (decide (c = NL)) as [->|Hc].
  - rewrite squeeze_go_cons_nl. destruct (squeeze_go_S_head 0 s) as [t ->].
    simpl. by rewrite !(bool_decide_eq_false_2 (a = _)) by (by intros ->).
  - rewrite squeeze_go_cons_other by done. cbn [Nat.min replicate app].
    simpl. by rewrite IH.
Qed.

Lemma echoes_squeeze pc val :
  NL ∉ pc -> echoes pc (squeeze_newlines val) = echoes pc val.
Proof. intros Hnl. unfold echoes, squeeze_newlines. by rewrite squeeze_startswith. Qed.

Lemma clean_text_key_self pc d k v :
  dict_lookup k (clean_text_key pc d k) = Some (JStr v) -> clean_field pc v.
Proof.
  unfold clean_text_key.
  destruct (dict_lookup k d) as [[| | | |v0| |]|] eqn:Hk; try (rewrite Hk; done).
  destruct (is_empty (strip v0)) eqn:Hempty;
    [by rewrite dict_lookup_pop_eq|].
  destruct (echoes pc (strip v0)) eqn:Hecho;
    [by rewrite dict_lookup_pop_eq|].
  rewrite dict_lookup_set_eq. intros [= <-].
  assert (strip v0 <> []) as Hne by (by destruct (strip v0)).
  destruct (squeeze_newlines_tidy (strip v0) (strip_tidy v0) Hne) as [H1 H2].
  split; [done|]. split; [done|]. split; [apply squeeze_go_no_triple|].
  intros Hnl. by rewrite echoes_squeeze.
Qed.

Lemma fold_clean_fields pc ks d k v :
  NoDup ks -> k ∈ ks ->
  dict_lookup k (fold_left (clean_text_key pc) ks d) = Some (JStr v) ->
  clean_field pc v.
Proof.
  intros Hnd. revert d. induction Hnd as [|k1 ks Hk1 Hnd IH]; intros d Hin;
    [by apply elem_of_nil in Hin|].
  simpl. destruct (decide (k = k1)) as [->|Hne].
  - rewrite fold_clean_other by done. apply clean_text_key_self.
  - apply elem_of_cons in Hin as [?|Hin]; [done|]. by apply IH.
Qed.

Lemma NoDup_TEXT_KEYS : NoDup TEXT_KEYS.
Proof. apply (bool_decide_unpack _). by vm_compute. Qed.

Lemma clean_bullet_spec pc b0 b :
  JStr b ∈ clean_bullet pc b0 ->
  b <> [] /\ strip b = b /\ echoes pc b = false.
Proof.
  destruct b0 as [| | | |b1| |]; simpl;
    try (intros Hin; apply list_elem_of_singleton in Hin; done).
  destruct (is_empty (strip b1)) eqn:E1; [by intros ?%elem_of_nil|].
  destruct (echoes pc (strip b1)) eqn:E2; [by intros ?%elem_of_nil|].
  intros [= ->]%list_elem_of_singleton.
  split; [by destruct (strip b1)|]. split; [apply strip_strip|done].
Qed.

Lemma clean_bullets_spec pc d bs b :
  dict_lookup (lit "bullets") (clean_bullets pc d) = Some (JList bs) ->
  JStr b ∈ bs ->
  b <> [] /\ strip b = b /\ echoes pc b = false.
Proof.
  unfold clean_bullets.
  destruct (dict_lookup (lit "bullets") d) as [[| | | | |bs0|]|] eqn:Hb;
    try (rewrite Hb; done).
  rewrite dict_lookup_set_eq. intros [= <-] Hin.
  apply elem_of_concat in Hin as (l & Hl & Hin).
  rewrite map_fmap in Hl. apply list_elem_of_fmap in Hl as (b0 & -> & _).
  by apply (clean_bullet_spec pc b0).
Qed.

Section SanitizerFacts.
Variable py_repr : json -> str.

Lemma has_text_text_bullet_slide t :
  strip t = t -> t <> [] -> has_text py_repr (text_bullet_slide t) = true.
Proof.
  intros Ht Hne. unfold has_text, HAS_TEXT_KEYS, text_bullet_slide.
  cbn [existsb]. unfold dict_get.
  repeat match goal with
         | |- context [dict_lookup ?k ?d] =>
             let r := eval vm_compute in (dict_lookup k d) in
             change (dict_lookup k d) with r
         end.
  cbn [default]. unfold id, value_has_text. cbn [existsb py_str].
  rewrite Ht. destruct t; [done|]. by rewrite !orb_true_r.
Qed.

Lemma sanitize_slide_length pc slide :
  (length (sanitize_slide py_repr pc slide) <= 1)%nat.
Proof.
  unfold sanitize_slide.
  destruct slide; repeat (match goal with |- context [if ?b then _ else _] =>
                                      destruct b end); simpl; lia.
Qed.

Lemma sanitize_slide_dict pc slide x :
  x ∈ sanitize_slide py_repr pc slide ->
  exists d, x = JDict d /\ has_text py_repr d = true /\
    ((exists t, d = text_bullet_slide t /\ t <> [] /\ strip t = t /\
                echoes pc t = false) \/
     (exists slide0, slide = JDict slide0 /\
        d = clean_bullets pc (fold_left (clean_text_key pc) TEXT_KEYS slide0))).
Proof.
  assert (forall s0,
            x ∈ (if nonempty (strip s0)
                 then if echoes pc (strip s0) then []
                      else [JDict (text_bullet_slide (strip s0))]
                 else []) ->
            exists d, x = JDict d /\ has_text py_repr d = true /\
              ((exists t, d = text_bullet_slide t /\ t <> [] /\ strip t = t /\
                          echoes pc t = false) \/
               (exists slide0, slide = JDict slide0 /\
                  d = clean_bullets pc
                        (fold_left (clean_text_key pc) TEXT_KEYS slide0))))
    as Htext.
  { intros s0 Hin.
    destruct (nonempty (strip s0)) eqn:Hne; [|by apply elem_of_nil in Hin].
    destruct (echoes pc (strip s0)) eqn:Hecho; [by apply elem_of_nil in Hin|].
    apply list_elem_of_singleton in Hin as ->.
    assert (strip s0 <> []) as Hne' by (by destruct (strip s0)).
    eexists. split; [done|].
    split; [apply has_text_text_bullet_slide; [apply strip_strip|done]|].
    left. exists (strip s0). by rewrite strip_strip. }
  unfold sanitize_slide.
  destruct slide as [| | | |s0|items|slide0]; try (by apply Htext).
  - intros Hin. apply (Htext s0).
    unfold nonempty. by destruct (is_empty (strip s0)).
  - destruct (has_text _ _) eqn:Hhas; [|by intros ?%elem_of_nil].
    intros ->%list_elem_of_singleton. eexists. split; [done|].
    split; [done|]. right. by exists slide0.
Qed.

Lemma sanitize_slide_of_dict pc slide0 x :
  x ∈ sanitize_slide py_repr pc (JDict slide0) ->
  x = JDict (clean_bullets pc (fold_left (clean_text_key pc) TEXT_KEYS slide0)).
Proof.
  unfold sanitize_slide. destruct (has_text _ _); [|by intros ?%elem_of_nil].
  by intros ->%list_elem_of_singleton.
Qed.


Lemma length_concat_le {A B} (f : A -> list B) (l : list A) :
  (forall x, (length (f x) <= 1)%nat) ->
  (length (concat (map f l)) <= length l)%nat.
Proof.
  intros Hf. induction l as [|x l IH]; simpl; [lia|].
  rewrite length_app. pose proof (Hf x). lia.
Qed.

Lemma sanitize_elem content original_prompt x :
  x ∈ _sanitize_generated_content py_repr content original_prompt ->
  exists slide, slide ∈ default [] content /\
    x ∈ sanitize_slide py_repr (prompt_check_of original_prompt) slide.
Proof.
  unfold _sanitize_generated_content.
  destruct (nonempty (default [] content)); [|by intros ?%elem_of_nil].
  intros (l & Hl & Hin)%elem_of_concat.
  rewrite map_fmap in Hl. apply list_elem_of_fmap in Hl as (slide & -> & Hs).
  by exists slide.
Qed.

Lemma sanitize_length content original_prompt :
  len (_sanitize_generated_content py_repr content original_prompt)
  <= len (default [] content).
Proof.
  unfold _sanitize_generated_content, len.
  destruct (nonempty (default [] content)); [|simpl; lia].
  apply inj_le, length_concat_le, sanitize_slide_length.
Qed.

End SanitizerFacts.

(** X11.  The prompt-echo filter returns no more slides than it is
    given; every slide it returns is a dictionary with some non-blank text
    in one of the keys it looks at; and every string among the bullets of a
    returned slide is non-empty, stripped, and does not begin with the
    prompt. *)
Theorem sanitize_keeps_slides_with_text (py_repr : json -> str)
    (content : option (list json)) (original_prompt : option str) :
  let cleaned := _sanitize_generated_content py_repr content original_prompt in
  len cleaned <= len (default [] content) /\
  forall x, x ∈ cleaned ->
    exists d, x = JDict d /\ has_text py_repr d = true /\
      forall bs b, dict_lookup (lit "bullets") d = Some (JList bs) ->
        JStr b ∈ bs ->
        b <> [] /\ strip b = b /\
        echoes (prompt_check_of original_prompt) b = false.
Proof.
  intros cleaned. split; [apply sanitize_length|].
  intros x (slide & _ & Hx)%sanitize_elem.
  destruct (sanitize_slide_dict py_repr _ _ _ Hx)
    as (d & -> & Hhas & [(t & -> & Ht & Hs & He)|(slide0 & -> & ->)]).
  - exists (text_bullet_slide t). split; [done|]. split; [done|].
    intros bs b [= <-] Hb. apply list_elem_of_singleton in Hb as [= ->]. done.
  - eexists. split; [done|]. split; [done|].
    intros bs b Hbs Hb. by apply (clean_bullets_spec _ _ _ _ Hbs).
Qed.

(** X12.  On a list of dictionaries, every slide the prompt-echo filter
    returns comes from a slide of the list; each of its six text fields
    that holds a string holds a non-empty one, with no blank at either end
    and no three newlines in a row, which (for a prompt without newline)
    does not begin with the prompt; and every key other than the six text
    keys and [bullets] has the value it had. *)
Theorem sanitized_text_fields (py_repr : json -> str) (content : list json)
    (original_prompt : option str) (d : dict) :
  Forall (fun x => exists slide, x = JDict slide) content ->
  JDict d ∈ _sanitize_generated_content py_repr (Some content) original_prompt ->
  let prompt_check := prompt_check_of original_prompt in
  exists slide,
    JDict slide ∈ content /\
    (forall k v, k ∈ TEXT_KEYS -> dict_lookup k d = Some (JStr v) ->
       v <> [] /\ strip v = v /\ contains [NL; NL; NL] v = false /\
       ((NL ∉ prompt_check) -> echoes prompt_check v = false)) /\
    (forall k, k ∉ TEXT_KEYS -> k <> lit "bullets" ->
       dict_lookup k d = dict_lookup k slide).
Proof.
  intros Hdicts (slide & Hslide & Hx)%sanitize_elem pc. simpl in Hslide.
  destruct (proj1 (Forall_forall _ _) Hdicts slide Hslide) as [slide0 ->].
  exists slide0. split; [done|].
  assert (d = clean_bullets pc (fold_left (clean_text_key pc) TEXT_KEYS slide0))
    as -> by (apply sanitize_slide_of_dict in Hx; by injection Hx).
  split.
  - intros k v Hk Hv. rewrite clean_bullets_other in Hv.
    + exact (fold_clean_fields pc TEXT_KEYS slide0 k v NoDup_TEXT_KEYS Hk Hv).
    + intros ->. revert Hk.
      apply (bool_decide_eq_false_1 (lit "bullets" ∈ TEXT_KEYS)). by vm_compute.
  - intros k Hk Hb. rewrite clean_bullets_other by done.
    by rewrite fold_clean_other.
Qed.


Lemma sanitized_text_fields_witness :
  let content := [JDict [(lit "layout", JStr (lit "title"));
                         (lit "title", JStr (lit " Solar power "))]] in
  let d := [(lit "layout", JStr (lit "title"));
            (lit "title", JStr (lit "Solar power"))] in
  Forall (fun x => exists slide, x = JDict slide) content /\
  JDict d ∈ _sanitize_generated_content (fun _ => []) (Some content)
              (Some (lit "Wind")) /\
  exists slide,
    JDict slide ∈ content /\
    forall k, k ∉ TEXT_KEYS -> k <> lit "bullets" ->
               dict_lookup k d = dict_lookup k slide.
Proof.
  intros content d.
  assert (Forall (fun x => exists slide, x = JDict slide) content) as H1
    by (constructor; [by eexists|constructor]).
  assert (JDict d ∈ _sanitize_generated_content (fun _ => []) (Some content)
                      (Some (lit "Wind"))) as H2.
  { assert (_sanitize_generated_content (fun _ => []) (Some content)
              (Some (lit "Wind")) = [JDict d]) as -> by (by vm_compute).
    left. }
  split; [exact H1|]. split; [exact H2|].
  destruct (sanitized_text_fields (fun _ => []) content (Some (lit "Wind")) d
              H1 H2)
    as (slide & Hs & _ & Hk).
  by exists slide.
Defined.

(** X13.  What [create_presentation] stores of a generated deck: at most
    [num_slides] slides, each of them a generated slide whose [layout] (one
    of the four known ones), [left], [right] and [image_url] are
    unchanged. *)
Theorem stored_slides_keep_layout (py_repr : json -> str) (data : json)
    (topic : str) (num_slides : Z) (slides : list dict) :
  0 <= num_slides ->
  generate_content_with_gemini py_repr data topic num_slides = Some slides ->
  let stored :=
    _sanitize_generated_content py_repr (Some (map JDict slides)) (Some topic) in
  len stored <= num_slides /\
  forall x, x ∈ stored ->
    exists d s layout,
      x = JDict d /\ s ∈ slides /\
      dict_lookup (lit "layout") d = Some (JStr layout) /\
      layout ∈ [LAYOUT_TITLE; LAYOUT_BULLET; LAYOUT_TWO_COLUMN; LAYOUT_IMAGE] /\
      forall k, k ∈ [lit "layout"; lit "left"; lit "right"; lit "image_url"] ->
                dict_lookup k d = dict_lookup k s.
Proof.
  intros Hn Hgen stored. split.
  - pose proof (sanitize_length py_repr (Some (map JDict slides)) (Some topic))
      as Hle.
    fold stored in Hle. simpl in Hle.
    destruct data; try done.
    pose proof (generate_content_length py_repr _ _ _ _ Hn Hgen) as Hlen.
    unfold len in *. rewrite length_map in Hle. lia.
  - intros x (slide & Hslide & Hx)%sanitize_elem. simpl in Hslide.
    rewrite map_fmap in Hslide. apply list_elem_of_fmap in Hslide as (s & -> & Hs).
    apply sanitize_slide_of_dict in Hx as ->.
    set (pc := prompt_check_of (Some topic)).
    assert (forall k, k ∈ [lit "layout"; lit "left"; lit "right"; lit "image_url"] ->
              dict_lookup k (clean_bullets pc
                               (fold_left (clean_text_key pc) TEXT_KEYS s))
              = dict_lookup k s) as Hkeep.
    { intros k Hk.
      assert ((k ∉ TEXT_KEYS) /\ k <> lit "bullets") as [H1 H2].
      { repeat (apply elem_of_cons in Hk as [->|Hk];
                [split; [apply (bool_decide_eq_false_1 (_ ∈ TEXT_KEYS));
                         by vm_compute|done]|]).
        by apply elem_of_nil in Hk. }
      rewrite clean_bullets_other by done. by rewrite fold_clean_other. }
    pose proof (generate_content_shape py_repr _ _ _ _ _ Hgen Hs) as Hshape.
    unfold slide_shape in Hshape.
    destruct (dict_lookup (lit "layout") s) as [[| | | |layout| |]|] eqn:Hl;
      try done.
    eexists _, s, layout. split; [done|]. split; [done|].
    split; [rewrite Hkeep; [done|left]|]. split; [|done].
    apply andb_true_iff in Hshape as [_ Hshape].
    destruct (bool_decide (layout = LAYOUT_IMAGE)) eqn:E1;
      [apply bool_decide_eq_true in E1 as ->; set_solver|].
    destruct (bool_decide (layout = LAYOUT_TITLE)) eqn:E2;
      [apply bool_decide_eq_true in E2 as ->; set_solver|].
    destruct (bool_decide (layout = LAYOUT_BULLET)) eqn:E3;
      [apply bool_decide_eq_true in E3 as ->; set_solver|].
    apply andb_true_iff in Hshape as [[E4 _]%andb_true_iff _].
    apply bool_decide_eq_true in E4 as ->. set_solver.
Qed.


Lemma stored_slides_keep_layout_witness :
  let data := JList [JDict [(lit "layout", JStr (lit "title"));
                            (lit "title", JStr (lit "Wind"))]] in
  let slides := [title_slide (JStr (lit "Wind"))] in
  0 <= 1 /\
  generate_content_with_gemini (fun _ => []) data (lit "Wind") 1 = Some slides /\
  len (_sanitize_generated_content (fun _ => []) (Some (map JDict slides))
         (Some (lit "Wind"))) <= 1.
Proof.
  intros data slides.
  assert (generate_content_with_gemini (fun _ => []) data (lit "Wind") 1
          = Some slides) as Hgen by (vm_compute; reflexivity).
  split; [lia|]. split; [exact Hgen|].
  exact (proj1 (stored_slides_keep_layout (fun _ => []) data (lit "Wind") 1
                  slides ltac:(lia) Hgen)).
Defined.

(** ** More on the text normalizer and the section splitter *)

Lemma no_double_blank_tail b lines :
  no_double_blank b lines -> no_double_blank false (tail lines).
Proof.
  destruct lines as [|l lines]; [done|]. simpl.
  destruct (is_empty l).
  - intros [_ H]. by apply (no_double_blank_weaken true).
  - done.
Qed.

Lemma triple_newline_lines s :
  contains NL3 s = true -> ~ no_double_blank false (tail (split NL s)).
Proof.
  induction s as [|c s IH]; [done|].
  cbn [contains]. intros H. apply orb_true_iff in H as [Hs|Hc].
  - destruct s as [|c2 [|c3 s]]; simpl in Hs;
      try (by rewrite ?andb_false_r in Hs).
    apply andb_true_iff in Hs as [<-%bool_decide_eq_true Hs].
    apply andb_true_iff in Hs as [<-%bool_decide_eq_true Hs].
    apply andb_true_iff in Hs as [<-%bool_decide_eq_true _].
    change (split NL (NL :: NL :: NL :: s)) with ([] :: [] :: [] :: split NL s).
    cbn [tail no_double_blank is_empty]. intros H. by destruct H as [_ [? _]].
  - specialize (IH Hc). cbn [split].
    destruct (bool_decide (c = NL)).
    + cbn [tail]. intros H. apply IH. by apply (no_double_blank_tail false).
    + destruct (split NL s) as [|h t]; [done|]. exact IH.
Qed.

(** X14.  The text that [_clean_section_content] returns has no carriage
    return and no escaped line break, no blank at either end, never three
    newlines in a row (at most one empty line between two paragraphs), and
    each of its lines is stripped. *)
Theorem clean_section_content_shape (doc_title heading raw : str) :
  let out := _clean_section_content doc_title heading raw in
  (CR ∉ out) /\ contains ESCAPED_NL out = false /\ strip out = out /\
  contains [NL; NL; NL] out = false /\
  forall line, line ∈ split NL out -> strip line = line.
Proof.
  intros out. subst out.
  destruct (clean_section_content_clean doc_title heading raw)
    as (Hcr & Hesc & Hstrip).
  split; [done|]. split; [done|]. split; [done|].
  destruct (clean_section_content_fixed doc_title heading raw)
    as (c & Hfixed & ->).
  destruct Hfixed as (Hok & _ & Hndb & _).
  destruct c as [|l c]; [split; [done|]; by intros line ->%list_elem_of_singleton|].
  assert (split NL (join [NL] (l :: c)) = l :: c) as Hsplit.
  { apply split_join; [done|]. eapply Forall_impl; [exact Hok|].
    by intros x (? & _). }
  split.
  - destruct (contains [NL; NL; NL] (join [NL] (l :: c))) eqn:E; [|done].
    exfalso. apply (triple_newline_lines _ E). rewrite Hsplit.
    by apply (no_double_blank_tail false).
  - rewrite Hsplit. intros line Hline. apply tidy_strip.
    by destruct (proj1 (Forall_forall _ _) Hok line Hline) as (_ & _ & _ & ?).
Qed.

Lemma range_nonpositive a b : b <= a -> range a b = [].
Proof.
  intros H. unfold range. apply length_zero_iff_nil. rewrite length_seqZ. lia.
Qed.

(** X15.  With [parts] of 0 or less [split_section_into_parts] returns
    the empty list, except that [parts = 0] raises ([ZeroDivisionError])
    when the section has a paragraph. *)
Theorem split_nonpositive_parts (section : SectionDict) (parts : Z) :
  parts <= 0 ->
  split_section_into_parts section parts
  = if (parts =? 0) && nonempty (section_paragraphs section) then None
    else Some [].
Proof.
  intros Hparts. unfold split_section_into_parts.
  change (map strip (filter _ (split NL _))) with (section_paragraphs section).
  set (paragraphs := section_paragraphs section).
  rewrite (range_nonpositive 0 parts Hparts).
  unfold nonempty. destruct (is_empty paragraphs) eqn:Hempty.
  - by rewrite andb_false_r.
  - assert ((len paragraphs <? parts) = false) as ->.
    { pose proof (len_nonneg paragraphs). lia. }
    destruct (parts =? 0); done.
Qed.

Lemma split_nonpositive_parts_witness :
  let section := part_dict (lit "H") (lit "One.") in
  0 <= 0 /\ split_section_into_parts section 0 = None.
Proof.
  intros section. split; [lia|].
  rewrite (split_nonpositive_parts section 0) by lia. by vm_compute.
Defined.

Lemma emit_app {X} (g : Z -> Z -> X) w l1 l2 idx :
  emit g w (l1 ++ l2) idx = emit g w l1 idx ++ emit g w l2 (advance w l1 idx).
Proof.
  revert idx. induction l1 as [|i l1 IH]; intros idx; [done|].
  simpl. by rewrite IH.
Qed.

Lemma lookup_emit_seqZ {X} (g : Z -> Z -> X) w (n i : nat) :
  (i < n)%nat ->
  emit g w (seqZ 0 (Z.of_nat n)) 0 !! i
  = Some (g (Z.of_nat i) (advance w (seqZ 0 (Z.of_nat i)) 0)).
Proof.
  intros Hi.
  replace (Z.of_nat n) with (Z.of_nat i + Z.of_nat (n - i)) by lia.
  rewrite seqZ_app by lia. rewrite emit_app.
  rewrite lookup_app_r by (rewrite length_emit, length_seqZ; lia).
  rewrite length_emit, length_seqZ.
  replace (i - Z.to_nat (Z.of_nat i))%nat with 0%nat by lia.
  rewrite seqZ_cons by lia. cbn [emit lookup list_lookup]. done.
Qed.

Lemma section_paragraphs_good section :
  Forall (fun p => tidy p /\ p <> []) (section_paragraphs section).
Proof.
  unfold section_paragraphs. rewrite map_fmap. apply Forall_fmap, Forall_forall.
  intros x [Hne _]%list_elem_of_filter. simpl.
  split; [apply strip_tidy|]. intros E. by rewrite E in Hne.
Qed.

(** X16.  A section with at least [parts] paragraphs is split along its
    paragraphs: part [i] is made of whole consecutive paragraphs, joined by
    newlines, [base + 1] of them for the first [rem] parts and [base] for
    the others, in order; no part is empty. *)
Theorem split_by_whole_paragraphs (section : SectionDict) (parts : Z) :
  let paragraphs := section_paragraphs section in
  let base := len paragraphs / parts in
  let rem := len paragraphs mod parts in
  1 <= parts <= len paragraphs ->
  exists out,
    split_section_into_parts section parts = Some out /\
    forall i, 0 <= i < parts ->
      let chunk := slice paragraphs (page_end base rem i)
                     (page_end base rem (i + 1)) in
      len chunk = base + (if i <? rem then 1 else 0) /\
      1 <= len chunk /\
      d_content <$> out !! Z.to_nat i = Some (Some (join [NL] chunk)) /\
      join [NL] chunk <> [].
Proof.
  intros paragraphs base rem Hparts. unfold split_section_into_parts.
  change (map strip (filter _ (split NL _))) with (section_paragraphs section).
  fold paragraphs.
  assert (is_empty paragraphs = false) as ->.
  { destruct paragraphs; [|done]. change (len []) with 0 in Hparts. lia. }
  assert ((len paragraphs <? parts) = false) as -> by lia.
  assert ((parts =? 0) = false) as -> by lia.
  fold base rem.
  set (heading := get_str (d_heading section)).
  rewrite (fold_left_emit _
    (fun i ptr => part_dict (part_heading heading i)
       (strip (join [NL] (slice paragraphs ptr
          (ptr + (base + (if i <? rem then 1 else 0)))))))
    (fun i => base + (if i <? rem then 1 else 0))) by done.
  cbn [app]. eexists. split; [done|].
  intros i Hi.
  set (chunk := slice paragraphs (page_end base rem i)
                  (page_end base rem (i + 1))).
  assert (0 <= base) as Hbase by (apply Z.div_pos; lia).
  assert (1 <= base) as Hbase1.
  { unfold base. apply Z.div_le_lower_bound; lia. }
  pose proof (Z.mod_pos_bound (len paragraphs) parts ltac:(lia)) as Hrem.
  fold rem in Hrem.
  assert (page_end base rem (i + 1)
          = page_end base rem i + (base + (if i <? rem then 1 else 0))) as Hend.
  { rewrite <- (page_end_step base rem i) by lia.
    destruct (i <? rem) eqn:E1, (i + 1 <=? rem) eqn:E2; lia. }
  assert (page_end base rem (i + 1) <= len paragraphs) as Hle.
  { rewrite <- (page_end_total (len paragraphs) parts) by lia.
    apply page_end_le; lia. }
  assert (0 <= page_end base rem i) as Hge
    by (apply (page_end_mono base rem i); lia).
  assert (len chunk = base + (if i <? rem then 1 else 0)) as Hlen.
  { pose proof (page_end_mono base rem i ltac:(lia) ltac:(lia) ltac:(lia)).
    unfold chunk. rewrite length_slice by lia. rewrite Hend. lia. }
  assert (1 <= len chunk) as Hlen1 by (destruct (i <? rem); lia).
  split; [done|]. split; [done|].
  assert (Forall (fun p => tidy p /\ p <> []) chunk) as Hgood.
  { unfold chunk, slice. apply Forall_take, Forall_drop, section_paragraphs_good. }
  assert (chunk <> []) as Hne by (intros E; rewrite E in Hlen1; by compute in Hlen1).
  split.
  - unfold range. replace (parts - 0) with (Z.of_nat (Z.to_nat parts)) by lia.
    rewrite lookup_emit_seqZ by lia. simpl.
    rewrite Z2Nat.id by lia. rewrite <- (Z2Nat.id i) at 1 2 by lia.
    rewrite advance_shares by lia. rewrite Z2Nat.id by lia.
    rewrite <- Hend. fold chunk. by rewrite strip_join_tidy.
  - destruct chunk as [|p chunk']; [done|]. apply join_nonempty.
    by apply Forall_cons in Hgood as [[_ ?] _].
Qed.

Lemma split_by_whole_paragraphs_witness :
  let section := part_dict (lit "H") (lit "One." ++ [NL] ++ lit "Two.") in
  1 <= 2 <= len (section_paragraphs section) /\
  exists out,
    split_section_into_parts section 2 = Some out /\
    d_content <$> out !! 0%nat = Some (Some (lit "One.")) /\
    d_content <$> out !! 1%nat = Some (Some (lit "Two.")).
Proof.
  intros section.
  assert (1 <= 2 <= len (section_paragraphs section)) as H
    by (by vm_compute).
  split; [exact H|].
  destruct (split_by_whole_paragraphs section 2 H) as (out & Hout & Hparts).
  exists out. split; [exact Hout|].
  destruct (Hparts 0 ltac:(lia)) as (_ & _ & H0 & _).
  destruct (Hparts 1 ltac:(lia)) as (_ & _ & H1 & _).
  split; [exact H0|exact H1].
Defined.

(** ** More on the page distributor *)

(** X17.  With [num_pages] of 1 or less, [distribute_sections_across_pages]
    returns the single page 1, holding all the sections in their order
    (none for no section). *)
Theorem distribute_single_page (sections : page) (num_pages : Z) :
  num_pages <= 1 ->
  distribute_sections_across_pages sections num_pages
  = Some {[ 1 := sections ]}.
Proof.
  intros Hn. rewrite distribute_clamp.
  replace (Z.max num_pages 1) with 1 by lia.
  destruct sections as [|s sections].
  - by rewrite distribute_empty.
  - set (l := s :: sections).
    destruct (distribute_balanced l 1) as (pages & -> & Hpages).
    { unfold l. len_simpl. pose proof (len_nonneg sections). lia. }
    f_equal. apply map_eq. intros p. rewrite Hpages.
    destruct (decide (p = 1)) as [->|Hp].
    + rewrite lookup_singleton_eq. rewrite decide_True by lia. f_equal.
      replace (1 - 1) with 0 by lia.
      rewrite (page_end_total (len l) 1) by (pose proof (len_nonneg l); lia).
      replace (page_end (len l / 1) (len l mod 1) 0) with 0
        by (rewrite Z.mod_1_r; unfold page_end; lia).
      apply slice_all.
    + rewrite lookup_singleton_ne by done. by rewrite decide_False by lia.
Qed.

Lemma distribute_single_page_witness :
  let sections := [part_dict (lit "A") (lit "a"); part_dict (lit "B") (lit "b")] in
  0 <= 1 /\
  distribute_sections_across_pages sections 0 = Some {[ 1 := sections ]}.
Proof.
  intros sections. split; [lia|]. apply distribute_single_page. lia.
Defined.






Lemma len_map {A B} (f : A -> B) l : len (map f l) = len l.
Proof. unfold len. by rewrite length_map. Qed.











(** ** The generator of Word sections *)

Lemma len_enumerate {A} (l : list A) : len (enumerate l) = len l.
Proof. unfold len. by rewrite length_enumerate. Qed.

Lemma len_range a b : a <= b -> len (range a b) = b - a.
Proof. intros H. unfold len. rewrite length_range. lia. Qed.

Lemma slice_to_take {A} (l : list A) n :
  0 <= n -> slice_to l n = take (Z.to_nat n) l.
Proof. intros Hn. unfold slice_to. by assert ((0 <=? n) = true) as -> by lia. Qed.

Lemma len_take {A} (l : list A) n :
  0 <= n -> len (take (Z.to_nat n) l) = Z.min n (len l).
Proof. intros Hn. unfold len. rewrite length_take. lia. Qed.

Lemma fallback_sections_length topic section_headings target_sections :
  0 <= target_sections ->
  len (_fallback_generate_sections topic section_headings target_sections)
  = if nonempty section_headings
    then Z.min target_sections (len section_headings)
    else target_sections.
Proof.
  intros Ht. unfold _fallback_generate_sections.
  rewrite len_map, len_enumerate, slice_to_take, len_take by done.
  pose proof (len_nonneg section_headings).
  destruct (nonempty section_headings).
  - rewrite slice_to_take, len_take by lia. lia.
  - rewrite len_map, len_range by lia. lia.
Qed.

Lemma elem_of_enumerate_nonneg {A} (l : list A) i x :
  (i, x) ∈ enumerate l -> 0 <= i.
Proof. by intros [? _]%elem_of_enumerate. Qed.

Lemma fallback_sections_order topic section_headings target_sections :
  Forall (fun s => ws_order_index s <> 0)
    (_fallback_generate_sections topic section_headings target_sections).
Proof.
  unfold _fallback_generate_sections. rewrite map_fmap.
  apply Forall_fmap, Forall_forall. intros [i h] Hi%elem_of_enumerate_nonneg.
  simpl. lia.
Qed.

Lemma target_sections_pos section_headings num_pages sections_per_page :
  1 <= target_sections_of section_headings num_pages sections_per_page.
Proof.
  unfold target_sections_of.
  destruct (is_empty section_headings); [|lia].
  destruct sections_per_page as [spp|]; [|lia].
  destruct (negb (spp =? 0) && (0 <? spp)); lia.
Qed.

Lemma fallback_on_target topic section_headings num_pages sections_per_page :
  len (_fallback_generate_sections topic section_headings
         (target_sections_of section_headings num_pages sections_per_page))
  = target_sections_of section_headings num_pages sections_per_page.
Proof.
  pose proof (target_sections_pos section_headings num_pages sections_per_page).
  rewrite fallback_sections_length by lia.
  destruct section_headings as [|h hs]; [done|].
  cbn [nonempty is_empty negb]. unfold target_sections_of.
  cbn [is_empty]. rewrite !len_cons. pose proof (len_nonneg hs). lia.
Qed.

Lemma insert_asc_Permutation x l : insert_asc x l ≡ₚ x :: l.
Proof.
  induction l as [|y l IH]; [done|]. simpl.
  destruct (ws_order_index y <? ws_order_index x); [|done].
  rewrite IH. apply Permutation_swap.
Qed.

Lemma sort_by_order_index_Permutation l : sort_by_order_index l ≡ₚ l.
Proof.
  induction l as [|s l IH]; [done|]. simpl.
  by rewrite insert_asc_Permutation, IH.
Qed.

Section WordSectionFacts.
Variable int_of_text : str -> option Z.
Variable int_of_float : str -> option Z.
Variable expand_answer : Z -> option str.

Lemma expand_short_order ix :
  ws_order_index (expand_short expand_answer ix) = ws_order_index (snd ix).
Proof.
  destruct ix as [idx s]. unfold expand_short. simpl.
  destruct (_ <? 40); [|done].
  destruct (expand_answer idx); [|done].
  by destruct (_ <? _).
Qed.

Lemma fix_order_index_nonzero ix :
  0 <= fst ix -> ws_order_index (fix_order_index ix) <> 0.
Proof.
  destruct ix as [idx s]. unfold fix_order_index. simpl. intros Hidx.
  destruct (Z.eqb_spec (ws_order_index s) 0); simpl; lia.
Qed.

Lemma generate_word_sections_spec topic section_headings num_pages
    sections_per_page first :
  let target_sections :=
    target_sections_of section_headings num_pages sections_per_page in
  let out :=
    generate_word_sections_with_gemini int_of_text int_of_float expand_answer
      topic section_headings num_pages sections_per_page first in
  len out = target_sections /\ Forall (fun s => ws_order_index s <> 0) out.
Proof.
  intros target out. subst out. unfold generate_word_sections_with_gemini.
  fold target.
  pose proof (target_sections_pos section_headings num_pages sections_per_page)
    as Hpos. fold target in Hpos.
  assert (len (_fallback_generate_sections topic section_headings target) = target
          /\ Forall (fun s => ws_order_index s <> 0)
               (_fallback_generate_sections topic section_headings target))
    as Hfallback.
  { split; [apply fallback_on_target|apply fallback_sections_order]. }
  destruct first as [sections|]; [|done].
  destruct (mapM _ sections) as [cleaned|]; [|done].
  set (fixed := map fix_order_index (enumerate (concat cleaned))).
  set (final := map (expand_short expand_answer)
                  (enumerate (sort_by_order_index fixed))).
  assert (Forall (fun s => ws_order_index s <> 0) final) as Hfinal.
  { unfold final. rewrite map_fmap. apply Forall_fmap, Forall_forall.
    intros [i s] Hin. unfold compose. rewrite expand_short_order. cbn [snd].
    apply elem_of_enumerate in Hin as [_ Hin].
    apply list_elem_of_lookup_2 in Hin.
    rewrite sort_by_order_index_Permutation in Hin.
    unfold fixed in Hin. rewrite map_fmap in Hin.
    apply list_elem_of_fmap in Hin as ([j s0] & -> & Hj).
    apply fix_order_index_nonzero. simpl.
    by apply elem_of_enumerate_nonneg in Hj. }
  pose proof (len_nonneg final) as Hnn.
  destruct (Z.ltb_spec (len final) target) as [Hlt|Hge].
  - set (padded := final ++ _).
    assert (len padded = target) as Hlen.
    { unfold padded. rewrite len_app, len_map, len_enumerate.
      rewrite fallback_sections_length by lia. cbn [nonempty is_empty negb]. lia. }
    assert ((target <? len padded) = false) as -> by lia.
    split; [done|]. unfold padded. apply Forall_app. split; [done|].
    rewrite map_fmap. apply Forall_fmap, Forall_forall.
    intros [i e] Hi%elem_of_enumerate_nonneg. simpl. lia.
  - destruct (Z.ltb_spec target (len final)) as [Hgt|Hle].
    + rewrite slice_to_take by lia. split; [rewrite len_take; lia|].
      by apply Forall_take.
    + split; [lia|done].
Qed.

End WordSectionFacts.

(** X19.  [generate_word_sections_with_gemini] returns exactly the number
    of sections it aims at, whatever the model answers and whether or not
    a call fails: one per heading when headings are given, never fewer
    than one; and no section of the result has the order index 0. *)
Theorem word_sections_count (int_of_text int_of_float : str -> option Z)
    (expand_answer : Z -> option str) (topic : str)
    (section_headings : list str) (num_pages : Z)
    (sections_per_page : option Z) (first : option (list json)) :
  let target_sections :=
    target_sections_of section_headings num_pages sections_per_page in
  let out :=
    generate_word_sections_with_gemini int_of_text int_of_float expand_answer
      topic section_headings num_pages sections_per_page first in
  1 <= target_sections /\
  (section_headings <> [] -> target_sections = len section_headings) /\
  len out = target_sections /\
  forall s, s ∈ out -> ws_order_index s <> 0.
Proof.
  intros target out.
  destruct (generate_word_sections_spec int_of_text int_of_float expand_answer
              topic section_headings num_pages sections_per_page first)
    as [Hlen Hall].
  split; [apply target_sections_pos|]. split; [|split; [done|]].
  - intros Hne. unfold target, target_sections_of.
    destruct section_headings as [|h hs]; [done|]. cbn [is_empty].
    rewrite len_cons. pose proof (len_nonneg hs). lia.
  - intros s Hs. exact (proj1 (Forall_forall _ _) Hall s Hs).
Qed.

(** X20.  When the first call of the model fails and headings were
    given, [generate_word_sections_with_gemini] returns one placeholder per
    heading, in order, numbered from 1: the heading, an empty line and the
    fixed body. *)
Theorem word_sections_placeholders (int_of_text int_of_float : str -> option Z)
    (expand_answer : Z -> option str) (topic : str)
    (section_headings : list str) (num_pages : Z)
    (sections_per_page : option Z) :
  section_headings <> [] ->
  generate_word_sections_with_gemini int_of_text int_of_float expand_answer
    topic section_headings num_pages sections_per_page None
  = map (fun ih : Z * str =>
           mkWordSection (JStr (snd ih)) (fst ih + 1)
             (snd ih ++ [NL; NL] ++ FALLBACK_BODY))
      (enumerate section_headings).
Proof.
  intros Hne. unfold generate_word_sections_with_gemini,
    _fallback_generate_sections, target_sections_of.
  destruct section_headings as [|h hs]; [done|].
  cbn [is_empty nonempty negb].
  pose proof (len_nonneg (h :: hs)).
  rewrite !slice_to_take by lia.
  rewrite (take_ge (h :: hs)) by (unfold len in *; lia).
  rewrite (take_ge (h :: hs)) by (unfold len in *; lia). done.
Qed.

Lemma word_sections_placeholders_witness :
  let section_headings := [lit "Scope"; lit "Costs"] in
  section_headings <> [] /\
  generate_word_sections_with_gemini (fun _ => None) (fun _ => None)
    (fun _ => None) (lit "T") section_headings 1 None None
  = [mkWordSection (JStr (lit "Scope")) 1 (lit "Scope" ++ [NL; NL] ++ FALLBACK_BODY);
     mkWordSection (JStr (lit "Costs")) 2 (lit "Costs" ++ [NL; NL] ++ FALLBACK_BODY)].
Proof.
  intros section_headings. split; [done|].
  by rewrite (word_sections_placeholders (fun _ => None) (fun _ => None)
                (fun _ => None) (lit "T") section_headings 1 None).
Defined.

(** X21.  One section of the answer whose content is a value other than
    text (a number, a list, ...) discards the whole answer:
    [generate_word_sections_with_gemini] then returns the placeholders, as
    if the call had failed. *)
Theorem word_sections_discarded (int_of_text int_of_float : str -> option Z)
    (expand_answer : Z -> option str) (topic : str)
    (section_headings : list str) (num_pages : Z)
    (sections_per_page : option Z) (sections : list json) (s : dict) :
  JDict s ∈ sections ->
  truthy (dict_get s (lit "content") (JStr [])) = true ->
  is_str (dict_get s (lit "content") (JStr [])) = false ->
  generate_word_sections_with_gemini int_of_text int_of_float expand_answer
    topic section_headings num_pages sections_per_page (Some sections)
  = _fallback_generate_sections topic section_headings
      (target_sections_of section_headings num_pages sections_per_page).
Proof.
  intros Hs Htruthy Hstr. unfold generate_word_sections_with_gemini.
  rewrite mapM_None_2; [done|].
  apply Exists_exists. exists (JDict s). split; [done|].
  unfold clean_word_section.
  destruct (py_int _ _ _) as [order_index|]; [|done]. cbn [mbind option_bind].
  unfold py_or at 1. rewrite Htruthy.
  by destruct (dict_get s (lit "content") (JStr [])).
Qed.

Lemma word_sections_discarded_witness :
  let good := JDict [(lit "heading", JStr (lit "Scope"));
                     (lit "content", JStr (lit "Real text."))] in
  let s := [(lit "heading", JStr (lit "Costs")); (lit "content", JInt 5)] in
  JDict s ∈ [good; JDict s] /\
  truthy (dict_get s (lit "content") (JStr [])) = true /\
  is_str (dict_get s (lit "content") (JStr [])) = false /\
  generate_word_sections_with_gemini (fun _ => None) (fun _ => None)
    (fun _ => None) (lit "T") [lit "Scope"; lit "Costs"] 1 None
    (Some [good; JDict s])
  = _fallback_generate_sections (lit "T") [lit "Scope"; lit "Costs"]
      (target_sections_of [lit "Scope"; lit "Costs"] 1 None).
Proof.
  intros good s.
  assert (JDict s ∈ [good; JDict s]) as H1 by (right; left).
  split; [exact H1|]. split; [reflexivity|]. split; [reflexivity|].
  exact (word_sections_discarded (fun _ => None) (fun _ => None) (fun _ => None)
           (lit "T") [lit "Scope"; lit "Costs"] 1 None [good; JDict s] s
           H1 eq_refl eq_refl).
Defined.
